(** * terragrunt-atlantis-config: stack resolution and local module sources

    A shallow embedding of the stack resolver (stack definition validation,
    module-to-stack matching, in-tree stack marker files, stack project
    synthesis) and of the local module-source resolver, together with the
    properties of these functions.

    Go strings are byte strings and are modelled by [string]; Go [int] is
    modelled by [Z]; a Go map is a [gmap]; a pointer that may be nil is an
    [option].  Functions of the Go standard library and of third-party
    packages are either modelled in the modules [GoStrings] and [UnixPath]
    or taken as the fields of the classes [Filepath] and [Terraform]. *)

From Stdlib Require Import String Ascii ZArith List Lia Bool DecimalString.
From stdpp Require Import gmap strings.

(** ** Results of fallible functions: Go's [(value, error)] pairs *)

Inductive result (A : Type) : Type :=
| Ok (a : A)
| Err (msg : string).
Arguments Ok {A} a.
Arguments Err {A} msg.

(** ** The Go [strings] package, as far as the program uses it *)

Module GoStrings.

(** [s[:n]] *)
Fixpoint take (n : nat) (s : string) : string :=
  match n, s with
  | S k, String c s' => String c (take k s')
  | _, _ => EmptyString
  end.

(** [s[n:]] *)
Fixpoint drop (n : nat) (s : string) : string :=
  match n, s with
  | S k, String _ s' => drop k s'
  | _, _ => s
  end.

(** [len(s) >= len(prefix) && s[:len(prefix)] == prefix] *)
Definition HasPrefix (s pre : string) : bool :=
  (String.length pre <=? String.length s)%nat
  && String.eqb (take (String.length pre) s) pre.

(** [len(s) >= len(suffix) && s[len(s)-len(suffix):] == suffix] *)
Definition HasSuffix (s suf : string) : bool :=
  (String.length suf <=? String.length s)%nat
  && String.eqb (drop (String.length s - String.length suf) s) suf.

Definition TrimPrefix (s pre : string) : string :=
  if HasPrefix s pre then drop (String.length pre) s else s.

Definition TrimSuffix (s suf : string) : string :=
  if HasSuffix s suf then take (String.length s - String.length suf) s else s.

(** [strings.Index]: the byte offset of the first occurrence, [None] for
    Go's [-1]. *)
Fixpoint Index (s substr : string) : option nat :=
  if HasPrefix s substr then Some 0%nat
  else match s with
       | EmptyString => None
       | String _ s' => option_map S (Index s' substr)
       end.

Definition Contains (s substr : string) : bool :=
  match Index s substr with Some _ => true | None => false end.

(** [strings.Split(s, sep)] for a non-empty separator: cut at each
    leftmost occurrence in turn.  The fuel bounds the number of cuts; each
    cut removes at least one byte, so [S (length s)] is enough. *)
Fixpoint genSplit (fuel : nat) (s sep : string) : list string :=
  match fuel with
  | O => [s]
  | S f =>
      match Index s sep with
      | None => [s]
      | Some m => take m s :: genSplit f (drop (m + String.length sep) s) sep
      end
  end.

Definition Split (s sep : string) : list string :=
  genSplit (S (String.length s)) s sep.

(** [strings.ReplaceAll(s, string(old), string(new))] for single bytes. *)
Fixpoint replaceByte (old new : ascii) (s : string) : string :=
  match s with
  | EmptyString => EmptyString
  | String c s' =>
      String (if Ascii.eqb c old then new else c) (replaceByte old new s')
  end.

(** [%d] *)
Definition formatInt (z : Z) : string := NilZero.string_of_int (Z.to_int z).

End GoStrings.

Import GoStrings.

(** ** [path/filepath] on a platform whose separator is the slash

    A byte-level model of [filepath.Match] (names and patterns in ASCII:
    a question mark and a character class consume one byte, where Go
    consumes one rune; no Windows escaping rules), and of the lexical
    [filepath.Join], [Dir], [Base] and [Rel] on slash-separated paths.  The program's functions below
    do not depend on this module: they take the package as a [Filepath]
    instance, and [unixFilepath] below is one. *)

Module UnixPath.

Definition ErrBadPattern : string := "syntax error in pattern".

Fixpoint skipStars (pattern : string) : bool * string :=
  match pattern with
  | String "*" p' => (true, snd (skipStars p'))
  | _ => (false, pattern)
  end.

(** The scan loop of [scanChunk]: the length of the chunk up to the first
    star outside a character class. *)
Fixpoint scanLen (inrange : bool) (p : string) : nat :=
  match p with
  | EmptyString => 0
  | String c p' =>
      if Ascii.eqb c "\" then
        match p' with
        | EmptyString => 1
        | String _ p'' => 2 + scanLen inrange p''
        end
      else if Ascii.eqb c "[" then 1 + scanLen true p'
      else if Ascii.eqb c "]" then 1 + scanLen false p'
      else if Ascii.eqb c "*" then
        if inrange then 1 + scanLen inrange p' else 0
      else 1 + scanLen inrange p'
  end%nat.

Definition scanChunk (pattern : string) : bool * string * string :=
  let '(star, p) := skipStars pattern in
  let i := scanLen false p in
  (star, take i p, drop i p).

Definition getEsc (chunk : string) : result (ascii * string) :=
  match chunk with
  | EmptyString => Err ErrBadPattern
  | String c rest =>
      if Ascii.eqb c "-" || Ascii.eqb c "]" then Err ErrBadPattern
      else
        let chunk1 := if Ascii.eqb c "\" then rest else chunk in
        match chunk1 with
        | EmptyString => Err ErrBadPattern
        | String r nchunk =>
            match nchunk with
            | EmptyString => Err ErrBadPattern
            | _ => Ok (r, nchunk)
            end
        end
  end.

Definition inRange (lo r hi : ascii) : bool :=
  (nat_of_ascii lo <=? nat_of_ascii r)%nat
  && (nat_of_ascii r <=? nat_of_ascii hi)%nat.

(** The range loop of a character class; returns whether [r] matched and
    the chunk after the closing bracket. *)
Fixpoint classLoop (fuel : nat) (chunk : string) (r : ascii)
         (matched : bool) (nrange : nat) : result (bool * string) :=
  match fuel with
  | O => Err ErrBadPattern
  | S f =>
      let close :=
        match chunk with
        | String "]" rest => if (0 <? nrange)%nat then Some rest else None
        | _ => None
        end in
      match close with
      | Some rest => Ok (matched, rest)
      | None =>
          match getEsc chunk with
          | Err e => Err e
          | Ok (lo, chunk1) =>
              match chunk1 with
              | String "-" rest1 =>
                  match getEsc rest1 with
                  | Err e => Err e
                  | Ok (hi, chunk2) =>
                      classLoop f chunk2 r (matched || inRange lo r hi)
                                (S nrange)
                  end
              | _ => classLoop f chunk1 r (matched || inRange lo r lo)
                               (S nrange)
              end
          end
      end
  end.

(** [matchChunk]: [Ok (Some rest)] when the chunk matches a prefix of [s],
    [Ok None] when it does not, [Err] on a malformed chunk. *)
Fixpoint matchChunkLoop (fuel : nat) (chunk s : string) (failed : bool)
  : result (option string) :=
  match fuel with
  | O => Err ErrBadPattern
  | S f =>
      match chunk with
      | EmptyString => if failed then Ok None else Ok (Some s)
      | String c chunk' =>
          let failed :=
            failed || match s with EmptyString => true | _ => false end in
          let literal (c0 : ascii) (rest : string) :=
            match s with
            | String d s' =>
                if failed then matchChunkLoop f rest s true
                else matchChunkLoop f rest s' (negb (Ascii.eqb c0 d))
            | EmptyString => matchChunkLoop f rest s true
            end in
          if Ascii.eqb c "[" then
            let '(r, s1) :=
              match s with
              | String d s' => if failed then (zero, s) else (d, s')
              | EmptyString => (zero, s)
              end in
            let '(negated, chunk1) :=
              match chunk' with
              | String "^" c2 => (true, c2)
              | _ => (false, chunk')
              end in
            match classLoop (S (String.length chunk1)) chunk1 r false 0 with
            | Err e => Err e
            | Ok (m, chunk2) =>
                matchChunkLoop f chunk2 s1 (failed || Bool.eqb m negated)
            end
          else if Ascii.eqb c "?" then
            match s with
            | String d s' =>
                if failed then matchChunkLoop f chunk' s true
                else matchChunkLoop f chunk' s' (Ascii.eqb d "/")
            | EmptyString => matchChunkLoop f chunk' s true
            end
          else if Ascii.eqb c "\" then
            match chunk' with
            | EmptyString => Err ErrBadPattern
            | String c2 chunk'' => literal c2 chunk''
            end
          else literal c chunk'
      end
  end.

Definition matchChunk (chunk s : string) : result (option string) :=
  matchChunkLoop (S (String.length chunk)) chunk s false.

(** The loop of [Match] that retries a chunk after skipping [i+1] bytes of
    the name, never past a separator. *)
Fixpoint starLoop (chunk : string) (lastChunk : bool) (name : string)
  : result (option string) :=
  match name with
  | EmptyString => Ok None
  | String c name' =>
      if Ascii.eqb c "/" then Ok None
      else
        match matchChunk chunk name' with
        | Err e => Err e
        | Ok (Some t) =>
            if lastChunk && negb (String.eqb t "")
            then starLoop chunk lastChunk name'
            else Ok (Some t)
        | Ok None => starLoop chunk lastChunk name'
        end
  end.

(** The loop that [Match] runs before it answers false without error: the
    chunks of the rest of the pattern are matched against the empty name,
    which reads no name and reports a malformed chunk. *)
Fixpoint checkRest (fuel : nat) (pattern : string) : result bool :=
  match fuel with
  | O => Err ErrBadPattern
  | S f =>
      match pattern with
      | EmptyString => Ok false
      | _ =>
          let '(_, chunk, pattern') := scanChunk pattern in
          match matchChunk chunk "" with
          | Err e => Err e
          | Ok _ => checkRest f pattern'
          end
      end
  end.

Fixpoint matchLoop (fuel : nat) (pattern name : string) : result bool :=
  match fuel with
  | O => Err ErrBadPattern
  | S f =>
      match pattern with
      | EmptyString => Ok (String.eqb name "")
      | _ =>
          let '(star, chunk, pattern') := scanChunk pattern in
          if star && String.eqb chunk "" then Ok (negb (Contains name "/"))
          else
            let lastChunk := String.eqb pattern' "" in
            match matchChunk chunk name with
            | Err e => Err e
            | Ok r =>
                let direct :=
                  match r with
                  | Some t =>
                      if String.eqb t "" || negb lastChunk then Some t
                      else None
                  | None => None
                  end in
                match direct with
                | Some t => matchLoop f pattern' t
                | None =>
                    if star then
                      match starLoop chunk lastChunk name with
                      | Err e => Err e
                      | Ok (Some t) => matchLoop f pattern' t
                      | Ok None => checkRest f pattern'
                      end
                    else checkRest f pattern'
                end
            end
      end
  end.

(** [filepath.Match(pattern, name)] *)
Definition Match (pattern name : string) : result bool :=
  matchLoop (S (String.length pattern)) pattern name.

(** Lexical cleaning: empty and [.] elements vanish, [..] removes the
    element before it (or stays, on a relative path that has none). *)
Definition isRooted (path : string) : bool := HasPrefix path "/".

Fixpoint cleanElems (rooted : bool) (out : list string) (elems : list string)
  : list string :=
  match elems with
  | [] => rev out
  | e :: rest =>
      if String.eqb e "" || String.eqb e "." then cleanElems rooted out rest
      else if String.eqb e ".." then
        match out with
        | top :: out' =>
            if String.eqb top ".." then cleanElems rooted (e :: out) rest
            else cleanElems rooted out' rest
        | [] =>
            if rooted then cleanElems rooted out rest
            else cleanElems rooted (e :: out) rest
        end
      else cleanElems rooted (e :: out) rest
  end.

Fixpoint joinElems (elems : list string) : string :=
  match elems with
  | [] => ""
  | [e] => e
  | e :: rest => e +:+ "/" +:+ joinElems rest
  end.

Definition elemsOf (path : string) : list string :=
  cleanElems (isRooted path) [] (Split path "/").

Definition Clean (path : string) : string :=
  match elemsOf path with
  | [] => if isRooted path then "/" else "."
  | elems => (if isRooted path then "/" else "") +:+ joinElems elems
  end.

(** [filepath.Join(a, b)] *)
Definition Join (a b : string) : string :=
  if String.eqb a "" then (if String.eqb b "" then "" else Clean b)
  else if String.eqb b "" then Clean a
  else Clean (a +:+ "/" +:+ b).

Fixpoint lastSlash (s : string) : option nat :=
  match s with
  | EmptyString => None
  | String c s' =>
      match lastSlash s' with
      | Some i => Some (S i)
      | None => if Ascii.eqb c "/" then Some 0%nat else None
      end
  end.

(** [filepath.Dir(path)] *)
Definition Dir (path : string) : string :=
  match lastSlash path with
  | Some i => Clean (take (S i) path)
  | None => "."
  end.

Fixpoint stripTrailingSlashes (fuel : nat) (s : string) : string :=
  match fuel with
  | O => s
  | S f => if HasSuffix s "/"
           then stripTrailingSlashes f (take (String.length s - 1) s)
           else s
  end.

(** [filepath.Base(path)] *)
Definition Base (path : string) : string :=
  if String.eqb path "" then "."
  else
    let p := stripTrailingSlashes (String.length path) path in
    let b := match lastSlash p with
             | Some i => drop (S i) p
             | None => p
             end in
    if String.eqb b "" then "/" else b.

Fixpoint lastDot (s : string) : option nat :=
  match s with
  | EmptyString => None
  | String c s' =>
      match lastDot s' with
      | Some i => Some (S i)
      | None => if Ascii.eqb c "." then Some 0%nat else None
      end
  end.

(** [filepath.Ext(path)]: the suffix from the last dot of the last
    element. *)
Definition Ext (path : string) : string :=
  let b := match lastSlash path with
           | Some i => drop (S i) path
           | None => path
           end in
  match lastDot b with
  | Some i => drop i b
  | None => ""
  end.

Fixpoint stripCommon (base targ : list string) : list string * list string :=
  match base, targ with
  | b :: base', t :: targ' =>
      if String.eqb b t then stripCommon base' targ' else (base, targ)
  | _, _ => (base, targ)
  end.

(** [filepath.Rel(basepath, targpath)] *)
Definition Rel (basepath targpath : string) : result string :=
  let cannot :=
    Err ("Rel: can't make " +:+ targpath +:+ " relative to " +:+ basepath) in
  if String.eqb (Clean targpath) (Clean basepath) then Ok "."
  else if negb (Bool.eqb (isRooted basepath) (isRooted targpath)) then cannot
  else
    let '(b, t) := stripCommon (elemsOf basepath) (elemsOf targpath) in
    match b with
    | [] => Ok (joinElems t)
    | b0 :: _ =>
        if String.eqb b0 ".." then cannot
        else Ok (joinElems (map (fun _ => "..") b ++ t))
    end.

End UnixPath.

(** ** The packages the program calls *)

(** [path/filepath]. *)
Class Filepath := {
  Separator : ascii;
  filepath_Match : string -> string -> result bool;
  filepath_Rel : string -> string -> result string;
  filepath_Join : string -> string -> string;
  filepath_Dir : string -> string;
  filepath_Base : string -> string;
  filepath_Ext : string -> string
}.

Definition unixFilepath : Filepath := {|
  Separator := "/";
  filepath_Match := UnixPath.Match;
  filepath_Rel := UnixPath.Rel;
  filepath_Join := UnixPath.Join;
  filepath_Dir := UnixPath.Dir;
  filepath_Base := UnixPath.Base;
  filepath_Ext := UnixPath.Ext
|}.

(** [filepath.ToSlash] *)
Definition ToSlash {fp : Filepath} (path : string) : string :=
  if Ascii.eqb Separator "/" then path
  else replaceByte Separator "/" path.

(** ** Data model of the stack resolver *)

Module AtlantisStackConfig.
Record t := {
  Workflow : string;
  AutoPlan : bool;
  Parallel : bool;
  ApplyRequirements : list string;
  ExecutionOrderGroup : Z;
  Workspace : string;
  TerraformVersion : string
}.
End AtlantisStackConfig.

Module ExternalStackConfig.
Record t := {
  Name : string;
  Description : string;
  Include : list string;
  Exclude : list string;
  Modules : list string;
  DependsOn : list string;
  Atlantis : AtlantisStackConfig.t
}.
End ExternalStackConfig.

Module StackDefinitionFile.
Record t := {
  Version : Z;
  Stacks : list ExternalStackConfig.t
}.
End StackDefinitionFile.

Module StackAtlantisConfig.
Record t := {
  Workflow : string;
  AutoPlan : bool;
  Parallel : bool;
  ApplyRequirements : list string;
  Workspace : string;
  TerraformVersion : string
}.
End StackAtlantisConfig.

Module Stack.
Record t := {
  Name : string;
  Description : string;
  Modules : list string;
  Dependencies : list string;
  AtlantisConfig : StackAtlantisConfig.t;
  ExecutionOrder : Z;
  Source : string
}.
End Stack.

Module StackManagerConfig.
Record t := {
  GitRoot : string;
  DefinitionFile : string;
  InferFromDir : bool;
  DirectoryDepth : Z;
  AllowMultiStack : bool;
  StackMarkerFile : string;
  ValidateCoverage : bool
}.
End StackManagerConfig.

Module StackManager.
Record t := {
  config : StackManagerConfig.t;
  stacks : list Stack.t;
  moduleToStacks : gmap string (list string);
  stackToModules : gmap string (list string)
}.
End StackManager.

(** The project record.  Its declaration is outside the files at hand; the
    fields and their types are those [GenerateStackProject] assigns: the two
    pointer fields are options, [DependsOn] is a slice whose zero value is
    the absent list. *)
Module AutoplanConfig.
Record t := {
  Enabled : bool;
  WhenModified : list string
}.
End AutoplanConfig.

Module AtlantisProject.
Record t := {
  Dir : string;
  Name : string;
  Workflow : string;
  Workspace : string;
  TerraformVersion : string;
  Autoplan : AutoplanConfig.t;
  ApplyRequirements : option (list string);
  ExecutionOrderGroup : option Z;
  DependsOn : list string
}.
End AtlantisProject.

(** A value together with the warnings logged while computing it. *)
Definition logged (A : Type) : Type := (A * list string)%type.

(** ** Stack definition files *)

Module StackDefinition.

Definition seen (stackNames : gmap string bool) (name : string) : bool :=
  default false (stackNames !! name).

(** The loop of [ValidateStackDefinition] over [def.Stacks], from index
    [i] with the names recorded so far. *)
Fixpoint validateStacks (i : nat) (stacks : list ExternalStackConfig.t)
         (stackNames : gmap string bool) : option string :=
  match stacks with
  | [] => None
  | stack :: rest =>
      let name := ExternalStackConfig.Name stack in
      if String.eqb name "" then
        Some ("stack at index " +:+ formatInt (Z.of_nat i) +:+ " has no name")
      else if seen stackNames name then
        Some ("duplicate stack name: " +:+ name)
      else
        let stackNames := <[name := true]> stackNames in
        if (length (ExternalStackConfig.Include stack) =? 0)%nat
           && (length (ExternalStackConfig.Modules stack) =? 0)%nat then
          Some ("stack '" +:+ name +:+
                "' must specify either 'include' patterns or 'modules' list")
        else if existsb (fun pattern => String.eqb pattern "")
                        (ExternalStackConfig.Include stack) then
          Some ("stack '" +:+ name +:+ "' has empty include pattern")
        else validateStacks (S i) rest stackNames
  end.

(** [None] is Go's nil error. *)
Definition ValidateStackDefinition (def : StackDefinitionFile.t)
  : option string :=
  if negb (StackDefinitionFile.Version def =? 1)%Z then
    Some ("unsupported stack definition version: " +:+
          formatInt (StackDefinitionFile.Version def) +:+ " (expected 1)")
  else if (length (StackDefinitionFile.Stacks def) =? 0)%nat then
    Some "no stacks defined"
  else validateStacks 0 (StackDefinitionFile.Stacks def) ∅.

Definition names (stacks : list ExternalStackConfig.t) : list string :=
  map ExternalStackConfig.Name stacks.

(** A stack that passes the checks of one iteration of the loop, the
    duplicate check apart. *)
Definition wellFormed (stack : ExternalStackConfig.t) : Prop :=
  ExternalStackConfig.Name stack <> ""
  /\ ~ (ExternalStackConfig.Include stack = []
        /\ ExternalStackConfig.Modules stack = [])
  /\ "" ∉ ExternalStackConfig.Include stack.

(** The names the loop has recorded after a run over [stacks]. *)
Definition recordNames (stackNames : gmap string bool)
           (stacks : list ExternalStackConfig.t) : gmap string bool :=
  foldl (fun m stack => <[ExternalStackConfig.Name stack := true]> m)
        stackNames stacks.

End StackDefinition.

(** Stack configurations as the tests write them: the fields that are not
    given hold Go's zero values. *)
Module Fixtures.

Definition noAtlantis : AtlantisStackConfig.t := {|
  AtlantisStackConfig.Workflow := "";
  AtlantisStackConfig.AutoPlan := false;
  AtlantisStackConfig.Parallel := false;
  AtlantisStackConfig.ApplyRequirements := [];
  AtlantisStackConfig.ExecutionOrderGroup := 0;
  AtlantisStackConfig.Workspace := "";
  AtlantisStackConfig.TerraformVersion := ""
|}.

Definition stackOf (name : string) (include exclude modules : list string)
  : ExternalStackConfig.t := {|
  ExternalStackConfig.Name := name;
  ExternalStackConfig.Description := "";
  ExternalStackConfig.Include := include;
  ExternalStackConfig.Exclude := exclude;
  ExternalStackConfig.Modules := modules;
  ExternalStackConfig.DependsOn := [];
  ExternalStackConfig.Atlantis := noAtlantis
|}.

Definition definitionOf (version : Z) (stacks : list ExternalStackConfig.t)
  : StackDefinitionFile.t := {|
  StackDefinitionFile.Version := version;
  StackDefinitionFile.Stacks := stacks
|}.

End Fixtures.

(** ** Matching modules to stacks *)

Module StackMatch.
Section WithFilepath.
Context {fp : Filepath}.

(** The last statements of [matchGlobPattern]: the answer of
    [filepath.Match], and a warning and [false] for a malformed pattern. *)
Definition viaFilepathMatch (path pattern : string) : logged bool :=
  match filepath_Match pattern path with
  | Err err =>
      (false, ["Invalid glob pattern '" +:+ pattern +:+ "': " +:+ err])
  | Ok matched => (matched, [])
  end.

(** [matchGlobPattern(path, pattern)], with the warning it logs. *)
Definition matchGlobPattern (path pattern : string) : logged bool :=
  let viaMatch := viaFilepathMatch path pattern in
  if Contains pattern "**" then
    match Split pattern "**" with
    | [part0; part1] =>
        let pre := TrimSuffix part0 "/" in
        let suf := TrimPrefix part1 "/" in
        if negb (String.eqb pre "") && negb (HasPrefix path pre)
        then (false, [])
        else if negb (String.eqb suf "") && negb (HasSuffix path suf)
        then (false, [])
        else (true, [])
    | _ => viaMatch
    end
  else viaMatch.

(** The rule in the words of the specification: split the pattern at the
    first occurrence of the recursive token; the path starts with the
    slash-trimmed prefix, if non-empty, and ends with the slash-trimmed
    suffix, if non-empty. *)
Definition recursiveTokenRule (path pattern : string) : bool :=
  match Index pattern "**" with
  | None => false
  | Some i =>
      let pre := TrimSuffix (take i pattern) "/" in
      let suf := TrimPrefix (drop (i + 2) pattern) "/" in
      (String.eqb pre "" || HasPrefix path pre)
      && (String.eqb suf "" || HasSuffix path suf)
  end.

(** [for _, pattern := range patterns { if matchGlobPattern(relPath,
    pattern) { found = true; break } }]: the include loop and the exclude
    loop of [MatchModuleToStacks]. *)
Fixpoint anyPatternMatches (relPath : string) (patterns : list string)
  : logged bool :=
  match patterns with
  | [] => (false, [])
  | pattern :: rest =>
      let '(m, w) := matchGlobPattern relPath pattern in
      if m then (true, w)
      else let '(m', w') := anyPatternMatches relPath rest in (m', w ++ w')
  end.

(** The loop over [stack.Modules]. *)
Fixpoint explicitModuleMatches (relPath : string) (modules : list string)
  : bool :=
  match modules with
  | [] => false
  | explicitModule :: rest =>
      let explicitModule := ToSlash explicitModule in
      if HasSuffix relPath explicitModule || String.eqb relPath explicitModule
      then true
      else explicitModuleMatches relPath rest
  end.

(** One iteration of the loop over the stacks: whether the stack's name is
    appended to [matchedStacks]. *)
Definition stackClaims (relPath : string) (stack : ExternalStackConfig.t)
  : logged bool :=
  if (0 <? length (ExternalStackConfig.Modules stack))%nat then
    (explicitModuleMatches relPath (ExternalStackConfig.Modules stack), [])
  else
    let '(included, w1) :=
      anyPatternMatches relPath (ExternalStackConfig.Include stack) in
    if negb included then (false, w1)
    else
      let '(excluded, w2) :=
        anyPatternMatches relPath (ExternalStackConfig.Exclude stack) in
      (negb excluded, w1 ++ w2).

Fixpoint matchStacks (relPath : string) (stacks : list ExternalStackConfig.t)
  : logged (list string) :=
  match stacks with
  | [] => ([], [])
  | stack :: rest =>
      let '(claimed, w) := stackClaims relPath stack in
      let '(matched, w') := matchStacks relPath rest in
      (if claimed then ExternalStackConfig.Name stack :: matched
       else matched, w ++ w')
  end.

(** The module path relative to the repository root, in slash form. *)
Definition normalizedRelPath (modulePath gitRoot : string) : logged string :=
  match filepath_Rel gitRoot modulePath with
  | Err err =>
      (ToSlash modulePath,
       ["Failed to get relative path for " +:+ modulePath +:+ ": " +:+ err])
  | Ok relPath => (ToSlash relPath, [])
  end.

Definition MatchModuleToStacks (modulePath : string)
           (stacks : list ExternalStackConfig.t) (gitRoot : string)
  : logged (list string) :=
  let '(relPath, w) := normalizedRelPath modulePath gitRoot in
  let '(matchedStacks, w') := matchStacks relPath stacks in
  (matchedStacks, w ++ w').

End WithFilepath.
End StackMatch.

(** ** Synthesis of a stack's project *)

Module StackProject.
Section WithHelpers.
(** [uniqueStrings] is declared outside the files at hand. *)
Variable uniqueStrings : list string -> list string.

(** A stub in the source: it returns the current directory. *)
Definition findCommonParent (sm : StackManager.t) (modules : list string)
  : string := ".".

(** The modules of the stacks a stack depends on, in order. *)
Fixpoint dependencyModules (sm : StackManager.t) (deps : list string)
  : list string :=
  match deps with
  | [] => []
  | depStack :: rest =>
      match StackManager.stackToModules sm !! depStack with
      | Some modules => modules ++ dependencyModules sm rest
      | None => dependencyModules sm rest
      end
  end.

Definition GenerateStackProject (sm : StackManager.t) (stack : Stack.t)
  : result AtlantisProject.t :=
  let allDependencies :=
    ["*.hcl"; "*.tf*"; "**/*.hcl"; "**/*.tf*"]
      ++ dependencyModules sm (Stack.Dependencies stack) in
  let stackDir := findCommonParent sm (Stack.Modules stack) in
  let config := Stack.AtlantisConfig stack in
  Ok {|
    AtlantisProject.Dir := stackDir;
    AtlantisProject.Name := Stack.Name stack;
    AtlantisProject.Workflow := StackAtlantisConfig.Workflow config;
    AtlantisProject.Workspace := StackAtlantisConfig.Workspace config;
    AtlantisProject.TerraformVersion :=
      StackAtlantisConfig.TerraformVersion config;
    AtlantisProject.Autoplan := {|
      AutoplanConfig.Enabled := StackAtlantisConfig.AutoPlan config;
      AutoplanConfig.WhenModified := uniqueStrings allDependencies
    |};
    AtlantisProject.ApplyRequirements :=
      if (0 <? length (StackAtlantisConfig.ApplyRequirements config))%nat
      then Some (StackAtlantisConfig.ApplyRequirements config)
      else None;
    AtlantisProject.ExecutionOrderGroup :=
      if (0 <? Stack.ExecutionOrder stack)%Z
      then Some (Stack.ExecutionOrder stack)
      else None;
    AtlantisProject.DependsOn :=
      if (0 <? length (Stack.Dependencies stack))%nat
      then Stack.Dependencies stack
      else []
  |}.

End WithHelpers.
End StackProject.

(** ** In-tree stack marker files *)

Module UnitBlock.
Record t := {
  Name : string;
  Source : option string;
  Path : option string
}.
End UnitBlock.

Module StackBlock.
Record t := {
  Name : string;
  Description : option string
}.
End StackBlock.

Module ParsedStackHcl.
Record t := {
  Units : list UnitBlock.t;
  Stacks : list StackBlock.t
}.
End ParsedStackHcl.

Module StackHclDefinition.
Record t := {
  FilePath : string;
  Units : list UnitBlock.t;
  StackBlock : option StackBlock.t
}.
End StackHclDefinition.

(** The file system and the configuration-language packages: reading,
    parsing and decoding a file.  A parser result with error diagnostics is
    an [Err]; the parsers are total, so the recovery from a parser panic in
    [parseHclForStack] has no counterpart here. *)
Class HclPackages := {
  HclFile : Type;
  EvalContext : Type;
  ParsingContext : Type;
  (** [os.IsNotExist] of the error of [os.Stat] *)
  os_notExist : string -> bool;
  os_ReadFile : string -> result string;
  ParseJSON : string -> string -> result HclFile;
  ParseHCL : string -> string -> result HclFile;
  createTerragruntEvalContext : ParsingContext -> string -> result EvalContext;
  DecodeBody : HclFile -> EvalContext -> result ParsedStackHcl.t
}.

Module StackHcl.
Section WithPackages.
Context {fp : Filepath} {hp : HclPackages}.

Definition parseHclForStack (hcl filename : string) : result HclFile :=
  if String.eqb (filepath_Ext filename) ".json"
  then ParseJSON hcl filename
  else ParseHCL hcl filename.

(** The stack block of a decoded file: the first one, with a warning when
    there are more. *)
Definition selectStackBlock (path : string) (parsed : ParsedStackHcl.t)
  : logged (option StackBlock.t) :=
  match ParsedStackHcl.Stacks parsed with
  | [] => (None, [])
  | stackBlock :: others =>
      (Some stackBlock,
       if (1 <? length (ParsedStackHcl.Stacks parsed))%nat
       then ["Multiple stack blocks found in " +:+ path +:+
             ", using first one: " +:+ StackBlock.Name stackBlock]
       else [])
  end.

Definition ParseStackHclFile (path : string) (ctx : ParsingContext)
  : logged (result StackHclDefinition.t) :=
  if os_notExist path then
    (Err ("stack HCL file not found: " +:+ path), [])
  else
    match os_ReadFile path with
    | Err err => (Err ("failed to read stack HCL file: " +:+ err), [])
    | Ok configString =>
        match parseHclForStack configString path with
        | Err err => (Err ("failed to parse stack HCL file: " +:+ err), [])
        | Ok file =>
            match createTerragruntEvalContext ctx path with
            | Err err =>
                (Err ("failed to create eval context: " +:+ err), [])
            | Ok evalContext =>
                match DecodeBody file evalContext with
                | Err err =>
                    (Err ("failed to decode stack HCL file: " +:+ err), [])
                | Ok parsed =>
                    let '(stackBlock, w) := selectStackBlock path parsed in
                    (Ok {|
                       StackHclDefinition.FilePath := path;
                       StackHclDefinition.Units := ParsedStackHcl.Units parsed;
                       StackHclDefinition.StackBlock := stackBlock
                     |}, w)
                end
            end
        end
    end.

(** The loop over the units of one definition. *)
Fixpoint unitPathsOf (stackDir gitRoot : string) (units : list UnitBlock.t)
  : logged (list string) :=
  match units with
  | [] => ([], [])
  | unit :: rest =>
      let located : option string * list string :=
        match UnitBlock.Path unit, UnitBlock.Source unit with
        | Some p, _ =>
            let unitPath := filepath_Join stackDir p in
            let terragruntFile := filepath_Join unitPath "terragrunt.hcl" in
            if os_notExist terragruntFile then
              if String.eqb (filepath_Base unitPath) "terragrunt.hcl"
              then (Some (filepath_Dir unitPath), [])
              else (Some unitPath,
                    ["No terragrunt.hcl found at " +:+ terragruntFile +:+
                     " for unit " +:+ UnitBlock.Name unit])
            else (Some unitPath, [])
        | None, Some src =>
            (Some src,
             ["Unit " +:+ UnitBlock.Name unit +:+
              " has source but no path, using source directly: " +:+ src])
        | None, None =>
            (None,
             ["Unit " +:+ UnitBlock.Name unit +:+
              " has no path or source, skipping"])
        end in
      let '(paths, w') := unitPathsOf stackDir gitRoot rest in
      match located with
      | (None, w) => (paths, w ++ w')
      | (Some unitPath, w) =>
          let relPath :=
            match filepath_Rel gitRoot unitPath with
            | Err _ => unitPath
            | Ok r => r
            end in
          (ToSlash relPath :: paths, w ++ w')
      end
  end.

Definition stackNameOf (def : StackHclDefinition.t) : string :=
  match StackHclDefinition.StackBlock def with
  | Some stackBlock => StackBlock.Name stackBlock
  | None =>
      if (0 <? length (StackHclDefinition.Units def))%nat
      then filepath_Base (filepath_Dir (StackHclDefinition.FilePath def))
      else StackHclDefinition.FilePath def
  end.

Definition convertOne (def : StackHclDefinition.t) (gitRoot : string)
  : logged Stack.t :=
  let stackName := stackNameOf def in
  let stackDir := filepath_Dir (StackHclDefinition.FilePath def) in
  let '(unitPaths, w) :=
    unitPathsOf stackDir gitRoot (StackHclDefinition.Units def) in
  let description :=
    match StackHclDefinition.StackBlock def with
    | Some stackBlock => default "" (StackBlock.Description stackBlock)
    | None => ""
    end in
  ({|
     Stack.Name := stackName;
     Stack.Description := description;
     Stack.Modules := unitPaths;
     Stack.Dependencies := [];
     Stack.AtlantisConfig := {|
       StackAtlantisConfig.Workflow := "";
       StackAtlantisConfig.AutoPlan := false;
       StackAtlantisConfig.Parallel := false;
       StackAtlantisConfig.ApplyRequirements := [];
       StackAtlantisConfig.Workspace := "";
       StackAtlantisConfig.TerraformVersion := ""
     |};
     Stack.ExecutionOrder := 0;
     Stack.Source := "terragrunt.stack.hcl"
   |}, w).

Fixpoint ConvertStackHclToStacks (definitions : list StackHclDefinition.t)
         (gitRoot : string) : logged (list Stack.t) :=
  match definitions with
  | [] => ([], [])
  | def :: rest =>
      let '(stack, w) := convertOne def gitRoot in
      let '(stacks, w') := ConvertStackHclToStacks rest gitRoot in
      (stack :: stacks, w ++ w')
  end.

End WithPackages.
End StackHcl.

(** ** Local module sources *)

Inductive DiagSeverity := DiagError | DiagWarning.

Module Diagnostic.
Record t := {
  Severity : DiagSeverity;
  Summary : string;
  Detail : string
}.
End Diagnostic.

Module ModuleCall.
Record t := {
  Name : string;
  Source : string
}.
End ModuleCall.

Module TfModule.
(** [ModuleCalls] is a Go map keyed by call name; the list holds its
    values in the order the [range] statement visits them, which Go leaves
    unspecified and chooses anew at each [range] statement.  What is proved
    below is proved for every list; since a module has one list here, no
    property is stated that compares two loops over the calls of the same
    module. *)
Record t := {
  Path : string;
  ModuleCalls : list ModuleCall.t
}.
End TfModule.

(** The Terraform configuration inspector and Terragrunt's path join.  The
    files do not change during a run: loading a path twice gives the same
    module and diagnostics. *)
Class Terraform := {
  LoadModule : string -> TfModule.t * list Diagnostic.t;
  DiagnosticsError : list Diagnostic.t -> string;
  JoinPath : string -> string -> string
}.

Module LocalSource.

Definition localModuleSourcePrefixes : list string :=
  ["./"; "../"; ".\"; "..\"].

Definition isLocalTerraformModuleSource (raw : string) : bool :=
  existsb (fun pre => HasPrefix raw pre) localModuleSourcePrefixes.

Definition HasErrors (diags : list Diagnostic.t) : bool :=
  existsb (fun diag => match Diagnostic.Severity diag with
                       | DiagError => true
                       | DiagWarning => false
                       end) diags.

(** The loop that looks for a provider-reference diagnostic. *)
Definition providerRefError (diags : list Diagnostic.t) : bool :=
  existsb (fun diag =>
             Contains (Diagnostic.Summary diag) "Invalid provider reference"
             || Contains (Diagnostic.Summary diag)
                         "Invalid provider configuration address") diags.

Definition parseTerraformFilesWithOpenTofuSupport (path : string)
  : result (list string) := Ok ["*.tf*"].

(** The keys of the source map; Go visits them in an unspecified order. *)
Definition sourcesOf (sourceMap : gmap string bool) : list string :=
  (map_to_list sourceMap).*1.

Definition addSources (sourceMap : gmap string bool) (sources : list string)
  : gmap string bool :=
  foldl (fun m source => <[source := true]> m) sourceMap sources.

Section WithTerraform.
Context {tf : Terraform}.

(** The loop over the module calls, shared by the two resolvers; [recurse]
    is the resolver's call on itself.  [None] stands for a computation that
    has not returned within the fuel. *)
Fixpoint collectSources (recurse : string -> option (result (list string)))
         (path : string) (calls : list ModuleCall.t)
         (sourceMap : gmap string bool)
  : option (result (gmap string bool)) :=
  match calls with
  | [] => Some (Ok sourceMap)
  | mc :: rest =>
      if isLocalTerraformModuleSource (ModuleCall.Source mc) then
        let modulePath := JoinPath path (ModuleCall.Source mc) in
        let modulePathGlob := JoinPath modulePath "*.tf*" in
        match sourceMap !! modulePathGlob with
        | Some _ => collectSources recurse path rest sourceMap
        | None =>
            let sourceMap := <[modulePathGlob := true]> sourceMap in
            match recurse modulePath with
            | None => None
            | Some (Err err) => Some (Err err)
            | Some (Ok subSources) =>
                collectSources recurse path rest
                               (addSources sourceMap subSources)
            end
        end
      else collectSources recurse path rest sourceMap
  end.

Definition resolveCalls (recurse : string -> option (result (list string)))
           (path : string) (module : TfModule.t)
  : option (result (list string)) :=
  match collectSources recurse path (TfModule.ModuleCalls module) ∅ with
  | None => None
  | Some (Err err) => Some (Err err)
  | Some (Ok sourceMap) => Some (Ok (sourcesOf sourceMap))
  end.

Fixpoint parseTerraformLocalModuleSourceOpenTofu (fuel : nat) (path : string)
  : option (result (list string)) :=
  match fuel with
  | O => None
  | S f =>
      let '(module, diags) := LoadModule path in
      if HasErrors diags then
        if negb (providerRefError diags) then
          Some (Err ("terraform-config-inspect error: " +:+
                     DiagnosticsError diags))
        else Some (parseTerraformFilesWithOpenTofuSupport path)
      else resolveCalls (parseTerraformLocalModuleSourceOpenTofu f)
                        path module
  end.

Fixpoint parseTerraformLocalModuleSource (fuel : nat) (path : string)
  : option (result (list string)) :=
  match fuel with
  | O => None
  | S f =>
      match parseTerraformLocalModuleSourceOpenTofu f path with
      | None => None
      | Some (Ok sources) => Some (Ok sources)
      | Some (Err _) =>
          let '(module, diags) := LoadModule path in
          if HasErrors diags then Some (Err (DiagnosticsError diags))
          else resolveCalls (parseTerraformLocalModuleSource f) path module
      end
  end.

(** The paths a resolver calls itself on from [path]: the joined paths of
    the local module calls of a configuration that loads without errors.
    The inspector returns module calls also beside error diagnostics, but
    neither resolver reads them then: a module whose load reports errors,
    also one resolved by the provider-reference fallback, has no local
    reference. *)
Definition localReferences (path : string) : list string :=
  let '(module, diags) := LoadModule path in
  if HasErrors diags then []
  else map (fun mc => JoinPath path (ModuleCall.Source mc))
           (List.filter
              (fun mc => isLocalTerraformModuleSource (ModuleCall.Source mc))
              (TfModule.ModuleCalls module)).

End WithTerraform.
End LocalSource.

(** ** Environments for the examples *)

Module MarkerFixture.

Definition markerPath : string := "/repo/env/prod/terragrunt.stack.hcl".

Definition production : StackBlock.t := {|
  StackBlock.Name := "production";
  StackBlock.Description := Some "Production environment"
|}.

Definition leftover : StackBlock.t := {|
  StackBlock.Name := "leftover";
  StackBlock.Description := None
|}.

(** A marker file that declares one unit and two stack blocks. *)
Definition decoded : ParsedStackHcl.t := {|
  ParsedStackHcl.Units :=
    [{| UnitBlock.Name := "vpc"; UnitBlock.Source := None;
        UnitBlock.Path := Some "vpc" |}];
  ParsedStackHcl.Stacks := [production; leftover]
|}.

(** A file system that holds the marker file and the unit's
    [terragrunt.hcl]; parsing keeps the text, decoding yields [decoded]. *)
Definition packages : HclPackages := {|
  HclFile := string;
  EvalContext := unit;
  ParsingContext := unit;
  os_notExist := fun path =>
    negb (String.eqb path markerPath
          || String.eqb path "/repo/env/prod/vpc/terragrunt.hcl");
  os_ReadFile := fun path =>
    if String.eqb path markerPath then Ok "unit stack stack"
    else Err "no such file or directory";
  ParseJSON := fun hcl _ => Ok hcl;
  ParseHCL := fun hcl _ => Ok hcl;
  createTerragruntEvalContext := fun _ _ => Ok tt;
  DecodeBody := fun _ _ => Ok decoded
|}.

(** A definition without stack block, as [ParseStackHclFile] returns it
    for a file that declares units only. *)
Definition unitsOnly : StackHclDefinition.t := {|
  StackHclDefinition.FilePath := markerPath;
  StackHclDefinition.Units := ParsedStackHcl.Units decoded;
  StackHclDefinition.StackBlock := None
|}.

End MarkerFixture.

Module SourceFixture.

Definition call (name source : string) : ModuleCall.t :=
  {| ModuleCall.Name := name; ModuleCall.Source := source |}.

Definition moduleAt (path : string) (calls : list ModuleCall.t)
  : TfModule.t * list Diagnostic.t :=
  ({| TfModule.Path := path; TfModule.ModuleCalls := calls |}, []).

Definition failed (path : string) (summary : string)
  : TfModule.t * list Diagnostic.t :=
  ({| TfModule.Path := path; TfModule.ModuleCalls := [] |},
   [{| Diagnostic.Severity := DiagError; Diagnostic.Summary := summary;
       Diagnostic.Detail := "" |}]).

Definition render (diags : list Diagnostic.t) : string :=
  match diags with
  | [] => "no diagnostics"
  | diag :: _ => Diagnostic.Summary diag +:+ ": " +:+ Diagnostic.Detail diag
  end.

(** A repository without reference cycle: [app] calls the local module
    [modules/vpc] twice and a registry module once; [modules/vpc] calls
    its own sub-module; [opentofu] uses the indexed provider reference;
    [broken] has a syntax error. *)
Definition tree : Terraform := {|
  LoadModule := fun path =>
    if String.eqb path "/repo/app" then
      moduleAt path [call "vpc" "../modules/vpc";
                     call "bucket" "terraform-aws-modules/s3-bucket/aws";
                     call "vpc_again" "../modules/vpc"]
    else if String.eqb path "/repo/modules/vpc" then
      moduleAt path [call "subnets" "./subnets"]
    else if String.eqb path "/repo/service" then
      moduleAt path [call "bucket" "terraform-aws-modules/s3-bucket/aws"]
    else if String.eqb path "/repo/opentofu" then
      failed path "Invalid provider reference"
    else if String.eqb path "/repo/broken" then
      failed path "Argument or block definition required"
    else moduleAt path [];
  DiagnosticsError := render;
  JoinPath := UnixPath.Join
|}.

Definition treeRank (path : string) : nat :=
  if String.eqb path "/repo/app" then 2
  else if String.eqb path "/repo/modules/vpc" then 1
  else 0.

(** Two modules that call each other. *)
Definition cycle : Terraform := {|
  LoadModule := fun path =>
    if String.eqb path "/repo/a" then moduleAt path [call "b" "../b"]
    else if String.eqb path "/repo/b" then moduleAt path [call "a" "../a"]
    else moduleAt path [];
  DiagnosticsError := render;
  JoinPath := UnixPath.Join
|}.

End SourceFixture.

(** ** Provider references in the OpenTofu syntax *)

(** The part of the [hcl] package the provider-reference parser uses.  The
    key of an index step is a value of the configuration language; its type
    is a parameter. *)
Module Hcl.

Record Pos := { Line : Z; Column : Z; Byte : Z }.

Record Range := { Filename : string; Start : Pos; End_ : Pos }.

#[warnings="-register-all"]
Inductive Traverser (Value : Type) : Type :=
| TraverseRoot (Name : string) (SrcRange : Range)
| TraverseAttr (Name : string) (SrcRange : Range)
| TraverseIndex (Key : Value) (SrcRange : Range)
| TraverseSplat (Each : list (Traverser Value)) (SrcRange : Range).
Arguments TraverseRoot {Value} Name SrcRange.
Arguments TraverseAttr {Value} Name SrcRange.
Arguments TraverseIndex {Value} Key SrcRange.
Arguments TraverseSplat {Value} Each SrcRange.

Definition SourceRange {Value} (step : Traverser Value) : Range :=
  match step with
  | TraverseRoot _ r | TraverseAttr _ r | TraverseIndex _ r
  | TraverseSplat _ r => r
  end.

(** [Traversal.RootName]: [None] stands for its panic on a traversal that
    is empty or does not start at a root. *)
Definition RootName {Value} (traversal : list (Traverser Value))
  : option string :=
  match traversal with
  | TraverseRoot name _ :: _ => Some name
  | _ => None
  end.

Inductive Severity := DiagInvalid | DiagError | DiagWarning.

Record Diagnostic := {
  DiagSeverity : Severity;
  Summary : string;
  Detail : string;
  Subject : option Range
}.

End Hcl.

Module OpenTofuProviderRef.
Record t := {
  Name : string;
  Alias : string;
  IsIndex : bool
}.
End OpenTofuProviderRef.

Module ProviderRef.
Section WithValue.
Context {Value : Type}.

Definition invalidAddress (detail : string) (subject : Hcl.Range)
  : Hcl.Diagnostic := {|
  Hcl.DiagSeverity := Hcl.DiagError;
  Hcl.Summary := "Invalid provider configuration address";
  Hcl.Detail := detail;
  Hcl.Subject := Some subject
|}.

Definition onlyIndexAllowed : string :=
  "After provider.alias, only index operations are allowed for OpenTofu syntax.".

Definition aliasExpected : string :=
  "The provider type name must either stand alone or be followed by an alias name separated with a dot.".

Definition isIndexStep (step : Hcl.Traverser Value) : bool :=
  match step with Hcl.TraverseIndex _ _ => true | _ => false end.

Definition isAttrStep (step : Hcl.Traverser Value) : bool :=
  match step with Hcl.TraverseAttr _ _ => true | _ => false end.

Definition withIndex (ret : OpenTofuProviderRef.t) : OpenTofuProviderRef.t := {|
  OpenTofuProviderRef.Name := OpenTofuProviderRef.Name ret;
  OpenTofuProviderRef.Alias := OpenTofuProviderRef.Alias ret;
  OpenTofuProviderRef.IsIndex := true
|}.

(** The loop [for i := 2; i < len(traversal); i++] over the steps from the
    third on. *)
Fixpoint remainingSteps (steps : list (Hcl.Traverser Value))
         (ret : OpenTofuProviderRef.t) (diags : list Hcl.Diagnostic)
  : OpenTofuProviderRef.t * list Hcl.Diagnostic :=
  match steps with
  | [] => (ret, diags)
  | Hcl.TraverseIndex _ _ :: rest => remainingSteps rest (withIndex ret) diags
  | step :: rest =>
      remainingSteps rest ret
        (diags ++ [invalidAddress onlyIndexAllowed (Hcl.SourceRange step)])
  end.

(** [parseOpenTofuProviderRef(traversal)]; [None] is the panic of
    [RootName]. *)
Definition parseOpenTofuProviderRef (traversal : list (Hcl.Traverser Value))
  : option (OpenTofuProviderRef.t * list Hcl.Diagnostic) :=
  match Hcl.RootName traversal with
  | None => None
  | Some name =>
      let ret := {| OpenTofuProviderRef.Name := name;
                    OpenTofuProviderRef.Alias := "";
                    OpenTofuProviderRef.IsIndex := false |} in
      match traversal with
      | _ :: aliasStep :: rest =>
          match aliasStep with
          | Hcl.TraverseAttr alias _ =>
              let ret := {| OpenTofuProviderRef.Name := name;
                            OpenTofuProviderRef.Alias := alias;
                            OpenTofuProviderRef.IsIndex := false |} in
              match rest with
              | [] => Some (ret, [])
              | Hcl.TraverseIndex _ _ :: _ => Some (withIndex ret, [])
              | indexStep :: _ =>
                  Some (ret, [invalidAddress onlyIndexAllowed
                                             (Hcl.SourceRange indexStep)])
              end
          | _ =>
              Some (remainingSteps rest ret
                      [invalidAddress aliasExpected
                                      (Hcl.SourceRange aliasStep)])
          end
      | _ => Some (ret, [])
      end
  end.

End WithValue.
End ProviderRef.

(** ** The syntax check of provider expressions

    [regexp.MatchString] on a pattern anchored at both ends is a match of
    the whole text.  Patterns are terms, matched by derivatives. *)
Module Regexp.

Inductive re : Type :=
| Never
| Eps
| Class (p : ascii -> bool)
| Cat (r1 r2 : re)
| Alt (r1 r2 : re)
| Star (r : re).

(** [r+] *)
Definition Plus (r : re) : re := Cat r (Star r).

Definition Lit (c : ascii) : re := Class (Ascii.eqb c).

Fixpoint nullable (r : re) : bool :=
  match r with
  | Never => false
  | Eps => true
  | Class _ => false
  | Cat r1 r2 => nullable r1 && nullable r2
  | Alt r1 r2 => nullable r1 || nullable r2
  | Star _ => true
  end.

Fixpoint deriv (c : ascii) (r : re) : re :=
  match r with
  | Never => Never
  | Eps => Never
  | Class p => if p c then Eps else Never
  | Cat r1 r2 =>
      if nullable r1
      then Alt (Cat (deriv c r1) r2) (deriv c r2)
      else Cat (deriv c r1) r2
  | Alt r1 r2 => Alt (deriv c r1) (deriv c r2)
  | Star r1 => Cat (deriv c r1) (Star r1)
  end.

Fixpoint matches (r : re) (s : string) : bool :=
  match s with
  | EmptyString => nullable r
  | String c s' => matches (deriv c r) s'
  end.

(** The texts a pattern denotes. *)
Inductive denotes : re -> string -> Prop :=
| denotes_eps : denotes Eps ""
| denotes_class p c : p c = true -> denotes (Class p) (String c "")
| denotes_cat r1 r2 s1 s2 :
    denotes r1 s1 -> denotes r2 s2 -> denotes (Cat r1 r2) (s1 +:+ s2)
| denotes_alt_l r1 r2 s : denotes r1 s -> denotes (Alt r1 r2) s
| denotes_alt_r r1 r2 s : denotes r2 s -> denotes (Alt r1 r2) s
| denotes_star_nil r : denotes (Star r) ""
| denotes_star_more r s1 s2 :
    denotes r s1 -> denotes (Star r) s2 -> denotes (Star r) (s1 +:+ s2).

Definition inRange (lo hi c : ascii) : bool :=
  (nat_of_ascii lo <=? nat_of_ascii c)%nat
  && (nat_of_ascii c <=? nat_of_ascii hi)%nat.

(** [[a-zA-Z0-9_-]] *)
Definition nameByte (c : ascii) : bool :=
  inRange "a" "z" c || inRange "A" "Z" c || inRange "0" "9" c
  || Ascii.eqb c "_" || Ascii.eqb c "-".

(** [.]: any byte but the line feed. *)
Definition notNewline (c : ascii) : bool :=
  negb (Ascii.eqb c (ascii_of_nat 10)).

Fixpoint allBytes (p : ascii -> bool) (s : string) : bool :=
  match s with
  | EmptyString => true
  | String c s' => p c && allBytes p s'
  end.

(** [^[a-zA-Z0-9_-]+\.[a-zA-Z0-9_-]+\[.*\]$] *)
Definition openTofuPattern : re :=
  Cat (Plus (Class nameByte))
      (Cat (Lit ".")
           (Cat (Plus (Class nameByte))
                (Cat (Lit "[")
                     (Cat (Star (Class notNewline)) (Lit "]"))))).

Definition isOpenTofuProviderSyntax (providerExpr : string) : bool :=
  matches openTofuPattern providerExpr.

End Regexp.

(** ** Stack definition files: reading and conversion *)

Module StackFile.
Section WithPackages.
Context {hp : HclPackages}.
(** [yaml.Unmarshal] into a stack definition file. *)
Variable yaml_Unmarshal : string -> result StackDefinitionFile.t.

(** [ParseStackDefinitionFile(path)], with the line it logs on success. *)
Definition ParseStackDefinitionFile (path : string)
  : logged (result StackDefinitionFile.t) :=
  if os_notExist path then
    (Err ("stack definition file not found: " +:+ path), [])
  else
    match os_ReadFile path with
    | Err err =>
        (Err ("failed to read stack definition file: " +:+ err), [])
    | Ok data =>
        match yaml_Unmarshal data with
        | Err err =>
            (Err ("failed to parse stack definition file: " +:+ err), [])
        | Ok stackDef =>
            match StackDefinition.ValidateStackDefinition stackDef with
            | Some err => (Err ("invalid stack definition: " +:+ err), [])
            | None =>
                (Ok stackDef,
                 ["Loaded " +:+
                  formatInt (Z.of_nat
                               (length (StackDefinitionFile.Stacks stackDef)))
                  +:+ " stack definition(s) from " +:+ path])
            end
        end
    end.

End WithPackages.

Definition convertExternal (extStack : ExternalStackConfig.t) : Stack.t :=
  let atlantis := ExternalStackConfig.Atlantis extStack in {|
    Stack.Name := ExternalStackConfig.Name extStack;
    Stack.Description := ExternalStackConfig.Description extStack;
    Stack.Modules := ExternalStackConfig.Modules extStack;
    Stack.Dependencies := ExternalStackConfig.DependsOn extStack;
    Stack.AtlantisConfig := {|
      StackAtlantisConfig.Workflow := AtlantisStackConfig.Workflow atlantis;
      StackAtlantisConfig.AutoPlan := AtlantisStackConfig.AutoPlan atlantis;
      StackAtlantisConfig.Parallel := AtlantisStackConfig.Parallel atlantis;
      StackAtlantisConfig.ApplyRequirements :=
        AtlantisStackConfig.ApplyRequirements atlantis;
      StackAtlantisConfig.Workspace := AtlantisStackConfig.Workspace atlantis;
      StackAtlantisConfig.TerraformVersion :=
        AtlantisStackConfig.TerraformVersion atlantis
    |};
    Stack.ExecutionOrder := AtlantisStackConfig.ExecutionOrderGroup atlantis;
    Stack.Source := "external-file"
  |}.

Fixpoint ConvertExternalStacksToStacks
         (externalStacks : list ExternalStackConfig.t) (gitRoot : string)
  : list Stack.t :=
  match externalStacks with
  | [] => []
  | extStack :: rest =>
      convertExternal extStack :: ConvertExternalStacksToStacks rest gitRoot
  end.

Section WithHelpers.
Variable uniqueStrings : list string -> list string.

(** The loop of [FindStackDependencies], from the map built so far. *)
Fixpoint recordDependencies (stacks : list Stack.t)
         (stackDeps : gmap string (list string)) : gmap string (list string) :=
  match stacks with
  | [] => stackDeps
  | stack :: rest =>
      let deps := [] ++ Stack.Dependencies stack in
      recordDependencies rest
        (<[Stack.Name stack := uniqueStrings deps]> stackDeps)
  end.

Definition FindStackDependencies (stacks : list Stack.t)
           (projectMap : gmap string (list string))
  : gmap string (list string) :=
  recordDependencies stacks ∅.

End WithHelpers.
End StackFile.

(** ** The stack manager

    Its methods change the manager they are called on: each returns the
    manager after the call beside its result. *)
Module Manager.

Definition NewStackManager (config : StackManagerConfig.t) : StackManager.t := {|
  StackManager.config := config;
  StackManager.stacks := [];
  StackManager.moduleToStacks := ∅;
  StackManager.stackToModules := ∅
|}.

(** Three stubs of the source. *)
Definition loadStackDefinitionFile (sm : StackManager.t)
  : result (list Stack.t) := Ok [].

Definition inferStacksFromDirectory (sm : StackManager.t)
  : result (list Stack.t) := Ok [].

Definition moduleMatchesStack (sm : StackManager.t) (module : string)
           (stack : Stack.t) : bool := false.

Definition withStacks (sm : StackManager.t) (stacks : list Stack.t)
  : StackManager.t := {|
  StackManager.config := StackManager.config sm;
  StackManager.stacks := stacks;
  StackManager.moduleToStacks := StackManager.moduleToStacks sm;
  StackManager.stackToModules := StackManager.stackToModules sm
|}.

Definition DiscoverStacks (sm : StackManager.t)
  : result (list Stack.t) * StackManager.t :=
  let config := StackManager.config sm in
  let fromFile :=
    if negb (String.eqb (StackManagerConfig.DefinitionFile config) "") then
      match loadStackDefinitionFile sm with
      | Err err => Err err
      | Ok stacks => Ok ([] ++ stacks)
      end
    else Ok [] in
  match fromFile with
  | Err err => (Err err, sm)
  | Ok discoveredStacks =>
      let inferred :=
        if StackManagerConfig.InferFromDir config then
          match inferStacksFromDirectory sm with
          | Err err => Err err
          | Ok stacks => Ok (discoveredStacks ++ stacks)
          end
        else Ok discoveredStacks in
      match inferred with
      | Err err => (Err err, sm)
      | Ok discoveredStacks =>
          (Ok discoveredStacks, withStacks sm discoveredStacks)
      end
  end.

(** The two maps the assignment loops update. *)
Definition assignment : Type :=
  (gmap string (list string) * gmap string (list string))%type.

Definition appendTo (m : gmap string (list string)) (key value : string)
  : gmap string (list string) :=
  <[key := default [] (m !! key) ++ [value]]> m.

Fixpoint assignModules (sm : StackManager.t) (stack : Stack.t)
         (modules : list string) (st : assignment) : assignment :=
  match modules with
  | [] => st
  | module :: rest =>
      let '(assignments, moduleToStacks) := st in
      if moduleMatchesStack sm module stack then
        assignModules sm stack rest
          (appendTo assignments (Stack.Name stack) module,
           appendTo moduleToStacks module (Stack.Name stack))
      else assignModules sm stack rest st
  end.

Fixpoint assignStacks (sm : StackManager.t) (stacks : list Stack.t)
         (modules : list string) (st : assignment) : assignment :=
  match stacks with
  | [] => st
  | stack :: rest =>
      assignStacks sm rest modules (assignModules sm stack modules st)
  end.

Definition AssignModulesToStacks (sm : StackManager.t) (modules : list string)
  : result (gmap string (list string)) * StackManager.t :=
  let '(assignments, moduleToStacks) :=
    assignStacks sm (StackManager.stacks sm) modules
                 (∅, StackManager.moduleToStacks sm) in
  (Ok assignments,
   {| StackManager.config := StackManager.config sm;
      StackManager.stacks := StackManager.stacks sm;
      StackManager.moduleToStacks := moduleToStacks;
      StackManager.stackToModules := assignments |}).

Definition GetStackForModule (sm : StackManager.t) (module : string)
  : list string := default [] (StackManager.moduleToStacks sm !! module).

(** A stub of the source: no error. *)
Definition ValidateStackCoverage (sm : StackManager.t)
           (allModules : list string) : option string := None.

End Manager.

(** ** The search for stack marker files *)

(** One call of the function given to [filepath.Walk]: the path, the name
    and kind of the entry, and the error of reading it, if any. *)
Module WalkVisit.
Record t := {
  path : string;
  Name : string;
  IsDir : bool;
  err : option string
}.
End WalkVisit.

Module StackSearch.

(** [filepath.Walk] over the entries it finds, in its order: it stops at
    the first error the function returns.  (The function below never asks to
    skip a directory.) *)
Fixpoint Walk {S : Type} (visits : list WalkVisit.t)
         (fn : WalkVisit.t -> S -> option string * S) (st : S)
  : option string * S :=
  match visits with
  | [] => (None, st)
  | visit :: rest =>
      match fn visit st with
      | (Some e, st') => (Some e, st')
      | (None, st') => Walk rest fn st'
      end
  end.

(** The function [FindStackHclFiles] hands to the walk; its state is the
    slice [stackFiles]. *)
Definition collectStackFile (visit : WalkVisit.t) (stackFiles : list string)
  : option string * list string :=
  match WalkVisit.err visit with
  | Some e => (Some e, stackFiles)
  | None =>
      if WalkVisit.IsDir visit then (None, stackFiles)
      else if String.eqb (WalkVisit.Name visit) "terragrunt.stack.hcl"
      then (None, stackFiles ++ [WalkVisit.path visit])
      else (None, stackFiles)
  end.

(** The entries the search keeps. *)
Definition isStackFile (visit : WalkVisit.t) : bool :=
  negb (WalkVisit.IsDir visit)
  && String.eqb (WalkVisit.Name visit) "terragrunt.stack.hcl".

Section WithFiles.
(** The entries under a root directory, as the walk visits them. *)
Variable entriesUnder : string -> list WalkVisit.t.

Definition FindStackHclFiles (rootDir : string) : result (list string) :=
  match Walk (entriesUnder rootDir) collectStackFile [] with
  | (Some e, _) => Err ("failed to search for stack HCL files: " +:+ e)
  | (None, stackFiles) => Ok stackFiles
  end.

End WithFiles.
End StackSearch.

(** ** Units of a marker file that name a location *)

Definition hasLocation (unit : UnitBlock.t) : bool :=
  match UnitBlock.Path unit, UnitBlock.Source unit with
  | None, None => false
  | _, _ => true
  end.

(** ** The graph of local references *)

Module SourceGraph.
Section WithTerraform.
Context {tf : Terraform}.

(** [reaches p q]: the resolver started on [p] calls itself on [q], directly
    or through other modules. *)
Inductive reaches : string -> string -> Prop :=
| reaches_direct p q : q ∈ LocalSource.localReferences p -> reaches p q
| reaches_through p q r :
    q ∈ LocalSource.localReferences p -> reaches q r -> reaches p r.

End WithTerraform.
End SourceGraph.

(** ** More environments for the examples *)

Module ProviderFixture.

Definition col (column : Z) : Hcl.Range := {|
  Hcl.Filename := "main.tf";
  Hcl.Start := {| Hcl.Line := 3; Hcl.Column := column; Hcl.Byte := column |};
  Hcl.End_ := {| Hcl.Line := 3; Hcl.Column := column + 1;
                 Hcl.Byte := column + 1 |}
|}.

(** [awsutils.by_region[each.key].extra] *)
Definition indexed : list (Hcl.Traverser string) :=
  [Hcl.TraverseRoot "awsutils" (col 1); Hcl.TraverseAttr "by_region" (col 10);
   Hcl.TraverseIndex "each.key" (col 19); Hcl.TraverseAttr "extra" (col 29)].

(** [aws[0].alias[1]] *)
Definition indexFirst : list (Hcl.Traverser string) :=
  [Hcl.TraverseRoot "aws" (col 1); Hcl.TraverseIndex "0" (col 4);
   Hcl.TraverseAttr "alias" (col 7); Hcl.TraverseIndex "1" (col 13)].

End ProviderFixture.

Module DefinitionFixture.

Definition definitionPath : string := "/repo/atlantis-stacks.yaml".

Definition text : string :=
  "{version: 1, stacks: [{name: test-stack, modules: [app-a, app-b]}]}".

Definition definition : StackDefinitionFile.t :=
  Fixtures.definitionOf 1 [Fixtures.stackOf "test-stack" [] []
                                            ["app-a"; "app-b"]].

(** A file system that holds the definition file only. *)
Definition packages : HclPackages := {|
  HclFile := string;
  EvalContext := unit;
  ParsingContext := unit;
  os_notExist := fun path => negb (String.eqb path definitionPath);
  os_ReadFile := fun path =>
    if String.eqb path definitionPath then Ok text
    else Err "no such file or directory";
  ParseJSON := fun hcl _ => Ok hcl;
  ParseHCL := fun hcl _ => Ok hcl;
  createTerragruntEvalContext := fun _ _ => Ok tt;
  DecodeBody := fun _ _ => Err "not a stack marker file"
|}.

Definition unmarshal (data : string) : result StackDefinitionFile.t :=
  if String.eqb data text then Ok definition
  else Err "yaml: unsupported document".

Definition unique (l : list string) : list string := remove_dups l.

End DefinitionFixture.

Module SearchFixture.

Definition entry (path name : string) (isDir : bool) : WalkVisit.t := {|
  WalkVisit.path := path; WalkVisit.Name := name;
  WalkVisit.IsDir := isDir; WalkVisit.err := None
|}.

Definition unreadable (path : string) : WalkVisit.t := {|
  WalkVisit.path := path; WalkVisit.Name := ""; WalkVisit.IsDir := false;
  WalkVisit.err := Some ("open " +:+ path +:+ ": permission denied")
|}.

(** Two environments with a marker file each, and a directory that bears
    the marker's name. *)
Definition readable (rootDir : string) : list WalkVisit.t :=
  [entry rootDir "repo" true;
   entry (rootDir +:+ "/env") "env" true;
   entry (rootDir +:+ "/env/prod") "prod" true;
   entry (rootDir +:+ "/env/prod/terragrunt.stack.hcl")
         "terragrunt.stack.hcl" false;
   entry (rootDir +:+ "/env/prod/main.tf") "main.tf" false;
   entry (rootDir +:+ "/env/staging") "staging" true;
   entry (rootDir +:+ "/env/staging/terragrunt.stack.hcl")
         "terragrunt.stack.hcl" false;
   entry (rootDir +:+ "/terragrunt.stack.hcl") "terragrunt.stack.hcl" true].

Definition locked (rootDir : string) : list WalkVisit.t :=
  [entry rootDir "repo" true;
   entry (rootDir +:+ "/terragrunt.stack.hcl") "terragrunt.stack.hcl" false;
   unreadable (rootDir +:+ "/secret");
   entry (rootDir +:+ "/z/terragrunt.stack.hcl") "terragrunt.stack.hcl" false].

End SearchFixture.

Module UnitsFixture.

(** A definition with a unit located by path, one by source and one
    without location. *)
Definition threeUnits : StackHclDefinition.t := {|
  StackHclDefinition.FilePath := MarkerFixture.markerPath;
  StackHclDefinition.Units :=
    [{| UnitBlock.Name := "vpc"; UnitBlock.Source := None;
        UnitBlock.Path := Some "vpc" |};
     {| UnitBlock.Name := "dns"; UnitBlock.Source := Some "/repo/shared/dns";
        UnitBlock.Path := None |};
     {| UnitBlock.Name := "ghost"; UnitBlock.Source := None;
        UnitBlock.Path := None |}];
  StackHclDefinition.StackBlock := None
|}.

End UnitsFixture.

Module FailingFixture.

(** A module that calls, by a local source, a module with a syntax
    error. *)
Definition failing : Terraform := {|
  LoadModule := fun path =>
    if String.eqb path "/repo/caller" then
      SourceFixture.moduleAt path [SourceFixture.call "lib" "../broken"]
    else if String.eqb path "/repo/broken" then
      SourceFixture.failed path "Argument or block definition required"
    else SourceFixture.moduleAt path [];
  DiagnosticsError := SourceFixture.render;
  JoinPath := UnixPath.Join
|}.

(** A module that uses the indexed provider reference and calls a local
    module: the inspector reports the error beside the module call. *)
Definition fallback : Terraform := {|
  LoadModule := fun path =>
    if String.eqb path "/repo/opentofu" then
      ({| TfModule.Path := path;
          TfModule.ModuleCalls :=
            [SourceFixture.call "vpc" "../modules/vpc"] |},
       [{| Diagnostic.Severity := DiagError;
           Diagnostic.Summary := "Invalid provider reference";
           Diagnostic.Detail := "" |}])
    else SourceFixture.moduleAt path [];
  DiagnosticsError := SourceFixture.render;
  JoinPath := UnixPath.Join
|}.

End FailingFixture.

(** * Properties *)

(** ** Byte strings *)

Section StringFacts.

Lemma str_app_cons (c : ascii) (a b : string) :
  String c a +:+ b = String c (a +:+ b).
Proof. reflexivity. Qed.

Lemma str_length_app (a b : string) :
  String.length (a +:+ b) = (String.length a + String.length b)%nat.
Proof.
  induction a as [|c a IH]; [reflexivity|].
  rewrite str_app_cons. simpl. now rewrite IH.
Qed.

Lemma str_take_drop (n : nat) (s : string) : take n s +:+ drop n s = s.
Proof.
  revert s; induction n as [|n IH]; intros [|c s]; try reflexivity.
  simpl. now rewrite str_app_cons, IH.
Qed.

Lemma str_take_app (a b : string) : take (String.length a) (a +:+ b) = a.
Proof.
  induction a as [|c a IH]; [now destruct b|].
  rewrite str_app_cons. simpl. now rewrite IH.
Qed.

Lemma str_drop_app (a b : string) : drop (String.length a) (a +:+ b) = b.
Proof. induction a as [|c a IH]; [reflexivity | exact IH]. Qed.

Lemma str_length_take (n : nat) (s : string) :
  (n <= String.length s)%nat -> String.length (take n s) = n.
Proof.
  revert s; induction n as [|n IH]; intros [|c s] Hn; simpl in *;
    try reflexivity; try lia.
  rewrite IH; [reflexivity | lia].
Qed.

Lemma str_app_nil_r (s : string) : s +:+ "" = s.
Proof.
  induction s as [|c s IH]; [reflexivity | now rewrite str_app_cons, IH].
Qed.

Lemma str_app_assoc (a b c : string) : (a +:+ b) +:+ c = a +:+ (b +:+ c).
Proof.
  induction a as [|x a IH]; [reflexivity | now rewrite !str_app_cons, IH].
Qed.

(** [HasPrefix s pre] holds exactly when [s] starts with [pre]. *)
Lemma HasPrefix_spec (s pre : string) :
  HasPrefix s pre = true <-> exists t, s = pre +:+ t.
Proof.
  unfold HasPrefix. rewrite andb_true_iff, Nat.leb_le, String.eqb_eq. split.
  - intros [_ Heq]. exists (drop (String.length pre) s).
    pose proof (str_take_drop (String.length pre) s) as Htd.
    rewrite Heq in Htd. now symmetry.
  - intros [t ->]. rewrite str_length_app, str_take_app. split; [lia | reflexivity].
Qed.

(** [HasSuffix s suf] holds exactly when [s] ends with [suf]. *)
Lemma HasSuffix_spec (s suf : string) :
  HasSuffix s suf = true <-> exists t, s = t +:+ suf.
Proof.
  unfold HasSuffix. rewrite andb_true_iff, Nat.leb_le, String.eqb_eq. split.
  - intros [_ Heq].
    exists (take (String.length s - String.length suf) s).
    pose proof (str_take_drop (String.length s - String.length suf) s) as Htd.
    rewrite Heq in Htd. now symmetry.
  - intros [t ->]. rewrite str_length_app.
    replace (String.length t + String.length suf - String.length suf)%nat
      with (String.length t) by lia.
    rewrite str_drop_app. split; [lia | reflexivity].
Qed.

Lemma HasSuffix_refl (s : string) : HasSuffix s s = true.
Proof. apply HasSuffix_spec. now exists "". Qed.

(** [Index] returns the offset of an occurrence, and no occurrence starts
    before it. *)
Lemma Index_Some (s sub : string) (i : nat) :
  Index s sub = Some i ->
  s = take i s +:+ sub +:+ drop (i + String.length sub) s
  /\ forall j, (j < i)%nat -> HasPrefix (drop j s) sub = false.
Proof.
  revert i; induction s as [|c s IH]; intros i; simpl.
  - destruct (HasPrefix "" sub) eqn:Hp; [|discriminate].
    intros [= <-]. split; [|intros j Hj; lia].
    apply HasPrefix_spec in Hp as [t Ht]. simpl take. simpl "+"%nat.
    change ("" +:+ sub +:+ drop (String.length sub) "")
      with (sub +:+ drop (String.length sub) "").
    pose proof (str_drop_app sub t) as Hd. rewrite <- Ht in Hd.
    now rewrite Hd.
  - destruct (HasPrefix (String c s) sub) eqn:Hp.
    + intros [= <-]. split; [|intros j Hj; lia].
      apply HasPrefix_spec in Hp as [t Ht]. simpl take. simpl "+"%nat.
      change ("" +:+ sub +:+ drop (String.length sub) (String c s))
        with (sub +:+ drop (String.length sub) (String c s)).
      pose proof (str_drop_app sub t) as Hd. rewrite <- Ht in Hd.
      now rewrite Hd.
    + destruct (Index s sub) as [k|] eqn:Hk; [|discriminate].
      intros [= <-]. destruct (IH k eq_refl) as [Heq Hbefore]. split.
      * simpl. rewrite str_app_cons. now rewrite <- Heq.
      * intros [|j] Hj; simpl; [exact Hp | apply Hbefore; lia].
Qed.

Lemma Index_None (s sub : string) :
  Index s sub = None -> forall j, HasPrefix (drop j s) sub = false.
Proof.
  induction s as [|c s IH]; simpl.
  - destruct (HasPrefix "" sub) eqn:Hp; [discriminate|].
    intros _ [|j]; exact Hp.
  - destruct (HasPrefix (String c s) sub) eqn:Hp; [discriminate|].
    destruct (Index s sub) eqn:Hk; [discriminate|].
    intros _ [|j]; simpl; [exact Hp | now apply IH].
Qed.

(** [Contains s sub] holds exactly when [sub] occurs in [s]. *)
Lemma Contains_spec (s sub : string) :
  Contains s sub = true <-> exists a b, s = a +:+ sub +:+ b.
Proof.
  unfold Contains. split.
  - destruct (Index s sub) as [i|] eqn:Hi; [|discriminate].
    intros _. apply Index_Some in Hi as [Heq _]. eauto.
  - intros (a & b & ->). destruct (Index _ sub) eqn:Hi; [reflexivity|].
    pose proof (Index_None _ _ Hi (String.length a)) as Hn.
    rewrite str_drop_app in Hn.
    assert (HasPrefix (sub +:+ b) sub = true) as Hy
        by (apply HasPrefix_spec; eauto).
    congruence.
Qed.

End StringFacts.

(** ** Glob patterns with the recursive token *)

Section GlobFacts.
Context {fp : Filepath}.
Import StackMatch.

Lemma genSplit_nonempty (fuel : nat) (s sep : string) :
  genSplit fuel s sep <> [].
Proof.
  destruct fuel; cbn [genSplit]; [discriminate|].
  destruct (Index s sep); discriminate.
Qed.

Lemma Index_Some_length (s sub : string) (i : nat) :
  Index s sub = Some i -> (i + String.length sub <= String.length s)%nat.
Proof.
  revert i; induction s as [|c s IH]; intros i; cbn [Index].
  - destruct (HasPrefix "" sub) eqn:Hp; [|discriminate].
    intros [= <-]. unfold HasPrefix in Hp.
    apply andb_true_iff in Hp as [Hl _]. apply Nat.leb_le in Hl. lia.
  - destruct (HasPrefix (String c s) sub) eqn:Hp.
    + intros [= <-]. unfold HasPrefix in Hp.
      apply andb_true_iff in Hp as [Hl _]. apply Nat.leb_le in Hl. lia.
    + destruct (Index s sub) as [k|]; [|discriminate].
      intros [= <-]. specialize (IH k eq_refl). simpl. lia.
Qed.

(** A pattern with exactly one occurrence of the token is cut in two. *)
Lemma Split_one_token (pattern : string) (i : nat) :
  Index pattern "**" = Some i ->
  Contains (drop (i + 2) pattern) "**" = false ->
  Split pattern "**" = [take i pattern; drop (i + 2) pattern].
Proof.
  intros Hi Hc. unfold Split. cbn [genSplit]. rewrite Hi.
  change (String.length "**") with 2%nat. f_equal.
  destruct (String.length pattern); cbn [genSplit]; [reflexivity|].
  unfold Contains in Hc.
  destruct (Index (drop (i + 2) pattern) "**"); [discriminate | reflexivity].
Qed.

(** A pattern with a second occurrence is cut in three parts or more. *)
Lemma Split_more_tokens (pattern : string) (i : nat) :
  Index pattern "**" = Some i ->
  Contains (drop (i + 2) pattern) "**" = true ->
  exists p0 p1 p2 rest, Split pattern "**" = p0 :: p1 :: p2 :: rest.
Proof.
  intros Hi Hc. unfold Split. cbn [genSplit]. rewrite Hi.
  change (String.length "**") with 2%nat.
  pose proof (Index_Some_length _ _ _ Hi) as Hl.
  change (String.length "**") with 2%nat in Hl.
  destruct (String.length pattern) as [|n]; [lia|]. cbn [genSplit].
  unfold Contains in Hc.
  destruct (Index (drop (i + 2) pattern) "**") as [j|]; [|discriminate].
  destruct (genSplit n _ "**") as [|p2 rest] eqn:Hg.
  - now apply genSplit_nonempty in Hg.
  - eauto.
Qed.

(** C2 (as amended): for a pattern with exactly one occurrence of the
    recursive token, [matchGlobPattern] cuts the pattern at that occurrence
    and answers by the prefix and suffix tests of the rule, without
    logging; a pattern in which the token occurs again after the first
    occurrence is handed to [filepath.Match] instead.  The two examples of
    the specification hold. *)
Theorem matchGlobPattern_recursive_token :
  (forall path pattern i,
      Index pattern "**" = Some i ->
      Contains (drop (i + 2) pattern) "**" = false ->
      matchGlobPattern path pattern = (recursiveTokenRule path pattern, []))
  /\ (forall path pattern i,
         Index pattern "**" = Some i ->
         Contains (drop (i + 2) pattern) "**" = true ->
         matchGlobPattern path pattern = viaFilepathMatch path pattern)
  /\ matchGlobPattern "environments/production/networking/vpc"
                      "environments/production/**" = (true, [])
  /\ matchGlobPattern "staging/app/main.tf" "production/**" = (false, []).
Proof.
  split; [|split; [|split]].
  - intros path pattern i Hi Hc. unfold matchGlobPattern, recursiveTokenRule.
    rewrite (Split_one_token _ _ Hi Hc). unfold Contains. rewrite Hi.
    destruct (String.eqb (TrimSuffix (take i pattern) "/") "");
      destruct (HasPrefix path (TrimSuffix (take i pattern) "/"));
      destruct (String.eqb (TrimPrefix (drop (i + 2) pattern) "/") "");
      destruct (HasSuffix path (TrimPrefix (drop (i + 2) pattern) "/"));
      reflexivity.
  - intros path pattern i Hi Hc. unfold matchGlobPattern, viaFilepathMatch.
    destruct (Split_more_tokens _ _ Hi Hc) as (p0 & p1 & p2 & rest & ->).
    unfold Contains. now rewrite Hi.
  - reflexivity.
  - reflexivity.
Qed.

(** The rule read on the pattern's two parts: "starts with" and "ends
    with" are plain string tests. *)
Lemma recursiveTokenRule_spec (path pre suf : string) :
  Index (pre +:+ "**" +:+ suf) "**" = Some (String.length pre) ->
  recursiveTokenRule path (pre +:+ "**" +:+ suf) = true
  <-> (TrimSuffix pre "/" = "" \/ exists t, path = TrimSuffix pre "/" +:+ t)
      /\ (TrimPrefix suf "/" = "" \/ exists t, path = t +:+ TrimPrefix suf "/").
Proof.
  intros Hi. unfold recursiveTokenRule. rewrite Hi.
  rewrite str_take_app.
  replace (drop (String.length pre + 2) (pre +:+ "**" +:+ suf)) with suf.
  2:{ change 2%nat with (String.length "**").
      rewrite <- str_length_app, <- str_app_assoc. now rewrite str_drop_app. }
  cbv zeta.
  rewrite andb_true_iff, !orb_true_iff, !String.eqb_eq,
    HasPrefix_spec, HasSuffix_spec.
  reflexivity.
Qed.

End GlobFacts.

(** C2 at an instance: a pattern with one token, on the slash platform. *)
Lemma matchGlobPattern_recursive_token_witness :
  Index "environments/**/vpc" "**" = Some 13%nat
  /\ Contains (drop (13 + 2) "environments/**/vpc") "**" = false
  /\ StackMatch.matchGlobPattern (fp := unixFilepath)
       "environments/production/region/us-east-1/vpc" "environments/**/vpc"
     = (StackMatch.recursiveTokenRule
          "environments/production/region/us-east-1/vpc" "environments/**/vpc",
        []).
Proof.
  split; [reflexivity|]. split; [reflexivity|].
  apply (proj1 (matchGlobPattern_recursive_token (fp := unixFilepath))
            _ _ 13%nat); reflexivity.
Defined.

(** C2 (as stated) fails on a pattern with two tokens: the code answers by
    [filepath.Match], which accepts the path, while the path does not end
    with the suffix that follows the first token. *)
Lemma matchGlobPattern_two_tokens_counterexample :
  Contains "environments/**/vpc/**" "**" = true
  /\ ~ (fst (StackMatch.matchGlobPattern (fp := unixFilepath)
              "environments/prod/vpc/subnets" "environments/**/vpc/**") = true
        <-> StackMatch.recursiveTokenRule
              "environments/prod/vpc/subnets" "environments/**/vpc/**" = true).
Proof.
  split; [reflexivity|]. intros [Hcode _].
  specialize (Hcode eq_refl). discriminate Hcode.
Qed.

(** ** Validation of stack definition files *)

Section ValidationFacts.
Import StackDefinition.

Lemma seen_insert (m : gmap string bool) (name n : string) :
  seen (<[name := true]> m) n = if decide (name = n) then true else seen m n.
Proof.
  unfold seen. rewrite lookup_insert. now destruct (decide (name = n)).
Qed.

Lemma existsb_empty_pattern (patterns : list string) :
  existsb (fun pattern => String.eqb pattern "") patterns = true
  <-> "" ∈ patterns.
Proof.
  rewrite existsb_exists. split.
  - intros (x & Hin & Heq). apply String.eqb_eq in Heq as ->.
    now apply list_elem_of_In.
  - intros Hin. exists "". split; [now apply list_elem_of_In | reflexivity].
Qed.

Lemma length_zero_nil {A} (l : list A) : (length l =? 0)%nat = true <-> l = [].
Proof. destruct l; simpl; split; intros; congruence. Qed.

Lemma validateStacks_step (i : nat) (stack : ExternalStackConfig.t)
      (rest : list ExternalStackConfig.t) (m : gmap string bool) :
  wellFormed stack ->
  seen m (ExternalStackConfig.Name stack) = false ->
  validateStacks i (stack :: rest) m
  = validateStacks (S i) rest (<[ExternalStackConfig.Name stack := true]> m).
Proof.
  intros (Hname & Hspec & Hpat) Hseen. cbn [validateStacks].
  destruct (String.eqb_spec (ExternalStackConfig.Name stack) "") as [|_];
    [contradiction|].
  rewrite Hseen.
  destruct ((length (ExternalStackConfig.Include stack) =? 0)%nat
            && (length (ExternalStackConfig.Modules stack) =? 0)%nat) eqn:Hb.
  { apply andb_true_iff in Hb as [H1 H2].
    apply length_zero_nil in H1, H2. tauto. }
  destruct (existsb _ (ExternalStackConfig.Include stack)) eqn:He;
    [|reflexivity].
  apply existsb_empty_pattern in He. contradiction.
Qed.

(** The loop accepts exactly the lists of well-formed stacks whose names
    are distinct and not recorded yet. *)
Lemma validateStacks_None (stacks : list ExternalStackConfig.t) :
  forall i m,
    validateStacks i stacks m = None
    <-> Forall wellFormed stacks
        /\ NoDup (names stacks)
        /\ Forall (fun n => seen m n = false) (names stacks).
Proof.
  induction stacks as [|stack rest IH]; intros i m.
  - cbn. split; [intros _; repeat constructor | reflexivity].
  - split.
    + intros Hv. cbn [validateStacks] in Hv.
      destruct (String.eqb_spec (ExternalStackConfig.Name stack) "")
        as [|Hname]; [discriminate|].
      destruct (seen m (ExternalStackConfig.Name stack)) eqn:Hseen;
        [discriminate|].
      destruct ((length (ExternalStackConfig.Include stack) =? 0)%nat
                && (length (ExternalStackConfig.Modules stack) =? 0)%nat)
        eqn:Hb; [discriminate|].
      destruct (existsb _ (ExternalStackConfig.Include stack)) eqn:He;
        [discriminate|].
      apply IH in Hv as (Hwf & Hnd & Hunseen).
      assert (ExternalStackConfig.Name stack ∉ names rest) as Hfresh.
      { intros Hin. rewrite Forall_forall in Hunseen.
        specialize (Hunseen _ Hin). rewrite seen_insert in Hunseen.
        now destruct (decide _). }
      split; [|split].
      * constructor; [|exact Hwf]. split; [exact Hname|]. split.
        -- intros [H1 H2]. rewrite H1, H2 in Hb. discriminate.
        -- intros Hin. apply existsb_empty_pattern in Hin. congruence.
      * cbn. apply NoDup_cons. split; assumption.
      * cbn. constructor; [exact Hseen|].
        rewrite Forall_forall in Hunseen |- *. intros n Hn.
        specialize (Hunseen n Hn). rewrite seen_insert in Hunseen.
        now destruct (decide _).
    + intros (Hwf & Hnd & Hunseen). cbn in Hnd, Hunseen.
      apply Forall_cons in Hwf as [Hwf Hwfs].
      apply NoDup_cons in Hnd as [Hfresh Hnd].
      apply Forall_cons in Hunseen as [Hseen Hunseen].
      rewrite validateStacks_step by assumption.
      apply IH. split; [assumption|]. split; [assumption|].
      rewrite Forall_forall in Hunseen |- *. intros n Hn.
      rewrite seen_insert. destruct (decide _) as [<-|]; [contradiction|].
      now apply Hunseen.
Qed.

(** A rejected list holds an offending stack. *)
Lemma validateStacks_Some (stacks : list ExternalStackConfig.t) :
  forall i m e,
    validateStacks i stacks m = Some e ->
    Exists (fun s => ExternalStackConfig.Name s = "") stacks
    \/ (~ NoDup (names stacks) \/ Exists (fun n => seen m n = true) (names stacks))
    \/ Exists (fun s => ExternalStackConfig.Include s = []
                        /\ ExternalStackConfig.Modules s = []) stacks
    \/ Exists (fun s => "" ∈ ExternalStackConfig.Include s) stacks.
Proof.
  induction stacks as [|stack rest IH]; intros i m e Hv; [discriminate|].
  cbn [validateStacks] in Hv.
  destruct (String.eqb_spec (ExternalStackConfig.Name stack) "")
    as [Hname|Hname]; [left; now constructor|].
  destruct (seen m (ExternalStackConfig.Name stack)) eqn:Hseen.
  { right; left; right. now constructor. }
  destruct ((length (ExternalStackConfig.Include stack) =? 0)%nat
            && (length (ExternalStackConfig.Modules stack) =? 0)%nat) eqn:Hb.
  { apply andb_true_iff in Hb as [H1 H2]. apply length_zero_nil in H1, H2.
    right; right; left. now constructor. }
  destruct (existsb _ (ExternalStackConfig.Include stack)) eqn:He.
  { apply existsb_empty_pattern in He. right; right; right. now constructor. }
  apply IH in Hv as [Hv|[[Hv|Hv]|[Hv|Hv]]].
  - left. now apply Exists_cons_tl.
  - right; left; left. cbn. rewrite NoDup_cons. tauto.
  - right; left. cbn.
    apply Exists_exists in Hv as (n & Hin & Hn).
    rewrite seen_insert in Hn. destruct (decide _) as [Heq|Hne].
    + left. rewrite NoDup_cons. subst n. intros [Hfresh _].
      apply Hfresh. now apply list_elem_of_In.
    + right. apply Exists_cons_tl. apply Exists_exists. eauto.
  - right; right; left. now apply Exists_cons_tl.
  - right; right; right. now apply Exists_cons_tl.
Qed.

Lemma seen_recordNames (stacks : list ExternalStackConfig.t) :
  forall m n,
    seen (recordNames m stacks) n = true
    <-> seen m n = true \/ n ∈ names stacks.
Proof.
  induction stacks as [|stack rest IH]; intros m n; cbn.
  - rewrite elem_of_nil. tauto.
  - fold (recordNames (<[ExternalStackConfig.Name stack := true]> m) rest).
    rewrite IH, seen_insert, elem_of_cons.
    destruct (decide _) as [->|Hne]; [tauto|].
    split; [tauto|]. intros [?|[?|?]]; [tauto|congruence|tauto].
Qed.

(** Past an accepted prefix the loop continues with the prefix's names
    recorded. *)
Lemma validateStacks_app (pre rest : list ExternalStackConfig.t) :
  forall i m,
    validateStacks i pre m = None ->
    validateStacks i (pre ++ rest) m
    = validateStacks (i + length pre) rest (recordNames m pre).
Proof.
  induction pre as [|stack pre IH]; intros i m Hv.
  - cbn. now rewrite Nat.add_0_r.
  - pose proof Hv as Hv'.
    apply validateStacks_None in Hv' as (Hwf & _ & Hunseen).
    apply Forall_cons in Hwf as [Hwf _].
    cbn in Hunseen. apply Forall_cons in Hunseen as [Hseen _].
    rewrite validateStacks_step in Hv by assumption.
    rewrite <- app_comm_cons, validateStacks_step by assumption.
    rewrite IH by assumption. cbn. now rewrite Nat.add_succ_r.
Qed.

(** C3 (as amended): [ValidateStackDefinition] returns an error exactly
    when the version is not 1, or there is no stack, or a stack has no name,
    or two stacks share a name, or a stack has neither include patterns nor
    modules, or an include pattern is empty.  A version other than 1, such
    as 2, always gives the "unsupported stack definition version" message.
    Under version 1, a stack with neither include patterns nor
    modules gives the "must specify either" message when the stacks before
    it pass every check and its name is not empty and not among theirs; a
    stack that repeats the name of an earlier stack gives the "duplicate
    stack name" message when the stacks before it pass every check and the
    name is not empty. *)
Theorem ValidateStackDefinition_errors :
  (forall def,
      ValidateStackDefinition def <> None
      <-> (StackDefinitionFile.Version def <> 1%Z
           \/ StackDefinitionFile.Stacks def = []
           \/ Exists (fun s => ExternalStackConfig.Name s = "")
                     (StackDefinitionFile.Stacks def)
           \/ ~ NoDup (names (StackDefinitionFile.Stacks def))
           \/ Exists (fun s => ExternalStackConfig.Include s = []
                               /\ ExternalStackConfig.Modules s = [])
                     (StackDefinitionFile.Stacks def)
           \/ Exists (fun s => "" ∈ ExternalStackConfig.Include s)
                     (StackDefinitionFile.Stacks def)))
  /\ (forall def,
         StackDefinitionFile.Version def <> 1%Z ->
         ValidateStackDefinition def
         = Some ("unsupported stack definition version: " +:+
                 formatInt (StackDefinitionFile.Version def) +:+
                 " (expected 1)"))
  /\ (forall def pre stack post,
         StackDefinitionFile.Version def = 1%Z ->
         StackDefinitionFile.Stacks def = pre ++ stack :: post ->
         validateStacks 0 pre ∅ = None ->
         ExternalStackConfig.Name stack <> "" ->
         ExternalStackConfig.Name stack ∉ names pre ->
         ExternalStackConfig.Include stack = [] ->
         ExternalStackConfig.Modules stack = [] ->
         ValidateStackDefinition def
         = Some ("stack '" +:+ ExternalStackConfig.Name stack +:+
                 "' must specify either 'include' patterns or 'modules' list"))
  /\ (forall def pre stack post,
         StackDefinitionFile.Version def = 1%Z ->
         StackDefinitionFile.Stacks def = pre ++ stack :: post ->
         validateStacks 0 pre ∅ = None ->
         ExternalStackConfig.Name stack <> "" ->
         ExternalStackConfig.Name stack ∈ names pre ->
         ValidateStackDefinition def
         = Some ("duplicate stack name: " +:+ ExternalStackConfig.Name stack)).
Proof.
  split; [|split; [|split]].
  - intros def. unfold ValidateStackDefinition.
    destruct (Z.eqb_spec (StackDefinitionFile.Version def) 1) as [Hv|Hv];
      cbn [negb].
    2:{ split; [tauto | discriminate]. }
    destruct (StackDefinitionFile.Stacks def) as [|stack rest] eqn:Hs.
    { cbn. split; [tauto | discriminate]. }
    cbn [length Nat.eqb]. split.
    + intros Hne.
      destruct (validateStacks 0 (stack :: rest) ∅) as [e|] eqn:He;
        [|congruence].
      apply validateStacks_Some in He as [He|[[He|He]|[He|He]]]; [tauto|tauto| |tauto|tauto].
      apply Exists_exists in He as (n & _ & Hn). discriminate Hn.
    + intros Hcase Hnone.
      apply validateStacks_None in Hnone as (Hwf & Hnd & _).
      rewrite Forall_forall in Hwf.
      destruct Hcase as [?|[?|[He|[?|[He|He]]]]];
        [tauto|discriminate| |tauto| | ];
        apply Exists_exists in He as (s & Hin & Hs');
        destruct (Hwf s Hin) as (? & ? & ?); tauto.
  - intros def Hv. unfold ValidateStackDefinition.
  now destruct (Z.eqb_spec (StackDefinitionFile.Version def) 1).
  - intros def pre stack post Hv Hs Hpre Hname Hfresh Hinc Hmod.
    unfold ValidateStackDefinition. rewrite Hv, Hs. cbn [Z.eqb Pos.eqb negb].
    rewrite length_app. cbn [length].
    replace (length pre + S (length post) =? 0)%nat with false
      by (symmetry; apply Nat.eqb_neq; lia).
    rewrite validateStacks_app by assumption. cbn [validateStacks].
    destruct (String.eqb_spec (ExternalStackConfig.Name stack) "");
      [contradiction|].
    destruct (seen (recordNames ∅ pre) (ExternalStackConfig.Name stack))
      eqn:Hseen.
    { apply seen_recordNames in Hseen as [Hseen|Hin];
        [discriminate | contradiction]. }
    now rewrite Hinc, Hmod.
  - intros def pre stack post Hv Hs Hpre Hname Hdup.
    unfold ValidateStackDefinition. rewrite Hv, Hs. cbn [Z.eqb Pos.eqb negb].
    rewrite length_app. cbn [length].
    replace (length pre + S (length post) =? 0)%nat with false
      by (symmetry; apply Nat.eqb_neq; lia).
    rewrite validateStacks_app by assumption. cbn [validateStacks].
    destruct (String.eqb_spec (ExternalStackConfig.Name stack) "");
      [contradiction|].
    replace (seen (recordNames ∅ pre) (ExternalStackConfig.Name stack))
      with true; [reflexivity|].
    symmetry. apply seen_recordNames. now right.
Qed.

End ValidationFacts.

(** C3 (as amended) on the definitions of the test suite: version 2, a
    stack without include patterns and modules, and a repeated name. *)
Lemma ValidateStackDefinition_errors_witness :
  StackDefinition.ValidateStackDefinition
    (Fixtures.definitionOf 2 [Fixtures.stackOf "test" [] [] ["app-a"]])
  = Some "unsupported stack definition version: 2 (expected 1)"
  /\ StackDefinition.ValidateStackDefinition
       (Fixtures.definitionOf 1 [Fixtures.stackOf "test" [] [] []])
     = Some "stack 'test' must specify either 'include' patterns or 'modules' list"
  /\ StackDefinition.ValidateStackDefinition
       (Fixtures.definitionOf 1 [Fixtures.stackOf "test" [] [] ["app-a"];
                                 Fixtures.stackOf "test" [] [] ["app-b"]])
     = Some "duplicate stack name: test".
Proof.
  split; [|split].
  - apply (proj1 (proj2 ValidateStackDefinition_errors)
             (Fixtures.definitionOf 2 [Fixtures.stackOf "test" [] [] ["app-a"]])).
    discriminate.
  - apply (proj1 (proj2 (proj2 ValidateStackDefinition_errors))
             _ [] (Fixtures.stackOf "test" [] [] []) []);
      try reflexivity; [discriminate | apply not_elem_of_nil].
  - apply (proj2 (proj2 (proj2 ValidateStackDefinition_errors))
             _ [Fixtures.stackOf "test" [] [] ["app-a"]]
             (Fixtures.stackOf "test" [] [] ["app-b"]) []);
      try reflexivity; [discriminate | apply list_elem_of_here].
Defined.

(** C3 (as stated) fails where an earlier check of the function fails
    first.  Two stacks share the name [x] and the first has neither include
    patterns nor modules: the error is the "must specify either" message,
    not a "duplicate stack name" error.  A definition of version 2 whose
    stack has neither include patterns nor modules, and a definition of
    version 1 whose nameless stack has neither, do not give the "must
    specify either" message. *)
Lemma ValidateStackDefinition_first_error_counterexample :
  (let def := Fixtures.definitionOf 1 [Fixtures.stackOf "x" [] [] [];
                                       Fixtures.stackOf "x" [] [] ["app-a"]] in
   ~ NoDup (StackDefinition.names (StackDefinitionFile.Stacks def))
   /\ StackDefinition.ValidateStackDefinition def
      = Some "stack 'x' must specify either 'include' patterns or 'modules' list"
   /\ forall msg, StackDefinition.ValidateStackDefinition def = Some msg ->
                  Contains msg "duplicate stack name" = false)
  /\ (let def := Fixtures.definitionOf 2 [Fixtures.stackOf "x" [] [] []] in
      Exists (fun s => ExternalStackConfig.Include s = []
                       /\ ExternalStackConfig.Modules s = [])
             (StackDefinitionFile.Stacks def)
      /\ StackDefinition.ValidateStackDefinition def
         = Some "unsupported stack definition version: 2 (expected 1)"
      /\ forall msg, StackDefinition.ValidateStackDefinition def = Some msg ->
                     Contains msg "must specify either" = false)
  /\ (let def := Fixtures.definitionOf 1 [Fixtures.stackOf "" [] [] []] in
      Exists (fun s => ExternalStackConfig.Include s = []
                       /\ ExternalStackConfig.Modules s = [])
             (StackDefinitionFile.Stacks def)
      /\ StackDefinition.ValidateStackDefinition def
         = Some "stack at index 0 has no name"
      /\ forall msg, StackDefinition.ValidateStackDefinition def = Some msg ->
                     Contains msg "must specify either" = false).
Proof.
  cbv zeta. split; [|split].
  - split; [|split].
    + intros Hnd. apply NoDup_cons in Hnd as [Hx _].
      apply Hx, list_elem_of_here.
    + reflexivity.
    + intros msg [= <-]. reflexivity.
  - split; [|split].
    + apply Exists_cons_hd. split; reflexivity.
    + reflexivity.
    + intros msg [= <-]. reflexivity.
  - split; [|split].
    + apply Exists_cons_hd. split; reflexivity.
    + reflexivity.
    + intros msg [= <-]. reflexivity.
Qed.

(** ** Assignment of modules to stacks *)

Section MatchFacts.
Context {fp : Filepath}.
Import StackMatch.

(** The names returned are those of the stacks that claim the path, in
    the order of the list. *)
Lemma matchStacks_filter (relPath : string)
      (stacks : list ExternalStackConfig.t) :
  fst (matchStacks relPath stacks)
  = map ExternalStackConfig.Name
        (filter (fun stack => fst (stackClaims relPath stack) = true) stacks).
Proof.
  induction stacks as [|stack rest IH]; [reflexivity|].
  cbn [matchStacks]. destruct (stackClaims relPath stack) as [claimed w] eqn:Hc.
  destruct (matchStacks relPath rest) as [matched w'].
  cbn [fst] in *. rewrite filter_cons, Hc. cbn [fst].
  destruct claimed; cbn.
  - destruct (decide (true = true)); [|congruence]. cbn. now rewrite IH.
  - destruct (decide (false = true)); [congruence|]. exact IH.
Qed.

Lemma MatchModuleToStacks_filter (modulePath gitRoot : string)
      (stacks : list ExternalStackConfig.t) :
  fst (MatchModuleToStacks modulePath stacks gitRoot)
  = map ExternalStackConfig.Name
        (filter (fun stack =>
                   fst (stackClaims
                          (fst (normalizedRelPath modulePath gitRoot))
                          stack) = true) stacks).
Proof.
  unfold MatchModuleToStacks.
  destruct (normalizedRelPath modulePath gitRoot) as [relPath w].
  pose proof (matchStacks_filter relPath stacks) as Hf.
  destruct (matchStacks relPath stacks) as [matched w']. exact Hf.
Qed.

(** The loop over the stacks treats each stack by its own fields only. *)
Lemma matchStacks_congruence (relPath : string)
      (pre post : list ExternalStackConfig.t)
      (stack stack' : ExternalStackConfig.t) :
  ExternalStackConfig.Name stack = ExternalStackConfig.Name stack' ->
  stackClaims relPath stack = stackClaims relPath stack' ->
  matchStacks relPath (pre ++ stack :: post)
  = matchStacks relPath (pre ++ stack' :: post).
Proof.
  intros Hname Hclaims. induction pre as [|s pre IH].
  - cbn [app matchStacks]. now rewrite Hname, Hclaims.
  - rewrite <- !app_comm_cons. cbn [matchStacks]. now rewrite IH.
Qed.

Lemma explicitModuleMatches_spec (relPath : string) (modules : list string) :
  explicitModuleMatches relPath modules = true
  <-> exists m, m ∈ modules /\ exists t, relPath = t +:+ ToSlash m.
Proof.
  induction modules as [|m rest IH]; cbn [explicitModuleMatches].
  - split; [discriminate|]. intros (m & Hin & _). now apply elem_of_nil in Hin.
  - destruct (HasSuffix relPath (ToSlash m) || String.eqb relPath (ToSlash m))
      eqn:Hm.
    + split; [intros _ | reflexivity]. exists m. split; [left|].
      apply orb_true_iff in Hm as [Hm|Hm].
      * now apply HasSuffix_spec.
      * apply String.eqb_eq in Hm. now exists "".
    + rewrite IH. apply orb_false_iff in Hm as [Hm _]. split.
      * intros (m' & Hin & Ht). exists m'. split; [now right | exact Ht].
      * intros (m' & Hin & Ht). apply elem_of_cons in Hin as [->|Hin].
        -- apply HasSuffix_spec in Ht. congruence.
        -- eauto.
Qed.

Lemma anyPatternMatches_spec (relPath : string) (patterns : list string) :
  fst (anyPatternMatches relPath patterns) = true
  <-> exists p, p ∈ patterns /\ fst (matchGlobPattern relPath p) = true.
Proof.
  induction patterns as [|p rest IH]; cbn [anyPatternMatches].
  - split; [discriminate|]. intros (p & Hin & _). now apply elem_of_nil in Hin.
  - destruct (matchGlobPattern relPath p) as [m w] eqn:Hm.
    destruct m; cbn [fst].
    + split; [intros _ | reflexivity]. exists p. rewrite Hm. split; [left|reflexivity].
    + destruct (anyPatternMatches relPath rest) as [m' w']. cbn [fst] in *.
      rewrite IH. split.
      * intros (q & Hin & Hq). exists q. split; [now right | exact Hq].
      * intros (q & Hin & Hq). apply elem_of_cons in Hin as [->|Hin].
        -- rewrite Hm in Hq. discriminate.
        -- eauto.
Qed.

Lemma NoDup_map_inj {A B} (f : A -> B) (l : list A) (x y : A) :
  NoDup (map f l) -> x ∈ l -> y ∈ l -> f x = f y -> x = y.
Proof.
  induction l as [|a l IH]; intros Hnd Hx Hy Heq.
  - now apply elem_of_nil in Hx.
  - cbn in Hnd. apply NoDup_cons in Hnd as [Hfresh Hnd].
    apply elem_of_cons in Hx as [->|Hx]; apply elem_of_cons in Hy as [->|Hy];
      auto.
    + exfalso. apply Hfresh. rewrite Heq.
      apply list_elem_of_In, in_map, list_elem_of_In, Hy.
    + exfalso. apply Hfresh. rewrite <- Heq.
      apply list_elem_of_In, in_map, list_elem_of_In, Hx.
Qed.

Lemma explicit_mode (stack : ExternalStackConfig.t) :
  ExternalStackConfig.Modules stack <> [] ->
  (0 <? length (ExternalStackConfig.Modules stack))%nat = true.
Proof. destruct (ExternalStackConfig.Modules stack); [congruence | reflexivity]. Qed.

(** C6: for a stack whose explicit module list is not empty, membership is
    decided by that list alone: the verdict and the warnings logged are
    those of the loop over the list (no warning, hence no pattern
    evaluated), and [MatchModuleToStacks] returns the same names and the
    same log whatever the include and exclude patterns of that stack. *)
Theorem MatchModuleToStacks_explicit_modules_authoritative :
  (forall relPath stack,
      ExternalStackConfig.Modules stack <> [] ->
      stackClaims relPath stack
      = (explicitModuleMatches relPath (ExternalStackConfig.Modules stack), []))
  /\ (forall modulePath gitRoot pre post stack stack',
         ExternalStackConfig.Modules stack <> [] ->
         ExternalStackConfig.Name stack' = ExternalStackConfig.Name stack ->
         ExternalStackConfig.Modules stack' = ExternalStackConfig.Modules stack ->
         MatchModuleToStacks modulePath (pre ++ stack' :: post) gitRoot
         = MatchModuleToStacks modulePath (pre ++ stack :: post) gitRoot).
Proof.
  assert (forall relPath stack,
             ExternalStackConfig.Modules stack <> [] ->
             stackClaims relPath stack
             = (explicitModuleMatches relPath
                  (ExternalStackConfig.Modules stack), [])) as Hexplicit.
  { intros relPath stack Hm. unfold stackClaims.
    now rewrite (explicit_mode _ Hm). }
  split; [exact Hexplicit|].
  intros modulePath gitRoot pre post stack stack' Hm Hname Hmods.
  unfold MatchModuleToStacks.
  destruct (normalizedRelPath modulePath gitRoot) as [relPath w].
  rewrite (matchStacks_congruence relPath pre post stack' stack); auto.
  rewrite !Hexplicit; congruence.
Qed.

(** C7: for a stack that has no explicit module list, the exclude patterns
    are evaluated only after an include pattern has matched (when none
    matches, the verdict is negative and the log is that of the include
    loop alone, whatever the exclude patterns), and the stack does not
    claim a module that an exclude pattern matches. *)
Theorem MatchModuleToStacks_exclude_after_include :
  (forall relPath stack,
      ExternalStackConfig.Modules stack = [] ->
      fst (anyPatternMatches relPath (ExternalStackConfig.Include stack))
      = false ->
      stackClaims relPath stack
      = (false,
         snd (anyPatternMatches relPath (ExternalStackConfig.Include stack))))
  /\ (forall relPath stack pattern,
         ExternalStackConfig.Modules stack = [] ->
         pattern ∈ ExternalStackConfig.Exclude stack ->
         fst (matchGlobPattern relPath pattern) = true ->
         fst (stackClaims relPath stack) = false)
  /\ (forall modulePath gitRoot stacks stack pattern,
         NoDup (map ExternalStackConfig.Name stacks) ->
         stack ∈ stacks ->
         ExternalStackConfig.Modules stack = [] ->
         pattern ∈ ExternalStackConfig.Exclude stack ->
         fst (matchGlobPattern (fst (normalizedRelPath modulePath gitRoot))
                               pattern) = true ->
         ExternalStackConfig.Name stack
           ∉ fst (MatchModuleToStacks modulePath stacks gitRoot)).
Proof.
  assert (forall relPath stack pattern,
             ExternalStackConfig.Modules stack = [] ->
             pattern ∈ ExternalStackConfig.Exclude stack ->
             fst (matchGlobPattern relPath pattern) = true ->
             fst (stackClaims relPath stack) = false) as Hexcl.
  { intros relPath stack pattern Hm Hin Hp. unfold stackClaims.
    rewrite Hm. cbn [length Nat.ltb Nat.leb].
    destruct (anyPatternMatches relPath (ExternalStackConfig.Include stack))
      as [included w1].
    destruct included; cbn [negb]; [|reflexivity].
    destruct (anyPatternMatches relPath (ExternalStackConfig.Exclude stack))
      as [excluded w2] eqn:He.
    assert (fst (anyPatternMatches relPath
                   (ExternalStackConfig.Exclude stack)) = true) as Ht
        by (apply anyPatternMatches_spec; eauto).
    rewrite He in Ht. cbn in Ht. now subst excluded. }
  split; [|split; [exact Hexcl|]].
  - intros relPath stack Hm Hinc. unfold stackClaims.
    rewrite Hm. cbn [length Nat.ltb Nat.leb].
    destruct (anyPatternMatches relPath (ExternalStackConfig.Include stack))
      as [included w1].
    cbn in Hinc. now subst included.
  - intros modulePath gitRoot stacks stack pattern Hnd Hin Hm Hp Hmatch.
    rewrite MatchModuleToStacks_filter. intros Hname.
    apply list_elem_of_fmap in Hname as (s & Heq & Hs).
    apply list_elem_of_filter in Hs as [Hclaims Hs].
    assert (s = stack) as ->.
    { eapply (NoDup_map_inj ExternalStackConfig.Name); eauto. }
    rewrite (Hexcl _ _ _ Hm Hp Hmatch) in Hclaims. discriminate.
Qed.

(** C10: a stack with explicit modules claims a module exactly when the
    module's normalized relative path ends with one of the listed strings
    (in slash form), a test on the bytes of the path and not on its
    elements; such a stack's name is then among the names returned. *)
Theorem MatchModuleToStacks_explicit_suffix :
  (forall relPath stack,
      ExternalStackConfig.Modules stack <> [] ->
      (fst (stackClaims relPath stack) = true
       <-> exists m, m ∈ ExternalStackConfig.Modules stack
                     /\ exists t, relPath = t +:+ ToSlash m))
  /\ (forall modulePath gitRoot stacks stack m t,
         stack ∈ stacks ->
         m ∈ ExternalStackConfig.Modules stack ->
         fst (normalizedRelPath modulePath gitRoot) = t +:+ ToSlash m ->
         ExternalStackConfig.Name stack
           ∈ fst (MatchModuleToStacks modulePath stacks gitRoot)).
Proof.
  assert (forall relPath stack,
             ExternalStackConfig.Modules stack <> [] ->
             (fst (stackClaims relPath stack) = true
              <-> exists m, m ∈ ExternalStackConfig.Modules stack
                            /\ exists t, relPath = t +:+ ToSlash m)) as Hiff.
  { intros relPath stack Hm. unfold stackClaims.
    rewrite (explicit_mode _ Hm). cbn [fst].
    apply explicitModuleMatches_spec. }
  split; [exact Hiff|].
  intros modulePath gitRoot stacks stack m t Hin Hm Hrel.
  rewrite MatchModuleToStacks_filter.
  apply list_elem_of_fmap. exists stack. split; [reflexivity|].
  apply list_elem_of_filter. split; [|exact Hin].
  apply Hiff; [|eauto].
  intros Hnil. rewrite Hnil in Hm. now apply elem_of_nil in Hm.
Qed.

End MatchFacts.

(** C6 at an instance: a stack with explicit modules and contradictory
    (and one malformed) patterns is treated as the stack without them. *)
Lemma MatchModuleToStacks_explicit_modules_authoritative_witness :
  StackMatch.MatchModuleToStacks (fp := unixFilepath) "/repo/shared/vpc"
    [Fixtures.stackOf "shared" ["environments/**"; "["] ["shared/**"]
                      ["shared/vpc"; "shared/dns"]] "/repo"
  = StackMatch.MatchModuleToStacks (fp := unixFilepath) "/repo/shared/vpc"
      [Fixtures.stackOf "shared" [] [] ["shared/vpc"; "shared/dns"]] "/repo".
Proof.
  apply (proj2 (MatchModuleToStacks_explicit_modules_authoritative
                  (fp := unixFilepath)) "/repo/shared/vpc" "/repo" [] []);
    [discriminate | reflexivity | reflexivity].
Defined.

(** C7 at an instance: the production stack of the template does not claim
    a module under its excluded directory. *)
Lemma MatchModuleToStacks_exclude_after_include_witness :
  "production"
    ∉ fst (StackMatch.MatchModuleToStacks (fp := unixFilepath)
             "/repo/environments/production/experimental/db"
             [Fixtures.stackOf "production" ["environments/production/**"]
                               ["environments/production/experimental/**"] []]
             "/repo").
Proof.
  apply (proj2 (proj2 (MatchModuleToStacks_exclude_after_include
                         (fp := unixFilepath)))
           "/repo/environments/production/experimental/db" "/repo" _
           (Fixtures.stackOf "production" ["environments/production/**"]
                             ["environments/production/experimental/**"] [])
           "environments/production/experimental/**").
  - apply NoDup_singleton.
  - apply list_elem_of_here.
  - reflexivity.
  - apply list_elem_of_here.
  - reflexivity.
Defined.

(** C10 at the instance of the claim: the module at [other/shared/vpc] is
    assigned to the stack that lists [shared/vpc]. *)
Lemma MatchModuleToStacks_explicit_suffix_witness :
  "shared"
    ∈ fst (StackMatch.MatchModuleToStacks (fp := unixFilepath)
             "/repo/other/shared/vpc"
             [Fixtures.stackOf "shared" [] [] ["shared/vpc"; "shared/dns"]]
             "/repo").
Proof.
  apply (proj2 (MatchModuleToStacks_explicit_suffix (fp := unixFilepath))
           "/repo/other/shared/vpc" "/repo" _
           (Fixtures.stackOf "shared" [] [] ["shared/vpc"; "shared/dns"])
           "shared/vpc" "other/").
  - apply list_elem_of_here.
  - apply list_elem_of_here.
  - reflexivity.
Defined.

(** ** In-tree stack marker files *)

Section MarkerFacts.
Context {fp : Filepath} {hp : HclPackages}.
Import StackHcl.

Lemma ConvertStackHclToStacks_names (definitions : list StackHclDefinition.t)
      (gitRoot : string) :
  map Stack.Name (fst (ConvertStackHclToStacks definitions gitRoot))
  = map stackNameOf definitions.
Proof.
  induction definitions as [|def rest IH]; [reflexivity|].
  cbn [ConvertStackHclToStacks]. unfold convertOne at 1.
  destruct (unitPathsOf _ gitRoot (StackHclDefinition.Units def)) as [paths w].
  destruct (ConvertStackHclToStacks rest gitRoot) as [stacks w'].
  cbn in *. now rewrite IH.
Qed.

(** C8: when the decoded file holds more than one stack block,
    [ParseStackHclFile] succeeds with the first block in declaration order
    and logs one warning; and [ConvertStackHclToStacks] names the stack of
    a definition that has units but no stack block after the directory
    that contains the file. *)
Theorem stack_marker_file_blocks :
  (forall path ctx configString file evalContext parsed first second others,
      os_notExist path = false ->
      os_ReadFile path = Ok configString ->
      parseHclForStack configString path = Ok file ->
      createTerragruntEvalContext ctx path = Ok evalContext ->
      DecodeBody file evalContext = Ok parsed ->
      ParsedStackHcl.Stacks parsed = first :: second :: others ->
      ParseStackHclFile path ctx
      = (Ok {| StackHclDefinition.FilePath := path;
               StackHclDefinition.Units := ParsedStackHcl.Units parsed;
               StackHclDefinition.StackBlock := Some first |},
         ["Multiple stack blocks found in " +:+ path +:+
          ", using first one: " +:+ StackBlock.Name first]))
  /\ (forall definitions gitRoot i def,
         definitions !! i = Some def ->
         StackHclDefinition.StackBlock def = None ->
         StackHclDefinition.Units def <> [] ->
         Stack.Name <$> (fst (ConvertStackHclToStacks definitions gitRoot) !! i)
         = Some (filepath_Base
                   (filepath_Dir (StackHclDefinition.FilePath def)))).
Proof.
  split.
  - intros path ctx configString file evalContext parsed first second others
           Hstat Hread Hparse Hctx Hdecode Hstacks.
    unfold ParseStackHclFile, selectStackBlock.
    now rewrite Hstat, Hread, Hparse, Hctx, Hdecode, Hstacks.
  - intros definitions gitRoot i def Hi Hblock Hunits.
    rewrite <- list_lookup_fmap.
    change (Stack.Name <$> fst (ConvertStackHclToStacks definitions gitRoot))
      with (map Stack.Name (fst (ConvertStackHclToStacks definitions gitRoot))).
    rewrite ConvertStackHclToStacks_names.
    change (map stackNameOf definitions) with (stackNameOf <$> definitions).
    rewrite list_lookup_fmap, Hi. cbn. f_equal.
    unfold stackNameOf. rewrite Hblock.
    destruct (StackHclDefinition.Units def); [congruence | reflexivity].
Qed.

End MarkerFacts.

(** C8 at an instance: a marker file with two stack blocks, and a
    definition with units only in the directory [prod]. *)
Lemma stack_marker_file_blocks_witness :
  fst (StackHcl.ParseStackHclFile (fp := unixFilepath)
         (hp := MarkerFixture.packages) MarkerFixture.markerPath tt)
  = Ok {| StackHclDefinition.FilePath := MarkerFixture.markerPath;
          StackHclDefinition.Units :=
            ParsedStackHcl.Units MarkerFixture.decoded;
          StackHclDefinition.StackBlock := Some MarkerFixture.production |}
  /\ Stack.Name <$>
       (fst (StackHcl.ConvertStackHclToStacks (fp := unixFilepath)
               (hp := MarkerFixture.packages) [MarkerFixture.unitsOnly] "/repo")
          !! 0%nat)
     = Some "prod".
Proof.
  split.
  - rewrite (proj1 (stack_marker_file_blocks (fp := unixFilepath)
                      (hp := MarkerFixture.packages))
               MarkerFixture.markerPath tt "unit stack stack" "unit stack stack"
               tt MarkerFixture.decoded MarkerFixture.production
               MarkerFixture.leftover []); reflexivity.
  - apply (proj2 (stack_marker_file_blocks (fp := unixFilepath)
                    (hp := MarkerFixture.packages))
             [MarkerFixture.unitsOnly] "/repo" 0%nat MarkerFixture.unitsOnly);
      [reflexivity | reflexivity | discriminate].
Defined.

(** ** The project of a stack *)

Section ProjectFacts.
Variable uniqueStrings : list string -> list string.
Import StackProject.

(** C9: the project of a stack exists and carries the stack's workflow,
    workspace, terraform version and autoplan flag; its apply requirements
    are those of the stack, absent when the list is empty; its
    execution-order group is the stack's execution order, absent when that
    is not positive; its [depends_on] is the stack's dependency list,
    absent (the empty list) when the stack declares none. *)
Theorem GenerateStackProject_fields (sm : StackManager.t) (stack : Stack.t) :
  exists project,
    GenerateStackProject uniqueStrings sm stack = Ok project
    /\ AtlantisProject.Name project = Stack.Name stack
    /\ AtlantisProject.Workflow project
       = StackAtlantisConfig.Workflow (Stack.AtlantisConfig stack)
    /\ AtlantisProject.Workspace project
       = StackAtlantisConfig.Workspace (Stack.AtlantisConfig stack)
    /\ AtlantisProject.TerraformVersion project
       = StackAtlantisConfig.TerraformVersion (Stack.AtlantisConfig stack)
    /\ AutoplanConfig.Enabled (AtlantisProject.Autoplan project)
       = StackAtlantisConfig.AutoPlan (Stack.AtlantisConfig stack)
    /\ AtlantisProject.ApplyRequirements project
       = match StackAtlantisConfig.ApplyRequirements
                 (Stack.AtlantisConfig stack) with
         | [] => None
         | requirements => Some requirements
         end
    /\ AtlantisProject.ExecutionOrderGroup project
       = (if decide (0 < Stack.ExecutionOrder stack)%Z
          then Some (Stack.ExecutionOrder stack) else None)
    /\ AtlantisProject.DependsOn project = Stack.Dependencies stack.
Proof.
  eexists. split; [reflexivity|]. cbn.
  repeat split.
  - now destruct (StackAtlantisConfig.ApplyRequirements _).
  - destruct (Z.ltb_spec 0 (Stack.ExecutionOrder stack));
      destruct (decide _); try reflexivity; lia.
  - now destruct (Stack.Dependencies stack).
Qed.

End ProjectFacts.

(** ** Local module sources *)

Section SourceFacts.
Context {tf : Terraform}.
Import LocalSource.

Abbreviation resolveOpenTofu := parseTerraformLocalModuleSourceOpenTofu.
Abbreviation resolve := parseTerraformLocalModuleSource.

Lemma isLocalTerraformModuleSource_spec (raw : string) :
  isLocalTerraformModuleSource raw = true
  <-> exists pre, pre ∈ ["./"; "../"; ".\"; "..\"] /\ exists t, raw = pre +:+ t.
Proof.
  unfold isLocalTerraformModuleSource. rewrite existsb_exists.
  split; intros (pre & Hin & Hp); exists pre.
  - split; [now apply list_elem_of_In | now apply HasPrefix_spec].
  - split; [now apply list_elem_of_In | now apply HasPrefix_spec].
Qed.

Lemma providerRefError_spec (diags : list Diagnostic.t) :
  providerRefError diags = true
  <-> exists diag,
      diag ∈ diags
      /\ ((exists a b, Diagnostic.Summary diag
                       = a +:+ "Invalid provider reference" +:+ b)
          \/ (exists a b, Diagnostic.Summary diag
                          = a +:+ "Invalid provider configuration address"
                              +:+ b)).
Proof.
  unfold providerRefError. rewrite existsb_exists.
  split; intros (diag & Hin & Hd); exists diag.
  - split; [now apply list_elem_of_In|].
    apply orb_true_iff in Hd. now rewrite !Contains_spec in Hd.
  - split; [now apply list_elem_of_In|].
    apply orb_true_iff. now rewrite !Contains_spec.
Qed.

Lemma resolveOpenTofu_step (fuel : nat) (path : string) :
  resolveOpenTofu (S fuel) path
  = let '(module, diags) := LoadModule path in
    if HasErrors diags then
      if negb (providerRefError diags) then
        Some (Err ("terraform-config-inspect error: " +:+
                   DiagnosticsError diags))
      else Some (parseTerraformFilesWithOpenTofuSupport path)
    else resolveCalls (resolveOpenTofu fuel) path module.
Proof. reflexivity. Qed.

Lemma resolve_step (fuel : nat) (path : string) :
  resolve (S fuel) path
  = match resolveOpenTofu fuel path with
    | None => None
    | Some (Ok sources) => Some (Ok sources)
    | Some (Err _) =>
        let '(module, diags) := LoadModule path in
        if HasErrors diags then Some (Err (DiagnosticsError diags))
        else resolveCalls (resolve fuel) path module
    end.
Proof. reflexivity. Qed.

(** C1: a diagnostic list counts as a provider-reference failure exactly
    when the summary of one of its diagnostics contains one of the two
    known texts.  When the configuration of a module fails to load with
    such a diagnostic, the OpenTofu-aware resolver (and the resolver that
    calls it first) succeeds with the module's own pattern; when it fails
    to load without one, both return an error. *)
Theorem provider_reference_fallback (fuel : nat) (path : string) :
  HasErrors (snd (LoadModule path)) = true ->
  (providerRefError (snd (LoadModule path)) = true
   <-> exists diag,
       diag ∈ snd (LoadModule path)
       /\ ((exists a b, Diagnostic.Summary diag
                        = a +:+ "Invalid provider reference" +:+ b)
           \/ (exists a b, Diagnostic.Summary diag
                           = a +:+ "Invalid provider configuration address"
                               +:+ b)))
  /\ (providerRefError (snd (LoadModule path)) = true ->
      resolveOpenTofu (S fuel) path = Some (Ok ["*.tf*"])
      /\ resolve (S (S fuel)) path = Some (Ok ["*.tf*"]))
  /\ (providerRefError (snd (LoadModule path)) = false ->
      resolveOpenTofu (S fuel) path
      = Some (Err ("terraform-config-inspect error: " +:+
                   DiagnosticsError (snd (LoadModule path))))
      /\ resolve (S (S fuel)) path
         = Some (Err (DiagnosticsError (snd (LoadModule path))))).
Proof.
  intros Herr. split; [apply providerRefError_spec|].
  split; intros Hp.
  - assert (resolveOpenTofu (S fuel) path = Some (Ok ["*.tf*"])) as Hot.
    { rewrite resolveOpenTofu_step.
      destruct (LoadModule path) as [module diags]. cbn [snd] in *.
      now rewrite Herr, Hp. }
    split; [exact Hot|]. now rewrite resolve_step, Hot.
  - assert (resolveOpenTofu (S fuel) path
            = Some (Err ("terraform-config-inspect error: " +:+
                         DiagnosticsError (snd (LoadModule path))))) as Hot.
    { rewrite resolveOpenTofu_step.
      destruct (LoadModule path) as [module diags]. cbn [snd] in *.
      now rewrite Herr, Hp. }
    split; [exact Hot|]. rewrite resolve_step, Hot.
    destruct (LoadModule path) as [module diags]. cbn [snd] in *.
    now rewrite Herr.
Qed.

(** Calls with a source that is not local leave the source map as it is. *)
Lemma collectSources_nonlocal
      (recurse : string -> option (result (list string))) (path : string)
      (calls : list ModuleCall.t) (m : gmap string bool) :
  Forall (fun mc => isLocalTerraformModuleSource (ModuleCall.Source mc)
                    = false) calls ->
  collectSources recurse path calls m = Some (Ok m).
Proof.
  induction 1 as [|mc rest Hmc _ IH]; [reflexivity|].
  cbn [collectSources]. now rewrite Hmc.
Qed.

(** The visited set: a call whose expanded glob is in the source map is
    skipped, whatever the resolver would answer for it. *)
Lemma collectSources_visited
      (recurse : string -> option (result (list string))) (path : string)
      (mc : ModuleCall.t) (rest : list ModuleCall.t) (m : gmap string bool) :
  is_Some (m !! JoinPath (JoinPath path (ModuleCall.Source mc)) "*.tf*") ->
  collectSources recurse path (mc :: rest) m
  = collectSources recurse path rest m.
Proof.
  intros [b Hb]. cbn [collectSources]. rewrite Hb.
  now destruct (isLocalTerraformModuleSource _).
Qed.

Lemma addSources_keeps (sources : list string) :
  forall (m : gmap string bool) (key : string),
    is_Some (m !! key) -> is_Some (addSources m sources !! key).
Proof.
  induction sources as [|source rest IH]; intros m key Hkey; [exact Hkey|].
  cbn. apply IH. rewrite lookup_insert.
  destruct (decide (source = key)); [now eexists | exact Hkey].
Qed.

(** A module call repeated in the list is resolved once: the second
    occurrence finds its glob in the source map. *)
Lemma collectSources_repeated
      (recurse : string -> option (result (list string))) (path : string)
      (mc : ModuleCall.t) (rest : list ModuleCall.t) (m : gmap string bool) :
  collectSources recurse path (mc :: mc :: rest) m
  = collectSources recurse path (mc :: rest) m.
Proof.
  cbn [collectSources].
  destruct (isLocalTerraformModuleSource (ModuleCall.Source mc)) eqn:Hl;
    [|reflexivity].
  destruct (m !! _) eqn:Hm; [reflexivity|].
  destruct (recurse _) as [[sources|err]|]; [|reflexivity..].
  destruct (addSources_keeps sources
              (<[JoinPath (JoinPath path (ModuleCall.Source mc)) "*.tf*" := true]> m)
              (JoinPath (JoinPath path (ModuleCall.Source mc)) "*.tf*"))
    as [b ->]; [|reflexivity].
  rewrite lookup_insert_eq. now eexists.
Qed.

Lemma collectSources_total
      (recurse : string -> option (result (list string))) (path : string)
      (calls : list ModuleCall.t) :
  (forall mc, mc ∈ calls ->
              isLocalTerraformModuleSource (ModuleCall.Source mc) = true ->
              is_Some (recurse (JoinPath path (ModuleCall.Source mc)))) ->
  forall m, is_Some (collectSources recurse path calls m).
Proof.
  induction calls as [|mc rest IH]; intros Hrec m; [now eexists|].
  cbn [collectSources].
  assert (forall m', is_Some (collectSources recurse path rest m')) as Hrest.
  { apply IH. intros mc' Hin. apply Hrec. now right. }
  destruct (isLocalTerraformModuleSource (ModuleCall.Source mc)) eqn:Hl;
    [|apply Hrest].
  destruct (m !! _); [apply Hrest|].
  destruct (Hrec mc (list_elem_of_here _ _) Hl) as [[sources|err] ->];
    [apply Hrest | now eexists].
Qed.

Lemma collectSources_mono
      (recurse recurse' : string -> option (result (list string)))
      (path : string) (calls : list ModuleCall.t) :
  (forall p r, recurse p = Some r -> recurse' p = Some r) ->
  forall m r, collectSources recurse path calls m = Some r ->
              collectSources recurse' path calls m = Some r.
Proof.
  intros Hrec. induction calls as [|mc rest IH]; intros m r; [trivial|].
  cbn [collectSources].
  destruct (isLocalTerraformModuleSource (ModuleCall.Source mc)); [|apply IH].
  destruct (m !! _); [apply IH|].
  destruct (recurse _) as [[sources|err]|] eqn:Hr; [| |discriminate];
    rewrite (Hrec _ _ Hr); [apply IH | trivial].
Qed.

Lemma resolveCalls_mono
      (recurse recurse' : string -> option (result (list string)))
      (path : string) (module : TfModule.t) (r : result (list string)) :
  (forall p r, recurse p = Some r -> recurse' p = Some r) ->
  resolveCalls recurse path module = Some r ->
  resolveCalls recurse' path module = Some r.
Proof.
  intros Hrec. unfold resolveCalls.
  destruct (collectSources recurse _ _ _) as [rm|] eqn:Hc; [|discriminate].
  now rewrite (collectSources_mono _ _ _ _ Hrec _ _ Hc).
Qed.

(** More fuel does not change an answer. *)
Lemma resolveOpenTofu_mono (fuel : nat) :
  forall fuel' path r,
    (fuel <= fuel')%nat ->
    resolveOpenTofu fuel path = Some r -> resolveOpenTofu fuel' path = Some r.
Proof.
  induction fuel as [|fuel IH]; intros fuel' path r Hle; [discriminate|].
  destruct fuel' as [|fuel']; [lia|]. rewrite !resolveOpenTofu_step.
  destruct (LoadModule path) as [module diags].
  destruct (HasErrors diags); [trivial|].
  apply resolveCalls_mono. intros p r'. apply IH. lia.
Qed.

Lemma resolve_mono (fuel : nat) :
  forall fuel' path r,
    (fuel <= fuel')%nat ->
    resolve fuel path = Some r -> resolve fuel' path = Some r.
Proof.
  induction fuel as [|fuel IH]; intros fuel' path r Hle; [discriminate|].
  destruct fuel' as [|fuel']; [lia|]. rewrite !resolve_step.
  destruct (resolveOpenTofu fuel path) as [ro|] eqn:Ho; [|discriminate].
  rewrite (resolveOpenTofu_mono fuel fuel' path ro) by (lia || assumption).
  destruct ro as [sources|err]; [trivial|].
  destruct (LoadModule path) as [module diags].
  destruct (HasErrors diags); [trivial|].
  apply resolveCalls_mono. intros p r'. apply IH. lia.
Qed.

Lemma resolveCalls_NoDup
      (recurse : string -> option (result (list string))) (path : string)
      (module : TfModule.t) (sources : list string) :
  resolveCalls recurse path module = Some (Ok sources) -> NoDup sources.
Proof.
  unfold resolveCalls.
  destruct (collectSources _ _ _ _) as [[m|err]|]; try discriminate.
  intros [= <-]. apply NoDup_fst_map_to_list.
Qed.

Lemma resolveOpenTofu_NoDup (fuel : nat) (path : string)
      (sources : list string) :
  resolveOpenTofu fuel path = Some (Ok sources) -> NoDup sources.
Proof.
  destruct fuel as [|fuel]; [discriminate|]. rewrite resolveOpenTofu_step.
  destruct (LoadModule path) as [module diags].
  destruct (HasErrors diags); [|apply resolveCalls_NoDup].
  destruct (negb _); [discriminate|].
  intros [= <-]. apply NoDup_singleton.
Qed.

Lemma resolve_NoDup (fuel : nat) (path : string) (sources : list string) :
  resolve fuel path = Some (Ok sources) -> NoDup sources.
Proof.
  destruct fuel as [|fuel]; [discriminate|]. rewrite resolve_step.
  destruct (resolveOpenTofu fuel path) as [[s|err]|] eqn:Ho;
    [| |discriminate].
  - intros [= <-]. eapply resolveOpenTofu_NoDup, Ho.
  - destruct (LoadModule path) as [module diags].
    destruct (HasErrors diags); [discriminate | apply resolveCalls_NoDup].
Qed.

Lemma localReferences_call (path : string) (mc : ModuleCall.t) :
  HasErrors (snd (LoadModule path)) = false ->
  mc ∈ TfModule.ModuleCalls (fst (LoadModule path)) ->
  isLocalTerraformModuleSource (ModuleCall.Source mc) = true ->
  JoinPath path (ModuleCall.Source mc) ∈ localReferences path.
Proof.
  unfold localReferences. destruct (LoadModule path) as [module diags].
  cbn [fst snd]. intros -> Hin Hl.
  apply list_elem_of_In.
  apply (in_map (fun mc => JoinPath path (ModuleCall.Source mc))).
  apply filter_In. split; [now apply list_elem_of_In | exact Hl].
Qed.

Section Ranked.
Variable rank : string -> nat.
Hypothesis rank_decreases :
  forall p q, q ∈ localReferences p -> (rank q < rank p)%nat.

Lemma resolveOpenTofu_returns (fuel : nat) :
  forall path, (rank path < fuel)%nat ->
               is_Some (resolveOpenTofu fuel path).
Proof.
  induction fuel as [|fuel IH]; intros path Hr; [lia|].
  rewrite resolveOpenTofu_step.
  pose proof (localReferences_call path) as Href.
  destruct (LoadModule path) as [module diags]. cbn [fst snd] in Href.
  destruct (HasErrors diags).
  { destruct (negb _); now eexists. }
  unfold resolveCalls.
  destruct (collectSources_total (resolveOpenTofu fuel) path
              (TfModule.ModuleCalls module)) with (m := (∅ : gmap string bool))
    as [[m|err] ->]; [|now eexists..].
  intros mc Hin Hl. apply IH.
  specialize (rank_decreases _ _ (Href mc eq_refl Hin Hl)). lia.
Qed.

Lemma resolve_returns (fuel : nat) :
  forall path, (S (rank path) < fuel)%nat -> is_Some (resolve fuel path).
Proof.
  induction fuel as [|fuel IH]; intros path Hr; [lia|].
  rewrite resolve_step.
  destruct (resolveOpenTofu_returns fuel path) as [[sources|err] ->];
    [lia | now eexists |].
  pose proof (localReferences_call path) as Href.
  destruct (LoadModule path) as [module diags]. cbn [fst snd] in Href.
  destruct (HasErrors diags); [now eexists|].
  unfold resolveCalls.
  destruct (collectSources_total (resolve fuel) path
              (TfModule.ModuleCalls module)) with (m := (∅ : gmap string bool))
    as [[m|err'] ->]; [|now eexists..].
  intros mc Hin Hl. apply IH.
  specialize (rank_decreases _ _ (Href mc eq_refl Hin Hl)). lia.
Qed.
End Ranked.

(** C5 (as amended): for a module whose configuration loads and has no
    module call with a local source, both resolvers succeed with the empty
    list: the result holds the patterns of locally referenced modules only,
    the module's own pattern is not in it, and the other sources add
    nothing. *)
Theorem no_local_source_no_pattern (fuel : nat) (path : string) :
  HasErrors (snd (LoadModule path)) = false ->
  Forall (fun mc => isLocalTerraformModuleSource (ModuleCall.Source mc)
                    = false)
         (TfModule.ModuleCalls (fst (LoadModule path))) ->
  resolveOpenTofu (S fuel) path = Some (Ok [])
  /\ resolve (S (S fuel)) path = Some (Ok []).
Proof.
  intros Herr Hcalls.
  assert (resolveOpenTofu (S fuel) path = Some (Ok [])) as Hot.
  { rewrite resolveOpenTofu_step.
    destruct (LoadModule path) as [module diags]. cbn [fst snd] in *.
    rewrite Herr. unfold resolveCalls.
    rewrite collectSources_nonlocal by assumption.
    unfold sourcesOf. now rewrite map_to_list_empty. }
  split; [exact Hot|]. now rewrite resolve_step, Hot.
Qed.

End SourceFacts.

(** C1 at two instances: a module that uses the indexed provider reference,
    and a module with a syntax error. *)
Lemma provider_reference_fallback_witness :
  LocalSource.parseTerraformLocalModuleSourceOpenTofu
    (tf := SourceFixture.tree) 1 "/repo/opentofu" = Some (Ok ["*.tf*"])
  /\ LocalSource.parseTerraformLocalModuleSourceOpenTofu
       (tf := SourceFixture.tree) 1 "/repo/broken"
     = Some (Err "terraform-config-inspect error: Argument or block definition required: ").
Proof.
  split.
  - apply (proj1 (proj2 (provider_reference_fallback
                           (tf := SourceFixture.tree) 0 "/repo/opentofu"
                           eq_refl))).
    reflexivity.
  - apply (proj2 (proj2 (provider_reference_fallback
                           (tf := SourceFixture.tree) 0 "/repo/broken"
                           eq_refl))).
    reflexivity.
Defined.

(** The repository without cycle: the resolver returns the pattern of the
    module called twice once, and that of its sub-module. *)
Example resolve_tree_app :
  LocalSource.parseTerraformLocalModuleSource
    (tf := SourceFixture.tree) 4 "/repo/app"
  = Some (Ok ["/repo/modules/vpc/subnets/*.tf*"; "/repo/modules/vpc/*.tf*"]).
Proof. vm_compute. reflexivity. Qed.

(** Two modules that call each other: neither resolver returns, whatever
    the fuel. *)
Lemma cycle_OpenTofu_never_returns (fuel : nat) :
  LocalSource.parseTerraformLocalModuleSourceOpenTofu
    (tf := SourceFixture.cycle) fuel "/repo/a" = None
  /\ LocalSource.parseTerraformLocalModuleSourceOpenTofu
       (tf := SourceFixture.cycle) fuel "/repo/b" = None.
Proof.
  induction fuel as [|fuel [IHa IHb]]; [split; reflexivity|].
  rewrite !resolveOpenTofu_step. cbn [LoadModule SourceFixture.cycle].
  change (String.eqb "/repo/a" "/repo/a") with true.
  change (String.eqb "/repo/b" "/repo/a") with false.
  change (String.eqb "/repo/b" "/repo/b") with true.
  cbv iota beta delta [SourceFixture.moduleAt].
  change (LocalSource.HasErrors []) with false. cbv iota.
  unfold LocalSource.resolveCalls. cbn [TfModule.ModuleCalls].
  cbn [LocalSource.collectSources SourceFixture.call ModuleCall.Source].
  change (LocalSource.isLocalTerraformModuleSource "../b") with true.
  change (LocalSource.isLocalTerraformModuleSource "../a") with true.
  cbv iota. cbn [JoinPath SourceFixture.cycle].
  change (UnixPath.Join "/repo/a" "../b") with "/repo/b".
  change (UnixPath.Join "/repo/b" "../a") with "/repo/a".
  rewrite !lookup_empty, IHa, IHb. split; reflexivity.
Qed.

Lemma cycle_never_returns (fuel : nat) :
  LocalSource.parseTerraformLocalModuleSource
    (tf := SourceFixture.cycle) fuel "/repo/a" = None.
Proof.
  destruct fuel as [|fuel]; [reflexivity|]. rewrite resolve_step.
  now rewrite (proj1 (cycle_OpenTofu_never_returns fuel)).
Qed.

(** C4: the resolvers break the claim on two modules that call each other
    and load without error.  The source map is made anew by each call, so
    the glob recorded for the calling module is unknown to the call on the
    module it references: the references are followed for ever, and no
    amount of fuel lets either resolver return, where the claim asks for an
    answer that holds each glob once. *)
Lemma cyclic_local_sources_diverge :
  "/repo/b" ∈ LocalSource.localReferences (tf := SourceFixture.cycle) "/repo/a"
  /\ "/repo/a" ∈ LocalSource.localReferences (tf := SourceFixture.cycle) "/repo/b"
  /\ ~ (exists fuel r,
           LocalSource.parseTerraformLocalModuleSource
             (tf := SourceFixture.cycle) fuel "/repo/a" = Some r)
  /\ ~ (exists fuel r,
           LocalSource.parseTerraformLocalModuleSourceOpenTofu
             (tf := SourceFixture.cycle) fuel "/repo/a" = Some r).
Proof.
  split; [vm_compute; apply list_elem_of_here|].
  split; [vm_compute; apply list_elem_of_here|].
  split.
  - intros (fuel & r & Hr). rewrite cycle_never_returns in Hr. discriminate.
  - intros (fuel & r & Hr).
    rewrite (proj1 (cycle_OpenTofu_never_returns fuel)) in Hr. discriminate.
Qed.

(** C5 at an instance: a module that calls a registry module only. *)
Lemma no_local_source_no_pattern_witness :
  LocalSource.parseTerraformLocalModuleSourceOpenTofu
    (tf := SourceFixture.tree) 1 "/repo/service" = Some (Ok [])
  /\ LocalSource.parseTerraformLocalModuleSource
       (tf := SourceFixture.tree) 2 "/repo/service" = Some (Ok []).
Proof.
  apply (no_local_source_no_pattern (tf := SourceFixture.tree) 0
           "/repo/service").
  - reflexivity.
  - vm_compute. repeat constructor.
Defined.

(** C5 (as stated) fails on that module: its configuration loads, none of
    its module calls is local, and the resolver answers with the empty
    list, never with a single pattern. *)
Lemma no_local_source_counterexample :
  LocalSource.HasErrors
    (snd (LoadModule (Terraform := SourceFixture.tree) "/repo/service")) = false
  /\ Forall (fun mc => LocalSource.isLocalTerraformModuleSource
                         (ModuleCall.Source mc) = false)
            (TfModule.ModuleCalls
               (fst (LoadModule (Terraform := SourceFixture.tree)
                                "/repo/service")))
  /\ ~ (exists fuel glob,
           LocalSource.parseTerraformLocalModuleSource
             (tf := SourceFixture.tree) fuel "/repo/service"
           = Some (Ok [glob])).
Proof.
  split; [reflexivity|]. split; [vm_compute; repeat constructor|].
  intros (fuel & glob & Hr).
  assert (LocalSource.parseTerraformLocalModuleSource
            (tf := SourceFixture.tree) 2 "/repo/service" = Some (Ok []))
    as H2 by reflexivity.
  destruct (Nat.le_ge_cases fuel 2) as [Hle|Hge].
  - rewrite (resolve_mono fuel 2 _ _ Hle Hr) in H2. discriminate.
  - rewrite (resolve_mono 2 fuel _ _ Hge H2) in Hr. discriminate.
Qed.

(** ** The cases of the test suite, on the slash platform *)

Example test_matchGlobPattern :
  map (fun '(path, pattern) =>
         fst (StackMatch.matchGlobPattern (fp := unixFilepath) path pattern))
      [("app/main.tf", "app/main.tf");
       ("app/main.tf", "app/*.tf");
       ("environments/production/networking/vpc", "environments/production/**");
       ("environments/production/region/us-east-1/vpc", "environments/**/vpc");
       ("staging/app/main.tf", "production/**");
       ("environments/production/app", "environments/production/**/vpc")]
  = [true; true; true; true; false; false].
Proof. reflexivity. Qed.

Example test_MatchModuleToStacks :
  map (fun modulePath =>
         StackMatch.MatchModuleToStacks (fp := unixFilepath) modulePath
           [Fixtures.stackOf "production" ["environments/production/**"] [] [];
            Fixtures.stackOf "staging" ["environments/staging/**"] [] [];
            Fixtures.stackOf "shared" [] [] ["shared/vpc"; "shared/dns"]]
           "/repo")
      ["/repo/environments/production/app";
       "/repo/environments/staging/app";
       "/repo/shared/vpc";
       "/repo/experimental/app"]
  = [(["production"], []); (["staging"], []); (["shared"], []); ([], [])].
Proof. reflexivity. Qed.

Example test_ValidateStackDefinition_valid :
  StackDefinition.ValidateStackDefinition
    (Fixtures.definitionOf 1 [Fixtures.stackOf "test-stack" [] [] ["app-a"]])
  = None.
Proof. reflexivity. Qed.

(** A malformed include pattern of a stack in pattern mode is logged. *)
Example malformed_pattern_logged :
  StackMatch.MatchModuleToStacks (fp := unixFilepath) "/repo/shared/vpc"
    [Fixtures.stackOf "shared" ["["] [] []] "/repo"
  = ([], ["Invalid glob pattern '[': syntax error in pattern"]).
Proof. reflexivity. Qed.

(** [filepath.Match] reports a malformed rest of the pattern also when the
    name has already failed to match. *)
Example Match_checks_rest :
  UnixPath.Match "x*[" "y" = Err UnixPath.ErrBadPattern
  /\ UnixPath.Match "x*b" "y" = Ok false
  /\ UnixPath.Match "a/*/[" "b/c/d" = Err UnixPath.ErrBadPattern.
Proof. repeat split; reflexivity. Qed.

(** ** Provider references *)

Section ProviderRefFacts.
Context {Value : Type}.
Import ProviderRef.

Lemma remainingSteps_spec (steps : list (Hcl.Traverser Value)) :
  forall ret diags,
    OpenTofuProviderRef.Name (fst (remainingSteps steps ret diags))
    = OpenTofuProviderRef.Name ret
    /\ OpenTofuProviderRef.Alias (fst (remainingSteps steps ret diags))
       = OpenTofuProviderRef.Alias ret
    /\ OpenTofuProviderRef.IsIndex (fst (remainingSteps steps ret diags))
       = OpenTofuProviderRef.IsIndex ret || existsb isIndexStep steps
    /\ snd (remainingSteps steps ret diags)
       = diags ++ map (fun step => invalidAddress onlyIndexAllowed
                                                  (Hcl.SourceRange step))
                      (List.filter (fun step => negb (isIndexStep step)) steps).
Proof.
  induction steps as [|step rest IH]; intros ret diags.
  - cbn. rewrite orb_false_r, app_nil_r. auto.
  - destruct step as [n r|n r|k r|e r];
      cbn [remainingSteps isIndexStep existsb List.filter negb map
           Hcl.SourceRange orb];
      match goal with
      | |- context [remainingSteps rest ?r0 ?d0] =>
          destruct (IH r0 d0) as (H1 & H2 & H3 & H4)
      end;
      rewrite H1, H2, H3, H4, <- ?app_assoc; cbn; rewrite ?orb_true_r; auto.
Qed.

(** X1: a traversal is accepted without diagnostic exactly when it is a
    provider name alone, a name with an alias, or a name with an alias and
    an index as third step; the steps after that index are not looked at. *)
Theorem parseOpenTofuProviderRef_accepts
        (traversal : list (Hcl.Traverser Value))
        (ret : OpenTofuProviderRef.t) (diags : list Hcl.Diagnostic) :
  parseOpenTofuProviderRef traversal = Some (ret, diags) ->
  (diags = []
   <-> (exists root, traversal = [root])
       \/ (exists root alias r rest,
              traversal = root :: Hcl.TraverseAttr alias r :: rest
              /\ (rest = []
                  \/ exists key r' rest',
                      rest = Hcl.TraverseIndex key r' :: rest'))).
Proof.
  intros Hp. unfold parseOpenTofuProviderRef in Hp.
  destruct traversal as [|[name r0|?|?|?] steps]; try discriminate Hp.
  cbn [Hcl.RootName] in Hp.
  destruct steps as [|aliasStep rest].
  { injection Hp as <- <-. split; [eauto | reflexivity]. }
  assert (forall step : Hcl.Traverser Value,
             isAttrStep step = false ->
             aliasStep = step ->
             Some (remainingSteps rest
                     {| OpenTofuProviderRef.Name := name;
                        OpenTofuProviderRef.Alias := "";
                        OpenTofuProviderRef.IsIndex := false |}
                     [invalidAddress aliasExpected (Hcl.SourceRange step)])
             = Some (ret, diags) ->
             diags = []
             <-> (exists root, Hcl.TraverseRoot name r0 :: aliasStep :: rest
                               = [root])
                 \/ (exists root alias r rest0,
                        Hcl.TraverseRoot name r0 :: aliasStep :: rest
                        = root :: Hcl.TraverseAttr alias r :: rest0
                        /\ (rest0 = []
                            \/ exists key r' rest',
                                rest0 = Hcl.TraverseIndex key r' :: rest')))
    as Hdefault.
  { intros step Hattr -> [= Hrs].
    assert (diags <> []) as Hne.
    { intros ->.
      destruct (remainingSteps_spec rest
                  {| OpenTofuProviderRef.Name := name;
                     OpenTofuProviderRef.Alias := "";
                     OpenTofuProviderRef.IsIndex := false |}
                  [invalidAddress aliasExpected (Hcl.SourceRange step)])
        as (_ & _ & _ & H4).
      rewrite Hrs in H4. discriminate H4. }
    split; [contradiction|].
    intros [[root [=]]|(root & alias & r & rest0 & [= _ -> _] & _)].
    discriminate Hattr. }
  destruct aliasStep as [n r|alias r|k r|e r];
    try (refine (Hdefault _ _ eq_refl Hp); reflexivity).
  clear Hdefault.
  destruct rest as [|[n' r'|n' r'|k' r'|e' r'] rest'];
    injection Hp as <- <-; split; intros Hd;
    try discriminate Hd; try reflexivity;
    try (right; exists (Hcl.TraverseRoot name r0), alias, r; eexists;
         split; [reflexivity | eauto]);
    destruct Hd as [[root [=]]
                   |(root & a0 & r1 & rest0 & [= _ _ _ <-]
                     & [[=]|(k0 & r2 & rest1 & [=])])].
Qed.

(** X2: every diagnostic of the parser is an error whose summary is the
    provider-address text and whose subject is the range of a step after the
    root; the provider name of the result is the name of the root. *)
Theorem parseOpenTofuProviderRef_diagnostics
        (traversal : list (Hcl.Traverser Value))
        (ret : OpenTofuProviderRef.t) (diags : list Hcl.Diagnostic) :
  parseOpenTofuProviderRef traversal = Some (ret, diags) ->
  Hcl.RootName traversal = Some (OpenTofuProviderRef.Name ret)
  /\ Forall (fun diag =>
               Hcl.DiagSeverity diag = Hcl.DiagError
               /\ Hcl.Summary diag = "Invalid provider configuration address"
               /\ exists step, step ∈ tl traversal
                               /\ Hcl.Subject diag
                                  = Some (Hcl.SourceRange step)) diags.
Proof.
  intros Hp. unfold parseOpenTofuProviderRef in Hp.
  destruct traversal as [|[name r0|?|?|?] steps]; try discriminate Hp.
  cbn [Hcl.RootName tl] in *.
  destruct steps as [|aliasStep rest].
  { injection Hp as <- <-. split; [reflexivity | constructor]. }
  assert (forall step,
             step ∈ aliasStep :: rest ->
             Some (remainingSteps rest
                     {| OpenTofuProviderRef.Name := name;
                        OpenTofuProviderRef.Alias := "";
                        OpenTofuProviderRef.IsIndex := false |}
                     [invalidAddress aliasExpected (Hcl.SourceRange step)])
             = Some (ret, diags) ->
             Some name = Some (OpenTofuProviderRef.Name ret)
             /\ Forall (fun diag =>
                          Hcl.DiagSeverity diag = Hcl.DiagError
                          /\ Hcl.Summary diag
                             = "Invalid provider configuration address"
                          /\ exists step, step ∈ aliasStep :: rest
                                          /\ Hcl.Subject diag
                                             = Some (Hcl.SourceRange step))
                       diags) as Hdefault.
  { intros step Hin [= Hrs].
    destruct (remainingSteps_spec rest
                {| OpenTofuProviderRef.Name := name;
                   OpenTofuProviderRef.Alias := "";
                   OpenTofuProviderRef.IsIndex := false |}
                [invalidAddress aliasExpected (Hcl.SourceRange step)])
      as (H1 & _ & _ & H4).
    rewrite Hrs in H1, H4. cbn [fst snd] in H1, H4. split; [now rewrite H1|].
    rewrite H4. cbn [app]. constructor; [cbn; eauto|].
    apply Forall_forall. intros diag Hd.
    apply list_elem_of_In, in_map_iff in Hd as (s & <- & Hs).
    apply filter_In in Hs as [Hs _]. cbn. repeat split.
    exists s. split; [right; now apply list_elem_of_In | reflexivity]. }
  destruct aliasStep as [n r|alias r|k r|e r];
    try (refine (Hdefault _ _ Hp); left).
  clear Hdefault.
  destruct rest as [|[n' r'|n' r'|k' r'|e' r'] rest'];
    injection Hp as <- <-; (split; [reflexivity|]);
    repeat constructor; eexists; (split; [right; left | reflexivity]).
Qed.

(** X3: the result is flagged as indexed exactly when the third step is an
    index after an alias, or, after a second step that is no alias, when some
    later step is an index; in the second case the flag comes with
    diagnostics. *)
Theorem parseOpenTofuProviderRef_IsIndex
        (traversal : list (Hcl.Traverser Value))
        (ret : OpenTofuProviderRef.t) (diags : list Hcl.Diagnostic) :
  parseOpenTofuProviderRef traversal = Some (ret, diags) ->
  (OpenTofuProviderRef.IsIndex ret = true
   <-> exists root second rest,
       traversal = root :: second :: rest
       /\ if isAttrStep second
          then exists third rest', rest = third :: rest'
                                   /\ isIndexStep third = true
          else existsb isIndexStep rest = true).
Proof.
  intros Hp. unfold parseOpenTofuProviderRef in Hp.
  destruct traversal as [|[name r0|?|?|?] steps]; try discriminate Hp.
  cbn [Hcl.RootName] in Hp.
  destruct steps as [|aliasStep rest].
  { injection Hp as <- <-. cbn. split; [discriminate|].
    intros (root & second & rest & [=] & _). }
  assert (forall step,
             aliasStep = step -> isAttrStep step = false ->
             Some (remainingSteps rest
                     {| OpenTofuProviderRef.Name := name;
                        OpenTofuProviderRef.Alias := "";
                        OpenTofuProviderRef.IsIndex := false |}
                     [invalidAddress aliasExpected (Hcl.SourceRange step)])
             = Some (ret, diags) ->
             OpenTofuProviderRef.IsIndex ret = true
             <-> exists root second rest0,
                 Hcl.TraverseRoot name r0 :: aliasStep :: rest
                 = root :: second :: rest0
                 /\ if isAttrStep second
                    then exists third rest', rest0 = third :: rest'
                                             /\ isIndexStep third = true
                    else existsb isIndexStep rest0 = true) as Hdefault.
  { intros step -> Hattr [= Hrs].
    destruct (remainingSteps_spec rest
                {| OpenTofuProviderRef.Name := name;
                   OpenTofuProviderRef.Alias := "";
                   OpenTofuProviderRef.IsIndex := false |}
                [invalidAddress aliasExpected (Hcl.SourceRange step)])
      as (_ & _ & H3 & _).
    rewrite Hrs in H3. cbn [fst OpenTofuProviderRef.IsIndex orb] in H3.
    rewrite H3. split.
    - intros He. exists (Hcl.TraverseRoot name r0), step, rest.
      split; [reflexivity|]. now rewrite Hattr.
    - intros (root & second & rest0 & [= _ <- <-] & Hc).
      now rewrite Hattr in Hc. }
  destruct aliasStep as [n r|alias r|k r|e r];
    try (refine (Hdefault _ eq_refl eq_refl Hp)).
  clear Hdefault.
  destruct rest as [|third rest'].
  { injection Hp as <- <-. cbn. split; [discriminate|].
    intros (root & second & rest & [= _ <- <-] & Hc). cbn in Hc.
    destruct Hc as (third & rest' & [=] & _). }
  assert (OpenTofuProviderRef.IsIndex ret = isIndexStep third) as ->.
  { destruct third; injection Hp as <- <-; reflexivity. }
  split.
  - intros Hi. exists (Hcl.TraverseRoot name r0), (Hcl.TraverseAttr alias r),
      (third :: rest'). split; [reflexivity|]. cbn. eauto.
  - intros (root & second & rest & [= _ <- <-] & Hc). cbn in Hc.
    now destruct Hc as (third0 & rest0 & [= <- _] & Hi).
Qed.

End ProviderRefFacts.

(** X1 at an instance: an indexed provider with a further step passes. *)
Lemma parseOpenTofuProviderRef_accepts_witness :
  ProviderRef.parseOpenTofuProviderRef ProviderFixture.indexed
  = Some ({| OpenTofuProviderRef.Name := "awsutils";
             OpenTofuProviderRef.Alias := "by_region";
             OpenTofuProviderRef.IsIndex := true |}, [])
  /\ ([] = ([] : list Hcl.Diagnostic)
      <-> (exists root, ProviderFixture.indexed = [root])
          \/ (exists root alias r rest,
                 ProviderFixture.indexed
                 = root :: Hcl.TraverseAttr alias r :: rest
                 /\ (rest = []
                     \/ exists key r' rest',
                         rest = Hcl.TraverseIndex key r' :: rest'))).
Proof.
  split; [reflexivity|].
  apply (parseOpenTofuProviderRef_accepts ProviderFixture.indexed
           {| OpenTofuProviderRef.Name := "awsutils";
              OpenTofuProviderRef.Alias := "by_region";
              OpenTofuProviderRef.IsIndex := true |} []).
  reflexivity.
Defined.

(** X2 at an instance: an index directly after the provider name. *)
Lemma parseOpenTofuProviderRef_diagnostics_witness :
  exists ret diags,
    ProviderRef.parseOpenTofuProviderRef ProviderFixture.indexFirst
    = Some (ret, diags)
    /\ length diags = 2%nat
    /\ Forall (fun diag =>
                 Hcl.DiagSeverity diag = Hcl.DiagError
                 /\ Hcl.Summary diag = "Invalid provider configuration address"
                 /\ exists step, step ∈ tl ProviderFixture.indexFirst
                                 /\ Hcl.Subject diag
                                    = Some (Hcl.SourceRange step)) diags.
Proof.
  eexists _, _. split; [reflexivity|]. split; [reflexivity|].
  eapply (proj2 (parseOpenTofuProviderRef_diagnostics
                   ProviderFixture.indexFirst _ _ eq_refl)).
Defined.

(** X3 at an instance: the same traversal is flagged as indexed although it
    is rejected. *)
Lemma parseOpenTofuProviderRef_IsIndex_witness :
  exists ret diags,
    ProviderRef.parseOpenTofuProviderRef ProviderFixture.indexFirst
    = Some (ret, diags)
    /\ OpenTofuProviderRef.IsIndex ret = true
    /\ diags <> [].
Proof.
  eexists _, _. split; [reflexivity|]. split; [|discriminate].
  apply (proj2 (parseOpenTofuProviderRef_IsIndex
                  ProviderFixture.indexFirst _ _ eq_refl)).
  eexists _, _, _. split; reflexivity.
Defined.

(** ** The syntax check of provider expressions *)

Section RegexpFacts.
Import Regexp.

Lemma str_app_empty (a b : string) : a +:+ b = "" -> a = "" /\ b = "".
Proof.
  destruct a as [|c a]; intros Heq.
  - change (b = "") in Heq. auto.
  - rewrite str_app_cons in Heq. discriminate Heq.
Qed.

Lemma nullable_denotes (r : re) : nullable r = true <-> denotes r "".
Proof.
  induction r as [| |p|r1 IH1 r2 IH2|r1 IH1 r2 IH2|r IH]; cbn.
  - split; [discriminate | inversion 1].
  - split; [constructor | reflexivity].
  - split; [discriminate | inversion 1].
  - rewrite andb_true_iff, IH1, IH2. split.
    + intros [H1 H2]. change "" with ("" +:+ ""). now constructor.
    + inversion 1; subst.
      match goal with
      | Heq : _ +:+ _ = "" |- _ => apply str_app_empty in Heq as [-> ->]
      end. auto.
  - rewrite orb_true_iff, IH1, IH2. split.
    + intros [?|?]; [now apply denotes_alt_l | now apply denotes_alt_r].
    + inversion 1; auto.
  - split; [constructor | reflexivity].
Qed.

Lemma deriv_sound (c : ascii) (r : re) :
  forall s, denotes (deriv c r) s -> denotes r (String c s).
Proof.
  induction r as [| |p|r1 IH1 r2 IH2|r1 IH1 r2 IH2|r IH]; cbn; intros s Hd.
  - inversion Hd.
  - inversion Hd.
  - destruct (p c) eqn:Hp; inversion Hd; subst. now constructor.
  - assert (forall s, denotes (Cat (deriv c r1) r2) s ->
                      denotes (Cat r1 r2) (String c s)) as Hcat.
    { intros s' Hs. inversion Hs as [| |? ? s1 s2 H1 H2| | | |]; subst.
      rewrite <- str_app_cons. constructor; auto. }
    destruct (nullable r1) eqn:Hn; [|auto].
    inversion Hd; subst; [auto|].
    change (String c s) with ("" +:+ String c s).
    constructor; [now apply nullable_denotes | auto].
  - inversion Hd; subst; [apply denotes_alt_l | apply denotes_alt_r]; auto.
  - inversion Hd as [| |? ? s1 s2 H1 H2| | | |]; subst.
    rewrite <- str_app_cons. constructor; auto.
Qed.

Lemma deriv_complete (r : re) (t : string) :
  denotes r t -> forall c s, t = String c s -> denotes (deriv c r) s.
Proof.
  induction 1 as [|p c0 Hp|r1 r2 s1 s2 H1 IH1 H2 IH2|r1 r2 s0 H1 IH1
                 |r1 r2 s0 H2 IH2|r|r s1 s2 H1 IH1 H2 IH2];
    intros c s Heq; cbn.
  - discriminate.
  - injection Heq as -> <-. rewrite Hp. constructor.
  - destruct s1 as [|c1 s1'].
    + change (s2 = String c s) in Heq. apply nullable_denotes in H1.
      rewrite H1.
      apply denotes_alt_r. now apply IH2.
    + rewrite str_app_cons in Heq. injection Heq as -> <-.
      assert (denotes (Cat (deriv c r1) r2) (s1' +:+ s2)) as Hc
          by (constructor; auto).
      destruct (nullable r1); [now apply denotes_alt_l | exact Hc].
  - apply denotes_alt_l. now apply IH1.
  - apply denotes_alt_r. now apply IH2.
  - discriminate.
  - destruct s1 as [|c1 s1'].
    + change (s2 = String c s) in Heq. now apply IH2.
    + rewrite str_app_cons in Heq. injection Heq as -> <-.
      constructor; auto.
Qed.

(** The matcher decides the texts a pattern denotes. *)
Lemma matches_denotes (s : string) :
  forall r, matches r s = true <-> denotes r s.
Proof.
  induction s as [|c s IH]; intros r; cbn.
  - apply nullable_denotes.
  - rewrite IH. split; [apply deriv_sound|].
    intros Hd. now apply (deriv_complete r (String c s)).
Qed.

Lemma denotes_cat (r1 r2 : re) (s : string) :
  denotes (Cat r1 r2) s
  <-> exists s1 s2, s = s1 +:+ s2 /\ denotes r1 s1 /\ denotes r2 s2.
Proof.
  split.
  - inversion 1; subst. eauto.
  - intros (s1 & s2 & -> & H1 & H2). now constructor.
Qed.

Lemma denotes_lit (c : ascii) (s : string) :
  denotes (Lit c) s <-> s = String c "".
Proof.
  unfold Lit. split.
  - inversion 1 as [|? ? Hp| | | | |]; subst.
    apply Ascii.eqb_eq in Hp. now subst.
  - intros ->. constructor. apply Ascii.eqb_refl.
Qed.

Lemma denotes_star_class (p : ascii -> bool) (s : string) :
  denotes (Star (Class p)) s <-> allBytes p s = true.
Proof.
  split.
  - remember (Star (Class p)) as r eqn:Hr. intros Hd.
    induction Hd as [| | | | | |r0 s1 s2 H1 _ H2 IH2]; try discriminate Hr.
    + reflexivity.
    + injection Hr as ->. inversion H1 as [|? c Hp| | | | |]; subst.
      rewrite str_app_cons. cbn. rewrite Hp. now apply IH2.
  - induction s as [|c s IH]; cbn; [constructor|].
    intros Hp. apply andb_true_iff in Hp as [Hc Hs].
    change (String c s) with (String c "" +:+ s).
    constructor; [now constructor | auto].
Qed.

Lemma denotes_plus_class (p : ascii -> bool) (s : string) :
  denotes (Plus (Class p)) s <-> s <> "" /\ allBytes p s = true.
Proof.
  unfold Plus. rewrite denotes_cat. split.
  - intros (s1 & s2 & -> & H1 & H2).
    inversion H1 as [|? c Hp| | | | |]; subst.
    apply denotes_star_class in H2. rewrite str_app_cons. cbn.
    split; [discriminate | now rewrite Hp].
  - destruct s as [|c s]; [intros [Hne _]; now contradiction Hne|].
    cbn [allBytes]. intros [_ Hp]. apply andb_true_iff in Hp as [Hc Hs].
    exists (String c ""), s. split; [reflexivity|].
    split; [now constructor | now apply denotes_star_class].
Qed.

(** X4: an expression passes the syntax check exactly when it reads
    [name.alias[index]]: two non-empty words of letters, digits, underscores
    and hyphens joined by a dot, then a bracketed text without line feed
    that runs to the last byte. *)
Theorem isOpenTofuProviderSyntax_spec (providerExpr : string) :
  isOpenTofuProviderSyntax providerExpr = true
  <-> exists name alias index,
      providerExpr = name +:+ "." +:+ alias +:+ "[" +:+ index +:+ "]"
      /\ name <> "" /\ allBytes nameByte name = true
      /\ alias <> "" /\ allBytes nameByte alias = true
      /\ allBytes notNewline index = true.
Proof.
  unfold isOpenTofuProviderSyntax, openTofuPattern.
  rewrite matches_denotes. split.
  - intros Hd.
    apply denotes_cat in Hd as (name & t1 & -> & Hname & Hd).
    apply denotes_cat in Hd as (dot & t2 & -> & Hdot & Hd).
    apply denotes_cat in Hd as (alias & t3 & -> & Halias & Hd).
    apply denotes_cat in Hd as (open & t4 & -> & Hopen & Hd).
    apply denotes_cat in Hd as (index & close & -> & Hindex & Hclose).
    apply denotes_lit in Hdot, Hopen, Hclose. subst.
    apply denotes_plus_class in Hname as [? ?], Halias as [? ?].
    apply denotes_star_class in Hindex.
    exists name, alias, index. auto 10.
  - intros (name & alias & index & -> & Hn & Hnb & Ha & Hab & Hi).
    apply denotes_cat. exists name. eexists. split; [reflexivity|].
    split; [now apply denotes_plus_class|].
    apply denotes_cat. exists ".". eexists. split; [reflexivity|].
    split; [now apply denotes_lit|].
    apply denotes_cat. exists alias. eexists. split; [reflexivity|].
    split; [now apply denotes_plus_class|].
    apply denotes_cat. exists "[". eexists. split; [reflexivity|].
    split; [now apply denotes_lit|].
    apply denotes_cat. exists index, "]". split; [reflexivity|].
    split; [now apply denotes_star_class | now apply denotes_lit].
Qed.

End RegexpFacts.

(** The two expressions of the source's comment pass; a plain alias, an
    index without alias and a text after the bracket do not. *)
Example test_isOpenTofuProviderSyntax :
  map Regexp.isOpenTofuProviderSyntax
      ["awsutils.by_region[each.key]"; "aws.region[var.region]";
       "aws.west"; "aws[0]"; "aws.west[0].x"; ".west[0]"; "aws.west[]"]
  = [true; true; false; false; false; false; true].
Proof. reflexivity. Qed.

(** ** Stack definition files: reading and conversion *)

Section StackFileFacts.
Context {hp : HclPackages}.
Variable yaml_Unmarshal : string -> result StackDefinitionFile.t.
Variable uniqueStrings : list string -> list string.
Import StackFile.

(** X5: a definition that [ParseStackDefinitionFile] returns has passed the
    validation: its version is 1, it has a stack, the names of its stacks
    are distinct and every stack is well formed; one line is logged.  A
    failure logs nothing. *)
Theorem ParseStackDefinitionFile_valid (path : string) :
  (forall def w,
      ParseStackDefinitionFile yaml_Unmarshal path = (Ok def, w) ->
      StackDefinitionFile.Version def = 1%Z
      /\ StackDefinitionFile.Stacks def <> []
      /\ NoDup (StackDefinition.names (StackDefinitionFile.Stacks def))
      /\ Forall StackDefinition.wellFormed (StackDefinitionFile.Stacks def)
      /\ length w = 1%nat)
  /\ (forall msg w,
         ParseStackDefinitionFile yaml_Unmarshal path = (Err msg, w) ->
         w = []).
Proof.
  unfold ParseStackDefinitionFile. split.
  - intros def w Hp.
    destruct (os_notExist path); [discriminate|].
    destruct (os_ReadFile path) as [data|]; [|discriminate].
    destruct (yaml_Unmarshal data) as [stackDef|]; [|discriminate].
    destruct (StackDefinition.ValidateStackDefinition stackDef) eqn:Hv;
      [discriminate|].
    injection Hp as <- <-. unfold StackDefinition.ValidateStackDefinition in Hv.
    destruct (Z.eqb_spec (StackDefinitionFile.Version stackDef) 1)
      as [Hversion|]; [|discriminate].
    destruct (StackDefinitionFile.Stacks stackDef) as [|stack rest] eqn:Hs;
      [discriminate|].
    cbn [negb length Nat.eqb] in Hv.
    apply validateStacks_None in Hv as (Hwf & Hnd & _).
    repeat split; auto; discriminate.
  - intros msg w Hp.
    destruct (os_notExist path); [now injection Hp|].
    destruct (os_ReadFile path) as [data|]; [|now injection Hp].
    destruct (yaml_Unmarshal data) as [stackDef|]; [|now injection Hp].
    destruct (StackDefinition.ValidateStackDefinition stackDef);
      [now injection Hp | discriminate].
Qed.

(** X6: the conversion of external stacks keeps their number, order, names
    and module lists, and marks each stack as coming from the external
    file; it reads neither the repository root nor the include and exclude
    patterns, which do not reach the converted stacks. *)
Theorem ConvertExternalStacksToStacks_fields
        (externalStacks : list ExternalStackConfig.t) (gitRoot : string) :
  map Stack.Name (ConvertExternalStacksToStacks externalStacks gitRoot)
  = map ExternalStackConfig.Name externalStacks
  /\ map Stack.Modules (ConvertExternalStacksToStacks externalStacks gitRoot)
     = map ExternalStackConfig.Modules externalStacks
  /\ Forall (fun stack => Stack.Source stack = "external-file")
            (ConvertExternalStacksToStacks externalStacks gitRoot)
  /\ forall others gitRoot',
      Forall2 (fun a b =>
                 ExternalStackConfig.Name a = ExternalStackConfig.Name b
                 /\ ExternalStackConfig.Description a
                    = ExternalStackConfig.Description b
                 /\ ExternalStackConfig.Modules a = ExternalStackConfig.Modules b
                 /\ ExternalStackConfig.DependsOn a
                    = ExternalStackConfig.DependsOn b
                 /\ ExternalStackConfig.Atlantis a
                    = ExternalStackConfig.Atlantis b)
              externalStacks others ->
      ConvertExternalStacksToStacks others gitRoot'
      = ConvertExternalStacksToStacks externalStacks gitRoot.
Proof.
  repeat split.
  - induction externalStacks as [|e rest IH]; cbn; [reflexivity | now rewrite IH].
  - induction externalStacks as [|e rest IH]; cbn; [reflexivity | now rewrite IH].
  - induction externalStacks as [|e rest IH]; cbn; constructor; auto.
  - intros others gitRoot' Hall.
    induction Hall as [|a b l l' (Hn & Hd & Hm & Hdep & Hat) _ IH];
      [reflexivity|].
    cbn. rewrite IH. f_equal. unfold convertExternal.
    now rewrite Hn, Hd, Hm, Hdep, Hat.
Qed.

Lemma recordDependencies_lookup (stacks : list Stack.t) :
  forall (m : gmap string (list string)) (name : string),
    name ∉ map Stack.Name stacks ->
    recordDependencies uniqueStrings stacks m !! name = m !! name.
Proof.
  induction stacks as [|stack rest IH]; intros m name Hn; [reflexivity|].
  cbn [recordDependencies]. cbn in Hn.
  apply not_elem_of_cons in Hn as [Hne Hn].
  rewrite IH by assumption. now apply lookup_insert_ne.
Qed.

(** X7: the dependency map has exactly the stack names as keys; a name maps
    to the unique dependencies of the last stack of that name, and the
    project map given is not read. *)
Theorem FindStackDependencies_lookup (stacks : list Stack.t)
        (projectMap : gmap string (list string)) :
  (forall name,
      name ∉ map Stack.Name stacks ->
      FindStackDependencies uniqueStrings stacks projectMap !! name = None)
  /\ (forall pre stack post,
         stacks = pre ++ stack :: post ->
         Stack.Name stack ∉ map Stack.Name post ->
         FindStackDependencies uniqueStrings stacks projectMap
           !! Stack.Name stack
         = Some (uniqueStrings (Stack.Dependencies stack))).
Proof.
  unfold FindStackDependencies. split.
  - intros name Hn. now rewrite recordDependencies_lookup.
  - intros pre stack post -> Hlast.
    generalize (∅ : gmap string (list string)).
    induction pre as [|s pre IH]; intros m.
    + cbn [app recordDependencies].
      rewrite recordDependencies_lookup by assumption.
      now rewrite lookup_insert_eq.
    + cbn [app recordDependencies]. apply IH.
Qed.

End StackFileFacts.

(** X5 at an instance: the definition file of the tests. *)
Lemma ParseStackDefinitionFile_valid_witness :
  StackFile.ParseStackDefinitionFile (hp := DefinitionFixture.packages)
    DefinitionFixture.unmarshal DefinitionFixture.definitionPath
  = (Ok DefinitionFixture.definition,
     ["Loaded 1 stack definition(s) from /repo/atlantis-stacks.yaml"])
  /\ NoDup (StackDefinition.names
              (StackDefinitionFile.Stacks DefinitionFixture.definition)).
Proof.
  split; [reflexivity|].
  apply (proj1 (ParseStackDefinitionFile_valid
                  (hp := DefinitionFixture.packages)
                  DefinitionFixture.unmarshal DefinitionFixture.definitionPath)
           DefinitionFixture.definition
           ["Loaded 1 stack definition(s) from /repo/atlantis-stacks.yaml"]
           eq_refl).
Defined.

(** X6 at an instance: a stack given by patterns is converted to a stack
    without modules, like the stack without the patterns. *)
Lemma ConvertExternalStacksToStacks_fields_witness :
  StackFile.ConvertExternalStacksToStacks
    [Fixtures.stackOf "production" ["environments/production/**"]
                      ["environments/production/experimental/**"] []] "/repo"
  = StackFile.ConvertExternalStacksToStacks
      [Fixtures.stackOf "production" [] [] []] "/elsewhere".
Proof.
  apply (proj2 (proj2 (proj2 (ConvertExternalStacksToStacks_fields
                                [Fixtures.stackOf "production" [] [] []]
                                "/elsewhere")))).
  repeat constructor.
Defined.

(** X7 at an instance: two stacks of one name. *)
Lemma FindStackDependencies_lookup_witness :
  StackFile.FindStackDependencies DefinitionFixture.unique
    (StackFile.ConvertExternalStacksToStacks
       [Fixtures.stackOf "app" [] [] ["a"]; Fixtures.stackOf "app" [] [] ["b"]]
       "/repo") ∅ !! "app"
  = Some [].
Proof.
  apply (proj2 (FindStackDependencies_lookup DefinitionFixture.unique _ ∅)
           [StackFile.convertExternal (Fixtures.stackOf "app" [] [] ["a"])]
           (StackFile.convertExternal (Fixtures.stackOf "app" [] [] ["b"]))
           []).
  - reflexivity.
  - apply not_elem_of_nil.
Defined.

(** ** The stack manager *)

Section ManagerFacts.
Variable uniqueStrings : list string -> list string.
Import Manager.

Lemma assignModules_none (sm : StackManager.t) (stack : Stack.t)
      (modules : list string) :
  forall st, assignModules sm stack modules st = st.
Proof.
  induction modules as [|module rest IH]; intros [a m]; [reflexivity|].
  cbn [assignModules moduleMatchesStack]. apply IH.
Qed.

Lemma assignStacks_none (sm : StackManager.t) (stacks : list Stack.t)
      (modules : list string) :
  forall st, assignStacks sm stacks modules st = st.
Proof.
  induction stacks as [|stack rest IH]; intros st; [reflexivity|].
  cbn [assignStacks]. now rewrite assignModules_none.
Qed.

Lemma AssignModulesToStacks_eq (sm : StackManager.t) (modules : list string) :
  AssignModulesToStacks sm modules
  = (Ok ∅,
     {| StackManager.config := StackManager.config sm;
        StackManager.stacks := StackManager.stacks sm;
        StackManager.moduleToStacks := StackManager.moduleToStacks sm;
        StackManager.stackToModules := ∅ |}).
Proof. unfold AssignModulesToStacks. now rewrite assignStacks_none. Qed.

(** X8: whatever the stacks of the manager and the modules given,
    [AssignModulesToStacks] returns the empty assignment without error,
    leaves the module-to-stacks map as it was and replaces the
    stack-to-modules map by the empty map. *)
Theorem AssignModulesToStacks_assigns_nothing (sm : StackManager.t)
        (modules : list string) :
  fst (AssignModulesToStacks sm modules) = Ok ∅
  /\ StackManager.stackToModules (snd (AssignModulesToStacks sm modules)) = ∅
  /\ StackManager.moduleToStacks (snd (AssignModulesToStacks sm modules))
     = StackManager.moduleToStacks sm
  /\ StackManager.stacks (snd (AssignModulesToStacks sm modules))
     = StackManager.stacks sm.
Proof.
  rewrite AssignModulesToStacks_eq. auto.
Qed.

Lemma dependencyModules_spec (sm : StackManager.t) (deps : list string)
      (m : string) :
  m ∈ StackProject.dependencyModules sm deps
  <-> exists dep modules,
      dep ∈ deps /\ StackManager.stackToModules sm !! dep = Some modules
      /\ m ∈ modules.
Proof.
  induction deps as [|dep rest IH]; cbn [StackProject.dependencyModules].
  - split; [intros Hm; now apply elem_of_nil in Hm|].
    intros (dep & modules & Hd & _). now apply elem_of_nil in Hd.
  - destruct (StackManager.stackToModules sm !! dep) as [modules|] eqn:Hl.
    + rewrite elem_of_app, IH. split.
      * intros [Hm|(d & ms & Hd & Hs & Hm)].
        -- exists dep, modules. split; [left|]; auto.
        -- exists d, ms. split; [now right|]; auto.
      * intros (d & ms & Hd & Hs & Hm).
        apply elem_of_cons in Hd as [->|Hd]; [left; congruence | right; eauto].
    + rewrite IH. split.
      * intros (d & ms & Hd & Hs & Hm). exists d, ms. split; [now right|]; auto.
      * intros (d & ms & Hd & Hs & Hm).
        apply elem_of_cons in Hd as [->|Hd]; [congruence | eauto].
Qed.

(** X9: the project of a stack lies in the current directory, and its
    watch list is the unique form of a list that holds the four base
    patterns and the modules recorded for the stacks it depends on; a
    dependency without entry in the stack-to-modules map adds nothing, and
    the stack's own modules are not added. *)
Theorem GenerateStackProject_watch_list (sm : StackManager.t)
        (stack : Stack.t) :
  exists project watched,
    StackProject.GenerateStackProject uniqueStrings sm stack = Ok project
    /\ AtlantisProject.Dir project = "."
    /\ AutoplanConfig.WhenModified (AtlantisProject.Autoplan project)
       = uniqueStrings watched
    /\ forall m,
        m ∈ watched
        <-> m ∈ ["*.hcl"; "*.tf*"; "**/*.hcl"; "**/*.tf*"]
            \/ exists dep modules,
                dep ∈ Stack.Dependencies stack
                /\ StackManager.stackToModules sm !! dep = Some modules
                /\ m ∈ modules.
Proof.
  eexists _, _. split; [reflexivity|]. split; [reflexivity|].
  split; [reflexivity|]. intros m.
  now rewrite elem_of_app, dependencyModules_spec.
Qed.

End ManagerFacts.

(** ** The search for stack marker files *)

Section SearchFacts.
Variable entriesUnder : string -> list WalkVisit.t.
Import StackSearch.

Lemma Walk_readable (visits : list WalkVisit.t) :
  Forall (fun visit => WalkVisit.err visit = None) visits ->
  forall stackFiles,
    Walk visits collectStackFile stackFiles
    = (None,
       stackFiles ++ map WalkVisit.path (List.filter isStackFile visits)).
Proof.
  induction 1 as [|visit rest Hv _ IH]; intros stackFiles.
  - cbn. now rewrite app_nil_r.
  - cbn [Walk List.filter]. unfold collectStackFile, isStackFile.
    rewrite Hv. destruct (WalkVisit.IsDir visit); cbn [negb andb].
    + apply IH.
    + destruct (String.eqb _ _); rewrite IH; [|reflexivity].
      cbn [map]. now rewrite <- app_assoc.
Qed.

Lemma Walk_unreadable (pre post : list WalkVisit.t) (visit : WalkVisit.t)
      (e : string) :
  Forall (fun visit => WalkVisit.err visit = None) pre ->
  WalkVisit.err visit = Some e ->
  forall stackFiles,
    fst (Walk (pre ++ visit :: post) collectStackFile stackFiles) = Some e.
Proof.
  intros Hpre He. induction Hpre as [|v rest Hv _ IH]; intros stackFiles.
  - cbn [app Walk]. unfold collectStackFile. now rewrite He.
  - cbn [app Walk]. unfold collectStackFile at 1. rewrite Hv.
    destruct (WalkVisit.IsDir v); [apply IH|].
    destruct (String.eqb _ _); apply IH.
Qed.

(** X11: when every entry under the root can be read, the search returns
    the paths of the entries that are no directory and bear the marker's
    name, in the order of the walk; at the first unreadable entry it fails
    with that entry's error and returns no path, also for the marker files
    met before. *)
Theorem FindStackHclFiles_all_or_nothing (rootDir : string) :
  (Forall (fun visit => WalkVisit.err visit = None) (entriesUnder rootDir) ->
   FindStackHclFiles entriesUnder rootDir
   = Ok (map WalkVisit.path
             (List.filter isStackFile (entriesUnder rootDir))))
  /\ (forall pre visit post e,
         entriesUnder rootDir = pre ++ visit :: post ->
         Forall (fun visit => WalkVisit.err visit = None) pre ->
         WalkVisit.err visit = Some e ->
         FindStackHclFiles entriesUnder rootDir
         = Err ("failed to search for stack HCL files: " +:+ e)).
Proof.
  unfold FindStackHclFiles. split.
  - intros Hall. now rewrite Walk_readable.
  - intros pre visit post e -> Hpre He.
    pose proof (Walk_unreadable pre post visit e Hpre He []) as Hw.
    destruct (Walk _ _ _) as [[e'|] files]; cbn in Hw; congruence.
Qed.

End SearchFacts.

(** X11 at two instances: a readable tree, and a tree with an unreadable
    directory after a marker file. *)
Lemma FindStackHclFiles_all_or_nothing_witness :
  StackSearch.FindStackHclFiles SearchFixture.readable "/repo"
  = Ok ["/repo/env/prod/terragrunt.stack.hcl";
        "/repo/env/staging/terragrunt.stack.hcl"]
  /\ StackSearch.FindStackHclFiles SearchFixture.locked "/repo"
     = Err "failed to search for stack HCL files: open /repo/secret: permission denied".
Proof.
  split.
  - apply (proj1 (FindStackHclFiles_all_or_nothing SearchFixture.readable
                    "/repo")).
    repeat constructor.
  - apply (proj2 (FindStackHclFiles_all_or_nothing SearchFixture.locked
                    "/repo")
             [SearchFixture.entry "/repo" "repo" true;
              SearchFixture.entry "/repo/terragrunt.stack.hcl"
                                  "terragrunt.stack.hcl" false]
             (SearchFixture.unreadable "/repo/secret")
             [SearchFixture.entry "/repo/z/terragrunt.stack.hcl"
                                  "terragrunt.stack.hcl" false]).
    + reflexivity.
    + repeat constructor.
    + reflexivity.
Defined.

(** ** Stacks of marker files *)

Section MarkerStackFacts.
Context {fp : Filepath} {hp : HclPackages}.
Variable uniqueStrings : list string -> list string.
Import StackHcl.

Lemma unitPathsOf_length (stackDir gitRoot : string)
      (units : list UnitBlock.t) :
  length (fst (unitPathsOf stackDir gitRoot units))
  = length (List.filter hasLocation units).
Proof.
  induction units as [|unit rest IH]; [reflexivity|].
  cbn [unitPathsOf List.filter]. unfold hasLocation at 1.
  destruct (unitPathsOf stackDir gitRoot rest) as [paths w'].
  cbn [fst] in IH.
  destruct (UnitBlock.Path unit) as [p|], (UnitBlock.Source unit) as [src|];
    try (destruct (os_notExist _); [destruct (String.eqb _ _)|]);
    cbn; now rewrite IH.
Qed.

Lemma ConvertStackHclToStacks_lookup
      (definitions : list StackHclDefinition.t) (gitRoot : string) (i : nat) :
  fst (ConvertStackHclToStacks definitions gitRoot) !! i
  = (fun def => fst (convertOne def gitRoot)) <$> definitions !! i.
Proof.
  revert i. induction definitions as [|def rest IH]; intros i; [reflexivity|].
  cbn [ConvertStackHclToStacks].
  destruct (convertOne def gitRoot) as [stack w] eqn:Hc.
  destruct (ConvertStackHclToStacks rest gitRoot) as [stacks w'].
  destruct i as [|i]; cbn; [now rewrite Hc | apply IH].
Qed.

(** X12: the conversion yields one stack per definition, in order; the
    stack of a definition has one module per unit that gives a path or a
    source, the units with neither being left out; it declares no
    dependency and no execution order. *)
Theorem ConvertStackHclToStacks_modules
        (definitions : list StackHclDefinition.t) (gitRoot : string) :
  length (fst (ConvertStackHclToStacks definitions gitRoot))
  = length definitions
  /\ forall i def,
      definitions !! i = Some def ->
      exists stack,
        fst (ConvertStackHclToStacks definitions gitRoot) !! i = Some stack
        /\ length (Stack.Modules stack)
           = length (List.filter hasLocation (StackHclDefinition.Units def))
        /\ Stack.Dependencies stack = []
        /\ Stack.ExecutionOrder stack = 0%Z
        /\ Stack.Source stack = "terragrunt.stack.hcl".
Proof.
  split.
  - induction definitions as [|def rest IH]; [reflexivity|].
    cbn [ConvertStackHclToStacks].
    destruct (convertOne def gitRoot) as [stack w].
    destruct (ConvertStackHclToStacks rest gitRoot) as [stacks w'].
    cbn in *. now rewrite IH.
  - intros i def Hi. rewrite ConvertStackHclToStacks_lookup, Hi. cbn.
    eexists. split; [reflexivity|]. unfold convertOne.
    pose proof (unitPathsOf_length
                  (filepath_Dir (StackHclDefinition.FilePath def)) gitRoot
                  (StackHclDefinition.Units def)) as Hl.
    destruct (unitPathsOf _ gitRoot (StackHclDefinition.Units def))
      as [paths w]. cbn in *. auto.
Qed.

(** X13: the project generated for a stack of a marker file has no
    workflow, workspace or terraform version, has autoplan switched off,
    carries none of the optional fields and watches the unique form of the
    four base patterns only, whatever the manager holds. *)
Theorem marker_stack_project (definitions : list StackHclDefinition.t)
        (gitRoot : string) (sm : StackManager.t) (stack : Stack.t) :
  stack ∈ fst (ConvertStackHclToStacks definitions gitRoot) ->
  exists project,
    StackProject.GenerateStackProject uniqueStrings sm stack = Ok project
    /\ AtlantisProject.Workflow project = ""
    /\ AtlantisProject.Workspace project = ""
    /\ AtlantisProject.TerraformVersion project = ""
    /\ AutoplanConfig.Enabled (AtlantisProject.Autoplan project) = false
    /\ AutoplanConfig.WhenModified (AtlantisProject.Autoplan project)
       = uniqueStrings ["*.hcl"; "*.tf*"; "**/*.hcl"; "**/*.tf*"]
    /\ AtlantisProject.ApplyRequirements project = None
    /\ AtlantisProject.ExecutionOrderGroup project = None
    /\ AtlantisProject.DependsOn project = [].
Proof.
  intros Hin. apply list_elem_of_lookup in Hin as [i Hi].
  rewrite ConvertStackHclToStacks_lookup in Hi.
  destruct (definitions !! i) as [def|]; [|discriminate].
  injection Hi as <-. unfold convertOne.
  destruct (unitPathsOf _ gitRoot (StackHclDefinition.Units def)) as [paths w].
  eexists. split; [reflexivity|]. cbn. auto 10.
Qed.

(** X14: [ParseStackHclFile] logs at most one warning, and only when it
    succeeds with a stack block; the definition it returns carries the path
    it was given. *)
Theorem ParseStackHclFile_log (path : string) (ctx : ParsingContext) :
  (length (snd (ParseStackHclFile path ctx)) <= 1)%nat
  /\ (forall msg, fst (ParseStackHclFile path ctx) = Err msg ->
                  snd (ParseStackHclFile path ctx) = [])
  /\ (forall def,
         fst (ParseStackHclFile path ctx) = Ok def ->
         StackHclDefinition.FilePath def = path
         /\ (StackHclDefinition.StackBlock def = None ->
             snd (ParseStackHclFile path ctx) = [])).
Proof.
  unfold ParseStackHclFile.
  assert (forall msg : string,
             (length (snd (Err msg : result StackHclDefinition.t,
                           [] : list string)) <= 1)%nat
             /\ (forall msg0,
                    fst (Err msg : result StackHclDefinition.t,
                         [] : list string) = Err msg0 ->
                    snd (Err msg : result StackHclDefinition.t,
                         [] : list string) = [])
             /\ (forall def,
                    fst (Err msg : result StackHclDefinition.t,
                         [] : list string) = Ok def ->
                    StackHclDefinition.FilePath def = path
                    /\ (StackHclDefinition.StackBlock def = None ->
                        snd (Err msg : result StackHclDefinition.t,
                             [] : list string) = []))) as Hfail.
  { intros msg. cbn. split; [lia|]. split; [reflexivity | discriminate]. }
  destruct (os_notExist path); [apply Hfail|].
  destruct (os_ReadFile path) as [configString|]; [|apply Hfail].
  destruct (parseHclForStack configString path) as [file|]; [|apply Hfail].
  destruct (createTerragruntEvalContext ctx path) as [evalContext|];
    [|apply Hfail].
  destruct (DecodeBody file evalContext) as [parsed|]; [|apply Hfail].
  unfold selectStackBlock.
  destruct (ParsedStackHcl.Stacks parsed) as [|first [|second others]];
    cbn [fst snd length Nat.ltb Nat.leb];
    (split; [lia|]); (split; [discriminate|]);
    intros def [= <-]; (split; [reflexivity|]);
    cbn [StackHclDefinition.StackBlock]; intros Hnone;
    (reflexivity || discriminate Hnone).
Qed.

End MarkerStackFacts.

(** X13 at an instance: the stack of the marker file of the directory
    [prod]. *)
Lemma marker_stack_project_witness :
  exists stack project,
    stack ∈ fst (StackHcl.ConvertStackHclToStacks (fp := unixFilepath)
                   (hp := MarkerFixture.packages) [MarkerFixture.unitsOnly]
                   "/repo")
    /\ Stack.Modules stack = ["env/prod/vpc"]
    /\ StackProject.GenerateStackProject DefinitionFixture.unique
         (Manager.NewStackManager
            {| StackManagerConfig.GitRoot := "/repo";
               StackManagerConfig.DefinitionFile := "";
               StackManagerConfig.InferFromDir := false;
               StackManagerConfig.DirectoryDepth := 0;
               StackManagerConfig.AllowMultiStack := false;
               StackManagerConfig.StackMarkerFile := "terragrunt.stack.hcl";
               StackManagerConfig.ValidateCoverage := false |}) stack
       = Ok project
    /\ AutoplanConfig.Enabled (AtlantisProject.Autoplan project) = false
    /\ AtlantisProject.DependsOn project = [].
Proof.
  eexists.
  destruct (marker_stack_project (fp := unixFilepath)
              (hp := MarkerFixture.packages) DefinitionFixture.unique
              [MarkerFixture.unitsOnly] "/repo"
              (Manager.NewStackManager
                 {| StackManagerConfig.GitRoot := "/repo";
                    StackManagerConfig.DefinitionFile := "";
                    StackManagerConfig.InferFromDir := false;
                    StackManagerConfig.DirectoryDepth := 0;
                    StackManagerConfig.AllowMultiStack := false;
                    StackManagerConfig.StackMarkerFile := "terragrunt.stack.hcl";
                    StackManagerConfig.ValidateCoverage := false |})
              _ (list_elem_of_here _ _))
    as (project & Hp & _ & _ & _ & He & _ & _ & _ & Hd).
  exists project. split; [apply list_elem_of_here|].
  split; [reflexivity|]. auto.
Defined.

(** X12 at an instance: a marker file with three units, one of which gives
    neither path nor source. *)
Lemma ConvertStackHclToStacks_modules_witness :
  exists stack,
    fst (StackHcl.ConvertStackHclToStacks (fp := unixFilepath)
           (hp := MarkerFixture.packages) [UnitsFixture.threeUnits] "/repo")
      !! 0%nat = Some stack
    /\ length (Stack.Modules stack) = 2%nat.
Proof.
  destruct (proj2 (ConvertStackHclToStacks_modules (fp := unixFilepath)
                     (hp := MarkerFixture.packages)
                     [UnitsFixture.threeUnits] "/repo")
              0%nat UnitsFixture.threeUnits eq_refl)
    as (stack & Hs & Hl & _).
  exists stack. split; [exact Hs | exact Hl].
Defined.

(** ** The two resolvers and the graph of local references *)

Section SourceGraphFacts.
Context {tf : Terraform}.
Import LocalSource SourceGraph.

Abbreviation resolveOpenTofu := parseTerraformLocalModuleSourceOpenTofu.
Abbreviation resolve := parseTerraformLocalModuleSource.
Abbreviation globOf q := (JoinPath q "*.tf*").

Lemma sourcesOf_elem (m : gmap string bool) (x : string) :
  x ∈ sourcesOf m <-> is_Some (m !! x).
Proof.
  unfold sourcesOf. rewrite list_elem_of_fmap. split.
  - intros ([k v] & -> & Hin). apply elem_of_map_to_list in Hin. now exists v.
  - intros [v Hv]. exists (x, v). split; [reflexivity|].
    now apply elem_of_map_to_list.
Qed.

Lemma addSources_lookup (sources : list string) :
  forall (m : gmap string bool) (key : string),
    is_Some (addSources m sources !! key)
    <-> is_Some (m !! key) \/ key ∈ sources.
Proof.
  induction sources as [|source rest IH]; intros m key; cbn.
  - rewrite elem_of_nil. tauto.
  - fold (addSources (<[source := true]> m) rest).
    rewrite IH, lookup_insert, elem_of_cons.
    destruct (decide (source = key)) as [->|Hne].
    + split; [auto|]. intros _. left. now eexists.
    + split; [tauto|]. intros [?|[?|?]]; [tauto | congruence | tauto].
Qed.

(** The keys after the loop: those before it, the globs of the local calls
    and what the recursion returned for calls that were not skipped. *)
Lemma collectSources_sound (P : string -> Prop)
      (recurse : string -> option (result (list string))) (path : string)
      (calls : list ModuleCall.t) :
  (forall mc, mc ∈ calls ->
              isLocalTerraformModuleSource (ModuleCall.Source mc) = true ->
              P (globOf (JoinPath path (ModuleCall.Source mc)))
              /\ forall s x,
                  recurse (JoinPath path (ModuleCall.Source mc)) = Some (Ok s) ->
                  x ∈ s -> P x) ->
  forall m m',
    collectSources recurse path calls m = Some (Ok m') ->
    (forall k, is_Some (m !! k) -> P k) ->
    forall k, is_Some (m' !! k) -> P k.
Proof.
  induction calls as [|mc rest IH]; intros Hcalls m m' Hc Hm.
  - injection Hc as <-. exact Hm.
  - assert (forall mc0, mc0 ∈ rest ->
                        isLocalTerraformModuleSource (ModuleCall.Source mc0)
                        = true ->
                        P (globOf (JoinPath path (ModuleCall.Source mc0)))
                        /\ forall s x,
                            recurse (JoinPath path (ModuleCall.Source mc0))
                            = Some (Ok s) -> x ∈ s -> P x) as Hrest.
    { intros mc0 Hin. apply Hcalls. now right. }
    cbn [collectSources] in Hc.
    destruct (isLocalTerraformModuleSource (ModuleCall.Source mc)) eqn:Hl;
      [|eapply IH; eauto].
    destruct (m !! _) eqn:Hg; [eapply IH; eauto|].
    destruct (recurse _) as [[subs|e]|] eqn:Hr; try discriminate Hc.
    destruct (Hcalls mc (list_elem_of_here _ _) Hl) as [Hglob Hsubs].
    eapply IH; eauto.
    intros k Hk. apply addSources_lookup in Hk as [Hk|Hk].
    + rewrite lookup_insert in Hk.
      destruct (decide _) as [<-|]; [exact Hglob | auto].
    + eapply Hsubs; eauto.
Qed.

Lemma collectSources_grows
      (recurse : string -> option (result (list string))) (path : string)
      (calls : list ModuleCall.t) :
  forall m m',
    collectSources recurse path calls m = Some (Ok m') ->
    (forall k, is_Some (m !! k) -> is_Some (m' !! k))
    /\ forall mc, mc ∈ calls ->
                  isLocalTerraformModuleSource (ModuleCall.Source mc) = true ->
                  is_Some (m' !! globOf (JoinPath path (ModuleCall.Source mc))).
Proof.
  induction calls as [|mc rest IH]; intros m m' Hc.
  - injection Hc as <-. split; [auto|].
    intros mc Hin. now apply elem_of_nil in Hin.
  - cbn [collectSources] in Hc.
    destruct (isLocalTerraformModuleSource (ModuleCall.Source mc)) eqn:Hl.
    2:{ destruct (IH _ _ Hc) as [Hkeep Hcalls]. split; [auto|].
        intros mc0 Hin Hl0. apply elem_of_cons in Hin as [->|Hin];
          [congruence | auto]. }
    destruct (m !! _) eqn:Hg.
    { destruct (IH _ _ Hc) as [Hkeep Hcalls]. split; [auto|].
      intros mc0 Hin Hl0. apply elem_of_cons in Hin as [->|Hin]; [|auto].
      apply Hkeep. now rewrite Hg. }
    destruct (recurse _) as [[subs|e]|] eqn:Hr; try discriminate Hc.
    destruct (IH _ _ Hc) as [Hkeep Hcalls].
    assert (forall k, is_Some (<[globOf (JoinPath path (ModuleCall.Source mc))
                                 := true]> m !! k) ->
                      is_Some (m' !! k)) as Hins.
    { intros k Hk. apply Hkeep, addSources_lookup. now left. }
    split.
    + intros k Hk. apply Hins. rewrite lookup_insert.
      destruct (decide _); [now eexists | exact Hk].
    + intros mc0 Hin Hl0. apply elem_of_cons in Hin as [->|Hin]; [|auto].
      apply Hins. rewrite lookup_insert_eq. now eexists.
Qed.

Lemma reaches_trans (a b c : string) :
  reaches a b -> reaches b c -> reaches a c.
Proof.
  induction 1 as [p q Hq|p q r Hq _ IH]; intros Hc.
  - eapply reaches_through; eauto.
  - eapply reaches_through; eauto.
Qed.

(** The loop of either resolver over the calls of a module that loads: its
    patterns are the globs of the modules called and what the recursion
    returned for them. *)
Lemma resolveCalls_sound
      (recurse : string -> option (result (list string))) (p : string)
      (sources : list string) :
  HasErrors (snd (LoadModule p)) = false ->
  (forall q1 s, recurse q1 = Some (Ok s) ->
                forall x, x ∈ s ->
                          x = "*.tf*" \/ exists q, reaches q1 q /\ x = globOf q) ->
  resolveCalls recurse p (fst (LoadModule p)) = Some (Ok sources) ->
  forall x, x ∈ sources ->
            x = "*.tf*" \/ exists q, reaches p q /\ x = globOf q.
Proof.
  intros He Hrec Hf x Hx.
  pose proof (fun mc => localReferences_call p mc He) as Href.
  unfold resolveCalls in Hf.
  destruct (collectSources _ p _ ∅) as [[m'|e]|] eqn:Hc; try discriminate Hf.
  injection Hf as <-. apply sourcesOf_elem in Hx.
  revert x Hx.
  eapply (collectSources_sound
            (fun x => x = "*.tf*" \/ exists q, reaches p q /\ x = globOf q));
    [|exact Hc|].
  - intros mc Hin Hl. specialize (Href mc Hin Hl). split.
    + right. eexists. split; [apply reaches_direct, Href | reflexivity].
    + intros s x Hs Hx.
      destruct (Hrec _ _ Hs _ Hx) as [->|(q & Hq & ->)]; [now left|].
      right. exists q. split; [|reflexivity].
      eapply reaches_through; eauto.
  - intros k Hk. rewrite lookup_empty in Hk. now destruct Hk.
Qed.

Lemma resolveOpenTofu_sound (f : nat) :
  forall p sources,
    resolveOpenTofu f p = Some (Ok sources) ->
    forall x, x ∈ sources ->
              x = "*.tf*" \/ exists q, reaches p q /\ x = globOf q.
Proof.
  induction f as [|f IH]; intros p sources Hf; [discriminate|].
  rewrite resolveOpenTofu_step in Hf.
  pose proof (resolveCalls_sound (resolveOpenTofu f) p sources) as Hloop.
  destruct (LoadModule p) as [module diags]. cbn [fst snd] in Hloop.
  destruct (HasErrors diags) eqn:He.
  - destruct (negb _); [discriminate|]. injection Hf as <-.
    intros x Hx. apply list_elem_of_singleton in Hx. now left.
  - apply Hloop; [reflexivity | exact IH | exact Hf].
Qed.

Lemma resolve_sound (n : nat) :
  forall p sources,
    resolve n p = Some (Ok sources) ->
    forall x, x ∈ sources ->
              x = "*.tf*" \/ exists q, reaches p q /\ x = globOf q.
Proof.
  induction n as [|n IH]; intros p sources Hn; [discriminate|].
  rewrite resolve_step in Hn.
  destruct (resolveOpenTofu n p) as [[s|e]|] eqn:Hot; [| |discriminate].
  - injection Hn as <-. eapply resolveOpenTofu_sound, Hot.
  - pose proof (resolveCalls_sound (resolve n) p sources) as Hloop.
    destruct (LoadModule p) as [module diags]. cbn [fst snd] in Hloop.
    destruct (HasErrors diags) eqn:He; [discriminate|].
    apply Hloop; [reflexivity | exact IH | exact Hn].
Qed.

(** X16: every pattern a resolver returns is the fallback pattern or the
    glob of a module that the resolved module reaches through local
    references: nothing else is watched. *)
Theorem resolved_patterns_are_reachable (p : string)
        (sources : list string) (x : string) :
  (exists n, parseTerraformLocalModuleSource n p = Some (Ok sources)) ->
  x ∈ sources ->
  x = "*.tf*" \/ exists q, reaches p q /\ x = JoinPath q "*.tf*".
Proof.
  intros [n Hn] Hx. eapply resolve_sound; eauto.
Qed.

End SourceGraphFacts.

Section SourceCompleteFacts.
Context {tf : Terraform}.
Import LocalSource SourceGraph.

Abbreviation resolveOpenTofu := parseTerraformLocalModuleSourceOpenTofu.
Abbreviation resolve := parseTerraformLocalModuleSource.
Abbreviation globOf q := (JoinPath q "*.tf*").

Lemma localReferences_inv (p q : string) :
  q ∈ localReferences p ->
  HasErrors (snd (LoadModule p)) = false
  /\ exists mc,
      mc ∈ TfModule.ModuleCalls (fst (LoadModule p))
      /\ isLocalTerraformModuleSource (ModuleCall.Source mc) = true
      /\ q = JoinPath p (ModuleCall.Source mc).
Proof.
  unfold localReferences. destruct (LoadModule p) as [module diags].
  cbn [fst snd]. destruct (HasErrors diags).
  - intros Hq. now apply elem_of_nil in Hq.
  - intros Hq. split; [reflexivity|].
    apply list_elem_of_In, in_map_iff in Hq as (mc & <- & Hmc).
    apply filter_In in Hmc as [Hin Hl].
    exists mc. split; [now apply list_elem_of_In | auto].
Qed.

Lemma reaches_first (p q : string) :
  reaches p q -> exists q1, q1 ∈ localReferences p.
Proof. destruct 1; eauto. Qed.

Lemma reaches_loaded (p q : string) :
  reaches p q -> HasErrors (snd (LoadModule p)) = false.
Proof.
  intros Hq. destruct (reaches_first _ _ Hq) as [q1 Hq1].
  now destruct (localReferences_inv _ _ Hq1).
Qed.

(** The globs of the local calls of a module that loads are in the result
    of the loop of either resolver. *)
Lemma resolveCalls_direct
      (recurse : string -> option (result (list string))) (p : string)
      (module : TfModule.t) (sources : list string) :
  resolveCalls recurse p module = Some (Ok sources) ->
  forall mc, mc ∈ TfModule.ModuleCalls module ->
             isLocalTerraformModuleSource (ModuleCall.Source mc) = true ->
             globOf (JoinPath p (ModuleCall.Source mc)) ∈ sources.
Proof.
  unfold resolveCalls. intros Hf mc Hin Hl.
  destruct (collectSources _ p _ ∅) as [[m'|e]|] eqn:Hc; try discriminate Hf.
  injection Hf as <-. apply sourcesOf_elem.
  destruct (collectSources_grows _ _ _ _ _ Hc) as [_ Hdirect]. auto.
Qed.

(** The key set stays closed under the local references while the loop
    runs, when distinct reachable modules have distinct globs and none of
    them has the fallback pattern as glob. *)
Lemma collectSources_closed
      (recurse : string -> option (result (list string))) (p : string)
      (calls : list ModuleCall.t) :
  (forall q q', reaches p q -> reaches p q' -> globOf q = globOf q' -> q = q') ->
  (forall q, reaches p q -> globOf q <> "*.tf*") ->
  (forall mc, mc ∈ calls ->
              isLocalTerraformModuleSource (ModuleCall.Source mc) = true ->
              JoinPath p (ModuleCall.Source mc) ∈ localReferences p) ->
  (forall q1 subs, recurse q1 = Some (Ok subs) ->
                   forall x, x ∈ subs ->
                             x = "*.tf*" \/ exists q, reaches q1 q /\ x = globOf q) ->
  (forall q1 subs, reaches p q1 ->
                   recurse q1 = Some (Ok subs) ->
                   forall q', reaches q1 q' -> globOf q' ∈ subs) ->
  forall m m',
    collectSources recurse p calls m = Some (Ok m') ->
    (forall q q', reaches p q -> is_Some (m !! globOf q) -> reaches q q' ->
                  is_Some (m !! globOf q')) ->
    forall q q', reaches p q -> is_Some (m' !! globOf q) -> reaches q q' ->
                 is_Some (m' !! globOf q').
Proof.
  intros Hinj Hne. induction calls as [|mc rest IH];
    intros Hcalls Hsound Hsub m m' Hc Hclosed.
  - now injection Hc as <-.
  - assert (forall mc0, mc0 ∈ rest ->
                        isLocalTerraformModuleSource (ModuleCall.Source mc0)
                        = true ->
                        JoinPath p (ModuleCall.Source mc0)
                          ∈ localReferences p) as Hrest.
    { intros mc0 Hin. apply Hcalls. now right. }
    cbn [collectSources] in Hc.
    destruct (isLocalTerraformModuleSource (ModuleCall.Source mc)) eqn:Hl;
      [|eapply IH; eauto].
    destruct (m !! _) eqn:Hg; [eapply IH; eauto|].
    destruct (recurse _) as [[subs|e]|] eqn:Hr; try discriminate Hc.
    pose proof (reaches_direct _ _ (Hcalls mc (list_elem_of_here _ _) Hl))
      as Hq1.
    eapply IH; eauto.
    intros q q' Hq Hk Hqq'. apply addSources_lookup.
    apply addSources_lookup in Hk as [Hk|Hk].
    + rewrite lookup_insert in Hk. destruct (decide _) as [Heq|_].
      * right. apply (Hinj _ _ Hq1 Hq) in Heq. subst q.
        eapply Hsub; [exact Hq1 | exact Hr | exact Hqq'].
      * left. rewrite lookup_insert.
        destruct (decide _); [now eexists | eapply Hclosed; eauto].
    + right.
      destruct (Hsound _ _ Hr _ Hk) as [Hfb|(q2 & Hq2 & Heq)].
      * now apply Hne in Hfb.
      * assert (q = q2) as ->.
        { apply Hinj;
            [exact Hq | exact (reaches_trans _ _ _ Hq1 Hq2) | exact Heq]. }
        eapply Hsub;
          [exact Hq1 | exact Hr | exact (reaches_trans _ _ _ Hq2 Hqq')].
Qed.

Lemma resolveCalls_complete
      (recurse : string -> option (result (list string))) (p : string)
      (sources : list string) :
  HasErrors (snd (LoadModule p)) = false ->
  (forall q q', reaches p q -> reaches p q' -> globOf q = globOf q' -> q = q') ->
  (forall q, reaches p q -> globOf q <> "*.tf*") ->
  (forall q1 subs, recurse q1 = Some (Ok subs) ->
                   forall x, x ∈ subs ->
                             x = "*.tf*" \/ exists q, reaches q1 q /\ x = globOf q) ->
  (forall q1 subs, reaches p q1 ->
                   recurse q1 = Some (Ok subs) ->
                   forall q', reaches q1 q' -> globOf q' ∈ subs) ->
  resolveCalls recurse p (fst (LoadModule p)) = Some (Ok sources) ->
  forall q, reaches p q -> globOf q ∈ sources.
Proof.
  intros He Hinj Hne Hsound Hsub Hf q Hq.
  pose proof (resolveCalls_direct _ _ _ _ Hf) as Hdirect.
  assert (forall q1, q1 ∈ localReferences p -> globOf q1 ∈ sources) as Hfirst.
  { intros q1 Hq1. destruct (localReferences_inv _ _ Hq1)
      as (_ & mc & Hin & Hl & ->). now apply Hdirect. }
  destruct Hq as [p q Hq|p q1 r Hq1 Hr]; [now apply Hfirst|].
  specialize (Hfirst _ Hq1).
  unfold resolveCalls in Hf.
  destruct (collectSources _ p _ ∅) as [[m'|e]|] eqn:Hc; try discriminate Hf.
  injection Hf as <-. apply sourcesOf_elem. apply sourcesOf_elem in Hfirst.
  eapply (collectSources_closed recurse p _ Hinj Hne);
    [| | |exact Hc| | |exact Hfirst|exact Hr].
  - intros mc Hin Hl. now apply localReferences_call.
  - exact Hsound.
  - exact Hsub.
  - intros a b _ Ha. rewrite lookup_empty in Ha. now destruct Ha.
  - now apply reaches_direct.
Qed.

Lemma resolveOpenTofu_complete (f : nat) :
  forall p sources,
    resolveOpenTofu f p = Some (Ok sources) ->
    (forall q q', reaches p q -> reaches p q' -> globOf q = globOf q' ->
                  q = q') ->
    (forall q, reaches p q -> globOf q <> "*.tf*") ->
    forall q, reaches p q -> globOf q ∈ sources.
Proof.
  induction f as [|f IH]; intros p sources Hf Hinj Hne q Hq; [discriminate|].
  rewrite resolveOpenTofu_step in Hf.
  pose proof (reaches_loaded _ _ Hq) as He.
  pose proof (resolveCalls_complete (resolveOpenTofu f) p sources) as Hloop.
  destruct (LoadModule p) as [module diags]. cbn [fst snd] in He, Hloop.
  rewrite He in Hf.
  apply Hloop; auto.
  - exact (resolveOpenTofu_sound f).
  - intros q2 subs Hq2 Hs q' Hq'. eapply IH; eauto.
    + intros a b Ha Hb. apply Hinj; eapply reaches_trans; eauto.
    + intros a Ha. apply Hne. eapply reaches_trans; eauto.
Qed.

Lemma resolve_complete (n : nat) :
  forall p sources,
    resolve n p = Some (Ok sources) ->
    (forall q q', reaches p q -> reaches p q' -> globOf q = globOf q' ->
                  q = q') ->
    (forall q, reaches p q -> globOf q <> "*.tf*") ->
    forall q, reaches p q -> globOf q ∈ sources.
Proof.
  induction n as [|n IH]; intros p sources Hn Hinj Hne q Hq; [discriminate|].
  rewrite resolve_step in Hn.
  destruct (resolveOpenTofu n p) as [[s|e]|] eqn:Hot; [| |discriminate].
  { injection Hn as <-. eapply resolveOpenTofu_complete; eauto. }
  pose proof (reaches_loaded _ _ Hq) as He.
  pose proof (resolveCalls_complete (resolve n) p sources) as Hloop.
  destruct (LoadModule p) as [module diags]. cbn [fst snd] in He, Hloop.
  rewrite He in Hn.
  apply Hloop; auto.
  - exact (resolve_sound n).
  - intros q2 subs Hq2 Hs q' Hq'. eapply IH; eauto.
    + intros a b Ha Hb. apply Hinj; eapply reaches_trans; eauto.
    + intros a Ha. apply Hne. eapply reaches_trans; eauto.
Qed.

(** A module whose load reports errors is resolved, if at all, by the
    provider-reference fallback. *)
Lemma resolve_fallback (n : nat) (p : string) (sources : list string) :
  HasErrors (snd (LoadModule p)) = true ->
  resolve n p = Some (Ok sources) -> sources = ["*.tf*"].
Proof.
  intros He Hn. destruct n as [|[|n]]; [discriminate..|].
  rewrite resolve_step, resolveOpenTofu_step in Hn.
  destruct (LoadModule p) as [module diags]. cbn [snd] in He.
  rewrite He in Hn.
  destruct (negb _); [discriminate|]. now injection Hn as <-.
Qed.

(** X17: the resolver reads the module calls of the resolved module only
    when its configuration loads without error diagnostics.  Then a
    successful resolution holds, for each module call with a local source,
    the glob of the joined path.  When the load reports errors, a
    successful resolution is the fallback pattern alone: the module calls
    that the inspector returns beside the diagnostics are not read, and the
    modules they reference are not watched. *)
Theorem direct_references_are_watched (p : string) (sources : list string) :
  (exists n, parseTerraformLocalModuleSource n p = Some (Ok sources)) ->
  (HasErrors (snd (LoadModule p)) = false ->
   forall mc, mc ∈ TfModule.ModuleCalls (fst (LoadModule p)) ->
              isLocalTerraformModuleSource (ModuleCall.Source mc) = true ->
              JoinPath (JoinPath p (ModuleCall.Source mc)) "*.tf*" ∈ sources)
  /\ (HasErrors (snd (LoadModule p)) = true -> sources = ["*.tf*"]).
Proof.
  intros [n Hn]. split; [|intros He; eapply resolve_fallback; eauto].
  intros He mc Hin Hl. destruct n as [|n]; [discriminate|].
  rewrite resolve_step in Hn.
  destruct (resolveOpenTofu n p) as [[s|e]|] eqn:Hot; [| |discriminate].
  - injection Hn as <-. destruct n as [|n]; [discriminate|].
    rewrite resolveOpenTofu_step in Hot.
    destruct (LoadModule p) as [module diags]. cbn [fst snd] in He, Hin.
    rewrite He in Hot. eapply resolveCalls_direct; eauto.
  - destruct (LoadModule p) as [module diags]. cbn [fst snd] in He, Hin.
    rewrite He in Hn. eapply resolveCalls_direct; eauto.
Qed.

(** X18: a local reference of a module is the joined path of one of its
    module calls with a local source, and only a module whose configuration
    loads without error diagnostics has local references: the calls of a
    module resolved by the fallback are not followed.  When the modules
    reached from the resolved module along such references have pairwise
    distinct globs, none of which is the fallback pattern, a successful
    resolution holds the glob of every module so reached, also of one whose
    call was skipped because its glob was already recorded. *)
Theorem reachable_modules_are_watched (p : string) (sources : list string) :
  (exists n, parseTerraformLocalModuleSource n p = Some (Ok sources)) ->
  (forall q q', reaches p q -> reaches p q' ->
                JoinPath q "*.tf*" = JoinPath q' "*.tf*" -> q = q') ->
  (forall q, reaches p q -> JoinPath q "*.tf*" <> "*.tf*") ->
  (forall a b,
      b ∈ localReferences a
      <-> HasErrors (snd (LoadModule a)) = false
          /\ exists mc,
              mc ∈ TfModule.ModuleCalls (fst (LoadModule a))
              /\ isLocalTerraformModuleSource (ModuleCall.Source mc) = true
              /\ b = JoinPath a (ModuleCall.Source mc))
  /\ (forall q, reaches p q -> JoinPath q "*.tf*" ∈ sources).
Proof.
  intros [n Hn] Hinj Hne. split.
  - intros a b. split; [apply localReferences_inv|].
    intros (He & mc & Hin & Hl & ->). now apply localReferences_call.
  - intros q Hq. eapply resolve_complete; eauto.
Qed.

End SourceCompleteFacts.

(** The references of the repository without cycle. *)
Lemma tree_localReferences (p q : string) :
  q ∈ LocalSource.localReferences (tf := SourceFixture.tree) p ->
  (p = "/repo/app" /\ q = "/repo/modules/vpc")
  \/ (p = "/repo/modules/vpc" /\ q = "/repo/modules/vpc/subnets").
Proof.
  unfold LocalSource.localReferences. cbn [LoadModule SourceFixture.tree].
  destruct (String.eqb_spec p "/repo/app") as [->|_].
  { vm_compute. intros Hq.
    repeat (apply elem_of_cons in Hq as [->|Hq]; [now left|]).
    now apply elem_of_nil in Hq. }
  destruct (String.eqb_spec p "/repo/modules/vpc") as [->|_].
  { vm_compute. intros Hq.
    repeat (apply elem_of_cons in Hq as [->|Hq]; [now right|]).
    now apply elem_of_nil in Hq. }
  destruct (String.eqb_spec p "/repo/service") as [->|_].
  { cbn. intros Hq. now apply elem_of_nil in Hq. }
  destruct (String.eqb_spec p "/repo/opentofu") as [->|_].
  { cbn. intros Hq. now apply elem_of_nil in Hq. }
  destruct (String.eqb_spec p "/repo/broken") as [->|_].
  { cbn. intros Hq. now apply elem_of_nil in Hq. }
  cbn. intros Hq. now apply elem_of_nil in Hq.
Qed.

Lemma tree_reaches (p q : string) :
  SourceGraph.reaches (tf := SourceFixture.tree) p q ->
  (p = "/repo/app"
   /\ (q = "/repo/modules/vpc" \/ q = "/repo/modules/vpc/subnets"))
  \/ (p = "/repo/modules/vpc" /\ q = "/repo/modules/vpc/subnets").
Proof.
  induction 1 as [p q Hq|p q r Hq _ IH].
  - apply tree_localReferences in Hq as [[-> ->]|[-> ->]]; auto.
  - apply tree_localReferences in Hq as [[-> ->]|[-> ->]].
    + destruct IH as [[[=] _]|[_ ->]]. auto.
    + destruct IH as [[[=] _]|[[=] _]].
Qed.

(** X16 at an instance: a pattern of the repository without cycle. *)
Lemma resolved_patterns_are_reachable_witness :
  "/repo/modules/vpc/subnets/*.tf*" = "*.tf*"
  \/ exists q,
      SourceGraph.reaches (tf := SourceFixture.tree) "/repo/app" q
      /\ "/repo/modules/vpc/subnets/*.tf*"
         = JoinPath (Terraform := SourceFixture.tree) q "*.tf*".
Proof.
  apply (resolved_patterns_are_reachable (tf := SourceFixture.tree)
           "/repo/app"
           ["/repo/modules/vpc/subnets/*.tf*"; "/repo/modules/vpc/*.tf*"]).
  - exists 4%nat. vm_compute. reflexivity.
  - apply list_elem_of_here.
Defined.

(** X17 at two instances: the module that [app] calls twice, and a module
    resolved by the fallback whose local call is not read. *)
Lemma direct_references_are_watched_witness :
  "/repo/modules/vpc/*.tf*"
    ∈ ["/repo/modules/vpc/subnets/*.tf*"; "/repo/modules/vpc/*.tf*"]
  /\ (SourceFixture.call "vpc" "../modules/vpc"
        ∈ TfModule.ModuleCalls
            (fst (LoadModule (Terraform := FailingFixture.fallback)
                             "/repo/opentofu"))
      /\ forall sources,
          LocalSource.parseTerraformLocalModuleSource
            (tf := FailingFixture.fallback) 2 "/repo/opentofu"
          = Some (Ok sources) ->
          sources = ["*.tf*"]).
Proof.
  split; [|split].
  - apply (proj1 (direct_references_are_watched (tf := SourceFixture.tree)
                    "/repo/app"
                    ["/repo/modules/vpc/subnets/*.tf*";
                     "/repo/modules/vpc/*.tf*"]
                    (ex_intro _ 4%nat eq_refl))
                 eq_refl (SourceFixture.call "vpc" "../modules/vpc")).
    + apply list_elem_of_here.
    + reflexivity.
  - apply list_elem_of_here.
  - intros sources Hs.
    apply (proj2 (direct_references_are_watched
                    (tf := FailingFixture.fallback) "/repo/opentofu" sources
                    (ex_intro _ 2%nat Hs))).
    reflexivity.
Defined.

(** X18 at an instance: the sub-module that [app] reaches through
    [modules/vpc]. *)
Lemma reachable_modules_are_watched_witness :
  "/repo/modules/vpc/subnets/*.tf*"
    ∈ ["/repo/modules/vpc/subnets/*.tf*"; "/repo/modules/vpc/*.tf*"].
Proof.
  refine (proj2 (reachable_modules_are_watched (tf := SourceFixture.tree)
                   "/repo/app"
                   ["/repo/modules/vpc/subnets/*.tf*";
                    "/repo/modules/vpc/*.tf*"]
                   _ _ _) "/repo/modules/vpc/subnets" _).
  - exists 4%nat. vm_compute. reflexivity.
  - intros q q' Hq Hq'.
    apply tree_reaches in Hq as [[_ [->| ->]]|[[=] _]];
      apply tree_reaches in Hq' as [[_ [->| ->]]|[[=] _]];
      vm_compute; intros Heq; (reflexivity || discriminate Heq).
  - intros q Hq.
    apply tree_reaches in Hq as [[_ [->| ->]]|[[=] _]];
      vm_compute; discriminate.
  - eapply SourceGraph.reaches_through.
    + vm_compute. apply list_elem_of_here.
    + apply SourceGraph.reaches_direct. vm_compute. apply list_elem_of_here.
Defined.

(** The module resolved by the fallback: its local call is returned by the
    inspector, the resolver answers with the fallback pattern alone. *)
Example resolve_fallback_module :
  LocalSource.parseTerraformLocalModuleSource
    (tf := FailingFixture.fallback) 2 "/repo/opentofu" = Some (Ok ["*.tf*"])
  /\ LocalSource.localReferences (tf := FailingFixture.fallback)
       "/repo/opentofu" = [].
Proof. split; reflexivity. Qed.

(** ** Validation and matching together *)

Section ValidationMatchFacts.
Context {fp : Filepath}.
Import StackDefinition StackMatch.

Lemma validateStacks_frame (l l' : list ExternalStackConfig.t) :
  Forall2 (fun a b =>
             ExternalStackConfig.Name a = ExternalStackConfig.Name b
             /\ ExternalStackConfig.Include a = ExternalStackConfig.Include b
             /\ (ExternalStackConfig.Modules a = []
                 <-> ExternalStackConfig.Modules b = [])) l l' ->
  forall i m, validateStacks i l m = validateStacks i l' m.
Proof.
  induction 1 as [|a b l l' (Hn & Hi & Hm) _ IH]; intros i m; [reflexivity|].
  cbn [validateStacks]. rewrite Hn, Hi, IH.
  replace (length (ExternalStackConfig.Modules a) =? 0)%nat
    with (length (ExternalStackConfig.Modules b) =? 0)%nat; [reflexivity|].
  destruct (ExternalStackConfig.Modules a), (ExternalStackConfig.Modules b);
    try reflexivity.
  - now destruct (proj1 Hm eq_refl).
  - now destruct (proj2 Hm eq_refl).
Qed.

(** X19: the verdict of the validation depends on the version, on the
    number and names of the stacks, on their include patterns and on
    whether their module lists are empty, and on nothing else: the entries
    of the module lists, the exclude patterns, the dependencies and the
    Atlantis settings are not examined. *)
Theorem ValidateStackDefinition_reads (def def' : StackDefinitionFile.t) :
  StackDefinitionFile.Version def = StackDefinitionFile.Version def' ->
  Forall2 (fun a b =>
             ExternalStackConfig.Name a = ExternalStackConfig.Name b
             /\ ExternalStackConfig.Include a = ExternalStackConfig.Include b
             /\ (ExternalStackConfig.Modules a = []
                 <-> ExternalStackConfig.Modules b = []))
          (StackDefinitionFile.Stacks def) (StackDefinitionFile.Stacks def') ->
  ValidateStackDefinition def = ValidateStackDefinition def'.
Proof.
  intros Hv Hs. unfold ValidateStackDefinition.
  rewrite Hv, (Forall2_length _ _ _ Hs), (validateStacks_frame _ _ Hs).
  reflexivity.
Qed.

Lemma sublist_map {A B} (f : A -> B) (l1 l2 : list A) :
  l1 `sublist_of` l2 -> map f l1 `sublist_of` map f l2.
Proof. induction 1; cbn; constructor; auto. Qed.

(** X20: the names [MatchModuleToStacks] returns are those of the stacks
    that claim the module, one for each such stack and in the order of the
    list, so that a module may come back with several stacks; with the
    stacks of a definition that passed the validation no name comes back
    twice. *)
Theorem MatchModuleToStacks_names (modulePath gitRoot : string)
        (stacks : list ExternalStackConfig.t) :
  fst (MatchModuleToStacks modulePath stacks gitRoot)
  = map ExternalStackConfig.Name
        (filter (fun stack =>
                   fst (stackClaims
                          (fst (normalizedRelPath modulePath gitRoot)) stack)
                   = true) stacks)
  /\ fst (MatchModuleToStacks modulePath stacks gitRoot)
       `sublist_of` map ExternalStackConfig.Name stacks
  /\ forall version,
      ValidateStackDefinition
        {| StackDefinitionFile.Version := version;
           StackDefinitionFile.Stacks := stacks |} = None ->
      NoDup (fst (MatchModuleToStacks modulePath stacks gitRoot)).
Proof.
  assert (fst (MatchModuleToStacks modulePath stacks gitRoot)
            `sublist_of` map ExternalStackConfig.Name stacks) as Hsub.
  { rewrite MatchModuleToStacks_filter. apply sublist_map, sublist_filter. }
  split; [apply MatchModuleToStacks_filter|]. split; [exact Hsub|].
  intros version Hv. unfold ValidateStackDefinition in Hv.
  cbn [StackDefinitionFile.Version StackDefinitionFile.Stacks] in Hv.
  destruct (negb _); [discriminate|].
  destruct (length stacks =? 0)%nat; [discriminate|].
  apply validateStacks_None in Hv as (_ & Hnd & _).
  eapply sublist_NoDup; eauto.
Qed.

(** X21: the three other messages of the validation: a definition of
    version 1 without stack is reported as such; a stack without name is
    reported with its index in the list, and an empty include pattern with
    the name of its stack, each when the checks before it have passed. *)
Theorem ValidateStackDefinition_other_errors :
  (forall def,
      StackDefinitionFile.Version def = 1%Z ->
      StackDefinitionFile.Stacks def = [] ->
      ValidateStackDefinition def = Some "no stacks defined")
  /\ (forall def pre stack post,
         StackDefinitionFile.Version def = 1%Z ->
         StackDefinitionFile.Stacks def = pre ++ stack :: post ->
         validateStacks 0 pre ∅ = None ->
         ExternalStackConfig.Name stack = "" ->
         ValidateStackDefinition def
         = Some ("stack at index " +:+ formatInt (Z.of_nat (length pre))
                 +:+ " has no name"))
  /\ (forall def pre stack post,
         StackDefinitionFile.Version def = 1%Z ->
         StackDefinitionFile.Stacks def = pre ++ stack :: post ->
         validateStacks 0 pre ∅ = None ->
         ExternalStackConfig.Name stack <> "" ->
         ExternalStackConfig.Name stack ∉ names pre ->
         "" ∈ ExternalStackConfig.Include stack ->
         ValidateStackDefinition def
         = Some ("stack '" +:+ ExternalStackConfig.Name stack +:+
                 "' has empty include pattern")).
Proof.
  split; [|split].
  - intros def Hv Hs. unfold ValidateStackDefinition. now rewrite Hv, Hs.
  - intros def pre stack post Hv Hs Hpre Hname.
    unfold ValidateStackDefinition. rewrite Hv, Hs. cbn [Z.eqb Pos.eqb negb].
    rewrite length_app. cbn [length].
    replace (length pre + S (length post) =? 0)%nat with false
      by (symmetry; apply Nat.eqb_neq; lia).
    rewrite validateStacks_app by assumption. cbn [validateStacks].
    now rewrite Hname.
  - intros def pre stack post Hv Hs Hpre Hname Hfresh Hempty.
    unfold ValidateStackDefinition. rewrite Hv, Hs. cbn [Z.eqb Pos.eqb negb].
    rewrite length_app. cbn [length].
    replace (length pre + S (length post) =? 0)%nat with false
      by (symmetry; apply Nat.eqb_neq; lia).
    rewrite validateStacks_app by assumption. cbn [validateStacks].
    destruct (String.eqb_spec (ExternalStackConfig.Name stack) "");
      [contradiction|].
    destruct (seen (recordNames ∅ pre) (ExternalStackConfig.Name stack))
      eqn:Hseen.
    { apply seen_recordNames in Hseen as [Hseen|Hin];
        [discriminate | contradiction]. }
    destruct (ExternalStackConfig.Include stack) as [|pattern rest] eqn:Hi.
    { now apply elem_of_nil in Hempty. }
    cbn [length Nat.eqb andb].
    replace (existsb _ (pattern :: rest)) with true; [reflexivity|].
    symmetry. now apply existsb_empty_pattern.
Qed.

Lemma HasPrefix_token_head (c : ascii) (a b : string) :
  HasPrefix (String c (a +:+ "**" +:+ b)) "**"
  = HasPrefix (String c (a +:+ "*")) "**".
Proof. destruct a as [|c2 a]; reflexivity. Qed.

(** The first occurrence of the token after a text that holds none. *)
Lemma Index_token (a b : string) :
  Contains (a +:+ "*") "**" = false ->
  Index (a +:+ "**" +:+ b) "**" = Some (String.length a).
Proof.
  induction a as [|c a IH]; intros Hc; [reflexivity|].
  change (String c a +:+ "**" +:+ b) with (String c (a +:+ "**" +:+ b)).
  change (String c a +:+ "*") with (String c (a +:+ "*")) in Hc.
  unfold Contains in Hc. cbn [Index] in Hc |- *.
  rewrite HasPrefix_token_head.
  destruct (HasPrefix (String c (a +:+ "*")) "**"); [discriminate|].
  rewrite IH; [reflexivity|]. unfold Contains.
  now destruct (Index (a +:+ "*") "**").
Qed.

(** X22: a pattern made of a directory, a slash and the recursive token
    matches exactly the paths whose bytes start with the directory, also
    when the directory's name goes on in the path; it logs nothing. *)
Theorem matchGlobPattern_directory_prefix (path dir : string) :
  Contains (dir +:+ "/*") "**" = false ->
  matchGlobPattern path (dir +:+ "/**") = (HasPrefix path dir, [])
  /\ (HasPrefix path dir = true <-> exists t, path = dir +:+ t).
Proof.
  intros Hc. split; [|apply HasPrefix_spec].
  assert (dir +:+ "/**" = (dir +:+ "/") +:+ "**" +:+ "") as Hpat
      by now rewrite str_app_assoc.
  assert (Index (dir +:+ "/**") "**" = Some (String.length (dir +:+ "/")))
    as Hi.
  { rewrite Hpat. apply Index_token. now rewrite str_app_assoc. }
  assert (drop (String.length (dir +:+ "/") + 2) (dir +:+ "/**") = "") as Hd.
  { rewrite Hpat. change 2%nat with (String.length "**").
    rewrite <- str_length_app, <- str_app_assoc. apply str_drop_app. }
  unfold matchGlobPattern.
  rewrite (Split_one_token _ _ Hi) by now rewrite Hd.
  unfold Contains. rewrite Hi, Hd.
  replace (take (String.length (dir +:+ "/")) (dir +:+ "/**"))
    with (dir +:+ "/") by (rewrite Hpat; now rewrite str_take_app).
  assert (TrimSuffix (dir +:+ "/") "/" = dir) as ->.
  { unfold TrimSuffix.
    replace (HasSuffix (dir +:+ "/") "/") with true
      by (symmetry; apply HasSuffix_spec; eauto).
    rewrite str_length_app. cbn [String.length].
    replace (String.length dir + 1 - 1)%nat with (String.length dir) by lia.
    apply str_take_app. }
  change (TrimPrefix "" "/") with "". cbn [String.eqb negb andb].
  destruct (String.eqb_spec dir "") as [->|_]; cbn [negb andb].
  - now destruct path.
  - now destruct (HasPrefix path dir).
Qed.

End ValidationMatchFacts.

(** X19 at an instance: a stack that lists the empty string as module and
    as exclude pattern passes like the stack of the tests. *)
Lemma ValidateStackDefinition_reads_witness :
  StackDefinition.ValidateStackDefinition
    (Fixtures.definitionOf 1 [Fixtures.stackOf "test-stack" [] [""] [""]])
  = StackDefinition.ValidateStackDefinition
      (Fixtures.definitionOf 1 [Fixtures.stackOf "test-stack" [] [] ["app-a"]]).
Proof.
  apply ValidateStackDefinition_reads; [reflexivity|].
  repeat constructor; discriminate.
Defined.

(** X20 at an instance: a module claimed by two stacks of a valid
    definition. *)
Lemma MatchModuleToStacks_names_witness :
  fst (StackMatch.MatchModuleToStacks (fp := unixFilepath)
         "/repo/environments/production/app"
         [Fixtures.stackOf "production" ["environments/production/**"] [] [];
          Fixtures.stackOf "everything" ["**"] [] []] "/repo")
  = ["production"; "everything"]
  /\ NoDup (fst (StackMatch.MatchModuleToStacks (fp := unixFilepath)
                   "/repo/environments/production/app"
                   [Fixtures.stackOf "production"
                                     ["environments/production/**"] [] [];
                    Fixtures.stackOf "everything" ["**"] [] []] "/repo")).
Proof.
  split; [reflexivity|].
  apply (proj2 (proj2 (MatchModuleToStacks_names (fp := unixFilepath)
                         "/repo/environments/production/app" "/repo" _)) 1%Z).
  reflexivity.
Defined.

(** X21 at an instance: the second stack has no name; the first has an
    empty include pattern. *)
Lemma ValidateStackDefinition_other_errors_witness :
  StackDefinition.ValidateStackDefinition
    (Fixtures.definitionOf 1 [Fixtures.stackOf "a" [] [] ["app-a"];
                              Fixtures.stackOf "" [] [] ["app-b"]])
  = Some "stack at index 1 has no name"
  /\ StackDefinition.ValidateStackDefinition
       (Fixtures.definitionOf 1 [Fixtures.stackOf "a" ["x/**"; ""] [] []])
     = Some "stack 'a' has empty include pattern".
Proof.
  split.
  - apply (proj1 (proj2 ValidateStackDefinition_other_errors) _
             [Fixtures.stackOf "a" [] [] ["app-a"]]
             (Fixtures.stackOf "" [] [] ["app-b"]) []); reflexivity.
  - apply (proj2 (proj2 ValidateStackDefinition_other_errors) _
             [] (Fixtures.stackOf "a" ["x/**"; ""] [] []) []);
      try reflexivity.
    + discriminate.
    + apply not_elem_of_nil.
    + right. left.
Defined.

(** X22 at an instance: the pattern of the production directory matches a
    module of the directory [production-old]. *)
Lemma matchGlobPattern_directory_prefix_witness :
  StackMatch.matchGlobPattern (fp := unixFilepath)
    "environments/production-old/app" "environments/production/**"
  = (true, []).
Proof.
  apply (proj1 (matchGlobPattern_directory_prefix (fp := unixFilepath)
                  "environments/production-old/app" "environments/production"
                  eq_refl)).
Defined.

(** ** Further properties of the matching and of the resolvers *)

Section EmptyModuleFacts.
Context {fp : Filepath}.
Import StackMatch.

Lemma ToSlash_empty : ToSlash "" = "".
Proof. unfold ToSlash. now destruct (Ascii.eqb Separator "/"). Qed.

(** X23: a stack whose module list holds the empty string claims every
    module, and the name of such a stack is returned for every module path;
    the validation does not reject the empty string as module. *)
Theorem empty_module_claims_everything (modulePath gitRoot : string)
        (stacks : list ExternalStackConfig.t) (stack : ExternalStackConfig.t) :
  stack ∈ stacks ->
  "" ∈ ExternalStackConfig.Modules stack ->
  ExternalStackConfig.Name stack
    ∈ fst (MatchModuleToStacks modulePath stacks gitRoot).
Proof.
  intros Hin Hempty. rewrite MatchModuleToStacks_filter.
  apply list_elem_of_fmap. exists stack. split; [reflexivity|].
  apply list_elem_of_filter. split; [|exact Hin].
  unfold stackClaims.
  rewrite explicit_mode
    by (intros Hnil; rewrite Hnil in Hempty; now apply elem_of_nil in Hempty).
  cbn [fst]. apply explicitModuleMatches_spec.
  exists "". split; [exact Hempty|].
  exists (fst (normalizedRelPath modulePath gitRoot)).
  now rewrite ToSlash_empty, str_app_nil_r.
Qed.

End EmptyModuleFacts.

(** X23 at an instance: the stack passes the validation and claims a module
    of another directory. *)
Lemma empty_module_claims_everything_witness :
  StackDefinition.ValidateStackDefinition
    (Fixtures.definitionOf 1 [Fixtures.stackOf "shared" [] [] [""]]) = None
  /\ "shared"
       ∈ fst (StackMatch.MatchModuleToStacks (fp := unixFilepath)
                "/repo/experimental/app"
                [Fixtures.stackOf "shared" [] [] [""]] "/repo").
Proof.
  split; [reflexivity|].
  apply (empty_module_claims_everything (fp := unixFilepath)
           "/repo/experimental/app" "/repo" _
           (Fixtures.stackOf "shared" [] [] [""]));
    apply list_elem_of_here.
Defined.

Section SourceErrorFacts.
Context {tf : Terraform}.
Import LocalSource SourceGraph.

Abbreviation resolveOpenTofu := parseTerraformLocalModuleSourceOpenTofu.
Abbreviation resolve := parseTerraformLocalModuleSource.

(** X24: a module source is local exactly when it starts with one of the
    four prefixes; a source that does not start with a dot, such as an
    absolute path, a registry address or a URL, is never followed. *)
Theorem isLocalTerraformModuleSource_dot (raw : string) :
  (isLocalTerraformModuleSource raw = true
   <-> exists t, raw = "./" +:+ t \/ raw = "../" +:+ t
                 \/ raw = ".\" +:+ t \/ raw = "..\" +:+ t)
  /\ (HasPrefix raw "." = false -> isLocalTerraformModuleSource raw = false).
Proof.
  assert (isLocalTerraformModuleSource raw = true
          <-> exists t, raw = "./" +:+ t \/ raw = "../" +:+ t
                        \/ raw = ".\" +:+ t \/ raw = "..\" +:+ t) as Hiff.
  { rewrite isLocalTerraformModuleSource_spec. split.
    - intros (pre & Hin & t & ->). exists t.
      repeat (apply elem_of_cons in Hin as [->|Hin]; [tauto|]).
      now apply elem_of_nil in Hin.
    - intros (t & [-> | [-> | [-> | ->]]]); eexists; (split; [|eauto]);
        repeat (first [apply list_elem_of_here | apply list_elem_of_further]). }
  split; [exact Hiff|].
  intros Hdot. apply not_true_is_false. intros Hl.
  apply Hiff in Hl as (t & [-> | [-> | [-> | ->]]]); discriminate Hdot.
Qed.

Lemma collectSources_error
      (recurse : string -> option (result (list string))) (path : string)
      (calls : list ModuleCall.t) :
  forall m e,
    collectSources recurse path calls m = Some (Err e) ->
    exists mc,
      mc ∈ calls
      /\ isLocalTerraformModuleSource (ModuleCall.Source mc) = true
      /\ recurse (JoinPath path (ModuleCall.Source mc)) = Some (Err e).
Proof.
  induction calls as [|mc rest IH]; intros m e Hc; [discriminate|].
  assert (forall m0, collectSources recurse path rest m0 = Some (Err e) ->
                     exists mc0,
                       mc0 ∈ mc :: rest
                       /\ isLocalTerraformModuleSource (ModuleCall.Source mc0)
                          = true
                       /\ recurse (JoinPath path (ModuleCall.Source mc0))
                          = Some (Err e)) as Hrest.
  { intros m0 H0. destruct (IH _ _ H0) as (mc0 & Hin & Hl & Hr).
    exists mc0. split; [now right | auto]. }
  cbn [collectSources] in Hc.
  destruct (isLocalTerraformModuleSource (ModuleCall.Source mc)) eqn:Hl;
    [|eauto].
  destruct (m !! _); [eauto|].
  destruct (recurse _) as [[subs|e1]|] eqn:Hr; [eauto| |discriminate].
  injection Hc as <-. exists mc. split; [left | auto].
Qed.

(** X25: when the resolver fails, its error is the rendering of the
    diagnostics of a module that failed to load, the resolved module itself
    or one it reaches through local references: the error of a sub-module
    comes up unchanged, and a resolution fails for no other reason. *)
Theorem resolve_error_provenance (n : nat) :
  forall p e,
    parseTerraformLocalModuleSource n p = Some (Err e) ->
    exists q,
      (q = p \/ reaches p q)
      /\ HasErrors (snd (LoadModule q)) = true
      /\ e = DiagnosticsError (snd (LoadModule q)).
Proof.
  induction n as [|n IH]; intros p e Hn; [discriminate|].
  rewrite resolve_step in Hn.
  destruct (resolveOpenTofu n p) as [[s|e0]|]; try discriminate Hn.
  pose proof (localReferences_call p) as Href.
  destruct (LoadModule p) as [module diags] eqn:Hload.
  cbn [fst snd] in Href.
  destruct (HasErrors diags) eqn:He.
  { injection Hn as <-. exists p. rewrite Hload. auto. }
  unfold resolveCalls in Hn.
  destruct (collectSources _ p _ ∅) as [[m'|e1]|] eqn:Hc; try discriminate Hn.
  injection Hn as ->.
  apply collectSources_error in Hc as (mc & Hin & Hl & Hr).
  destruct (IH _ _ Hr) as (q & Hq & Hqe & ->).
  exists q. split; [|auto]. right.
  specialize (Href mc eq_refl Hin Hl).
  destruct Hq as [->|Hq]; [now apply reaches_direct|].
  eapply reaches_through; eauto.
Qed.

End SourceErrorFacts.

(** ** Resolution without reference cycle *)

Section AcyclicFacts.
Context {tf : Terraform}.
Import LocalSource SourceGraph.

Abbreviation resolveOpenTofu := parseTerraformLocalModuleSourceOpenTofu.
Abbreviation resolve := parseTerraformLocalModuleSource.

(** The loop of either resolver fails only with a failure of the
    recursion. *)
Lemma resolveCalls_error
      (recurse : string -> option (result (list string))) (p : string)
      (e : string) :
  HasErrors (snd (LoadModule p)) = false ->
  (forall q1 e1, recurse q1 = Some (Err e1) ->
                 exists q, (q = q1 \/ reaches q1 q)
                           /\ HasErrors (snd (LoadModule q)) = true) ->
  resolveCalls recurse p (fst (LoadModule p)) = Some (Err e) ->
  exists q, reaches p q /\ HasErrors (snd (LoadModule q)) = true.
Proof.
  intros He Hrec Hf. unfold resolveCalls in Hf.
  destruct (collectSources _ p _ ∅) as [[m'|e1]|] eqn:Hc; try discriminate Hf.
  apply collectSources_error in Hc as (mc & Hin & Hl & Hr).
  pose proof (localReferences_call p mc He Hin Hl) as Href.
  destruct (Hrec _ _ Hr) as (q & [Heq|Hq] & Hqe); exists q.
  - subst q. split; [now apply reaches_direct | exact Hqe].
  - split; [eapply reaches_through; eauto | exact Hqe].
Qed.

Lemma resolveOpenTofu_error (f : nat) :
  forall p e,
    resolveOpenTofu f p = Some (Err e) ->
    exists q, (q = p \/ reaches p q) /\ HasErrors (snd (LoadModule q)) = true.
Proof.
  induction f as [|f IH]; intros p e Hf; [discriminate|].
  rewrite resolveOpenTofu_step in Hf.
  pose proof (resolveCalls_error (resolveOpenTofu f) p e) as Hloop.
  destruct (LoadModule p) as [module diags] eqn:Hload.
  cbn [fst snd] in Hloop.
  destruct (HasErrors diags) eqn:He.
  - exists p. rewrite Hload. auto.
  - destruct (Hloop eq_refl IH Hf) as (q & Hq & Hqe). eauto.
Qed.

Lemma resolve_error (n : nat) :
  forall p e,
    resolve n p = Some (Err e) ->
    exists q, (q = p \/ reaches p q) /\ HasErrors (snd (LoadModule q)) = true.
Proof.
  induction n as [|n IH]; intros p e Hn; [discriminate|].
  rewrite resolve_step in Hn.
  destruct (resolveOpenTofu n p) as [[s|e0]|]; try discriminate Hn.
  pose proof (resolveCalls_error (resolve n) p e) as Hloop.
  destruct (LoadModule p) as [module diags] eqn:Hload.
  cbn [fst snd] in Hloop.
  destruct (HasErrors diags) eqn:He.
  - exists p. rewrite Hload. auto.
  - destruct (Hloop eq_refl IH Hn) as (q & Hq & Hqe). eauto.
Qed.

(** X26: when the local references form no cycle (a rank decreases along
    every local reference), both resolvers return on every module, with
    enough fuel for the depth of the references, and the answer does not
    depend on the fuel; the patterns of a successful answer are pairwise
    distinct, so that a repeated reference is recorded once; and when the
    configurations of the module and of the modules it reaches all load
    without error diagnostics, both answers are successes: a repeated
    reference is no error. *)
Theorem acyclic_resolution_returns (rank : string -> nat) :
  (forall p q, q ∈ localReferences p -> (rank q < rank p)%nat) ->
  forall path,
  exists r ro,
    (forall fuel, (S (rank path) < fuel)%nat ->
                  parseTerraformLocalModuleSourceOpenTofu fuel path = Some ro
                  /\ parseTerraformLocalModuleSource fuel path = Some r)
    /\ (forall sources, ro = Ok sources -> NoDup sources)
    /\ (forall sources, r = Ok sources -> NoDup sources)
    /\ ((forall q, q = path \/ reaches path q ->
                   HasErrors (snd (LoadModule q)) = false) ->
        exists so s, ro = Ok so /\ r = Ok s).
Proof.
  intros Hrank path.
  destruct (resolveOpenTofu_returns rank Hrank (S (rank path)) path)
    as [ro Hro]; [lia|].
  destruct (resolve_returns rank Hrank (S (S (rank path))) path)
    as [r Hr]; [lia|].
  exists r, ro. split; [|split; [|split]].
  - intros fuel Hf. split.
    + eapply resolveOpenTofu_mono; [|exact Hro]. lia.
    + eapply resolve_mono; [|exact Hr]. lia.
  - intros sources ->. eapply resolveOpenTofu_NoDup, Hro.
  - intros sources ->. eapply resolve_NoDup, Hr.
  - intros Hload.
    destruct ro as [so|eo].
    2:{ apply resolveOpenTofu_error in Hro as (q & Hq & Hqe).
        rewrite (Hload q Hq) in Hqe. discriminate. }
    destruct r as [s|e].
    2:{ apply resolve_error in Hr as (q & Hq & Hqe).
        rewrite (Hload q Hq) in Hqe. discriminate. }
    eauto.
Qed.

End AcyclicFacts.

(** X26 at an instance: the repository without cycle, ranked by the depth
    of its references; [app] and the modules it reaches load, and the
    module it calls twice is no error. *)
Lemma acyclic_resolution_returns_witness :
  exists r ro,
    (forall fuel,
        (S (SourceFixture.treeRank "/repo/app") < fuel)%nat ->
        LocalSource.parseTerraformLocalModuleSourceOpenTofu
          (tf := SourceFixture.tree) fuel "/repo/app" = Some ro
        /\ LocalSource.parseTerraformLocalModuleSource
             (tf := SourceFixture.tree) fuel "/repo/app" = Some r)
    /\ (forall sources, ro = Ok sources -> NoDup sources)
    /\ (forall sources, r = Ok sources -> NoDup sources)
    /\ ((forall q,
            q = "/repo/app"
            \/ SourceGraph.reaches (tf := SourceFixture.tree) "/repo/app" q ->
            LocalSource.HasErrors
              (snd (LoadModule (Terraform := SourceFixture.tree) q)) = false) ->
        exists so s, ro = Ok so /\ r = Ok s).
Proof.
  apply (acyclic_resolution_returns
           (tf := SourceFixture.tree) SourceFixture.treeRank).
  intros p q Hq. unfold SourceFixture.treeRank.
  apply tree_localReferences in Hq as [[-> ->]|[-> ->]]; vm_compute; lia.
Defined.

(** The modules that [app] reaches load without error diagnostics. *)
Example tree_app_loads (q : string) :
  q = "/repo/app"
  \/ SourceGraph.reaches (tf := SourceFixture.tree) "/repo/app" q ->
  LocalSource.HasErrors
    (snd (LoadModule (Terraform := SourceFixture.tree) q)) = false.
Proof.
  intros [->|Hq]; [reflexivity|].
  apply tree_reaches in Hq as [[_ [->| ->]]|[[=] _]]; reflexivity.
Qed.

(** X24 at an instance: an absolute path is not local. *)
Lemma isLocalTerraformModuleSource_dot_witness :
  LocalSource.isLocalTerraformModuleSource "/repo/modules/vpc" = false.
Proof.
  apply (proj2 (isLocalTerraformModuleSource_dot "/repo/modules/vpc")).
  reflexivity.
Defined.

(** X25 at an instance: a module that calls the module with the syntax
    error. *)
Lemma resolve_error_provenance_witness :
  exists q,
    (q = "/repo/caller"
     \/ SourceGraph.reaches (tf := FailingFixture.failing) "/repo/caller" q)
    /\ LocalSource.HasErrors
         (snd (LoadModule (Terraform := FailingFixture.failing) q)) = true
    /\ "Argument or block definition required: "
       = DiagnosticsError (Terraform := FailingFixture.failing)
           (snd (LoadModule (Terraform := FailingFixture.failing) q)).
Proof.
  apply (resolve_error_provenance (tf := FailingFixture.failing) 3
           "/repo/caller").
  vm_compute. reflexivity.
Defined.

(** X14 at an instance: the marker file with two stack blocks. *)
Lemma ParseStackHclFile_log_witness :
  (length (snd (StackHcl.ParseStackHclFile (fp := unixFilepath)
                  (hp := MarkerFixture.packages) MarkerFixture.markerPath tt))
   <= 1)%nat
  /\ StackHclDefinition.FilePath
       {| StackHclDefinition.FilePath := MarkerFixture.markerPath;
          StackHclDefinition.Units := ParsedStackHcl.Units MarkerFixture.decoded;
          StackHclDefinition.StackBlock := Some MarkerFixture.production |}
     = MarkerFixture.markerPath.
Proof.
  split.
  - apply (proj1 (ParseStackHclFile_log (fp := unixFilepath)
                    (hp := MarkerFixture.packages)
                    MarkerFixture.markerPath tt)).
  - apply (proj1 (proj2 (proj2 (ParseStackHclFile_log (fp := unixFilepath)
                                  (hp := MarkerFixture.packages)
                                  MarkerFixture.markerPath tt))
                   _ eq_refl)).
Defined.
